(** * SkillHub MCP server: agent detection, install workflow and tool dispatch

    A shallow embedding of [dist/index.js] of the SkillHub MCP server and the
    properties of its core: the agent detector, the install-path check, the
    preview/confirm install workflow and the tool-call dispatcher.

    JavaScript strings are modelled as [string] holding their UTF-8 bytes.
    The operations used on them here (concatenation, equality, prefix test,
    splitting at the ASCII slash) agree on well-formed text with the UTF-16
    view of the JavaScript runtime; [js_length] recovers the UTF-16 length. *)

From stdpp Require Import base option list strings gmap pretty.
From Stdlib Require Import Ascii ZArith QArith Lia.

Close Scope Q_scope.


(* ========================================================================= *)
(** ** Strings                                                                *)
(* ========================================================================= *)

Module Str.

Definition nl : string := String "010"%char "".
Definition dquote : string := String "034"%char "".
Definition slash : ascii := "/"%char.

(** [s.startsWith(p)]. *)
Fixpoint startsWith (s p : string) {struct p} : bool :=
  match p, s with
  | EmptyString, _ => true
  | String _ _, EmptyString => false
  | String b p', String a s' =>
      if Ascii.eqb a b then startsWith s' p' else false
  end.

(** [s.length]: the number of UTF-16 code units of the text whose UTF-8
    bytes are [s].  A continuation byte adds nothing, the lead byte of a
    four-byte sequence (a surrogate pair) adds two, every other byte one. *)
Definition units_of_byte (a : ascii) : nat :=
  let n := nat_of_ascii a in
  if (n <? 128)%nat then 1
  else if (n <? 192)%nat then 0
  else if (n <? 240)%nat then 1
  else 2.

Fixpoint js_length (s : string) : nat :=
  match s with
  | EmptyString => 0
  | String a s' => units_of_byte a + js_length s'
  end.

(** [s.split("/")]: always at least one piece. *)
Fixpoint split_slash (s : string) : list string :=
  match s with
  | EmptyString => [EmptyString]
  | String a s' =>
      if Ascii.eqb a slash then EmptyString :: split_slash s'
      else match split_slash s' with
           | [] => [String a EmptyString]
           | seg :: rest => String a seg :: rest
           end
  end.

(** [l.join(sep)]. *)
Fixpoint join (sep : string) (l : list string) : string :=
  match l with
  | [] => ""
  | [x] => x
  | x :: rest => x +:+ sep +:+ join sep rest
  end.

Definition is_empty (s : string) : bool :=
  match s with EmptyString => true | _ => false end.

Definition first_is_slash (s : string) : bool :=
  match s with String a _ => Ascii.eqb a slash | _ => false end.

Fixpoint last_is_slash (s : string) : bool :=
  match s with
  | EmptyString => false
  | String a EmptyString => Ascii.eqb a slash
  | String _ s' => last_is_slash s'
  end.

Fixpoint drop (n : nat) (s : string) : string :=
  match n, s with
  | O, _ => s
  | S n', String _ s' => drop n' s'
  | S _, EmptyString => EmptyString
  end.

(** [s.replace(pat, rep)] with a string pattern: the first occurrence only. *)
Fixpoint replace_first (pat rep s : string) : string :=
  if startsWith s pat then rep +:+ drop (String.length pat) s
  else match s with
       | EmptyString => EmptyString
       | String a s' => String a (replace_first pat rep s')
       end.

(** [s.substring(0, n)], counted in UTF-16 code units.  Where the cut
    would fall inside a surrogate pair the model leaves the whole character
    out (JavaScript keeps a lone surrogate, which UTF-8 cannot hold). *)
Fixpoint substring0 (n : nat) (s : string) : string :=
  match s with
  | EmptyString => EmptyString
  | String a s' =>
      let u := units_of_byte a in
      if (u =? 0)%nat then String a (substring0 n s')
      else if (u <=? n)%nat then String a (substring0 (n - u) s')
      else EmptyString
  end.

(** [t] occurs in [s]. *)
Definition contains (s t : string) : Prop :=
  exists pre post, s = pre +:+ t +:+ post.

End Str.

(* ========================================================================= *)
(** ** The POSIX flavour of Node's [path] module                              *)
(* ========================================================================= *)

(** [path.join], [path.normalize] and [path.resolve] belong to the runtime,
    not to this repository.  They are modelled on path segments, after the
    documented behaviour of [path.posix]: empty and [.] segments vanish, a
    [..] segment removes the segment before it, and, in a relative path only,
    a [..] with nothing left to remove is kept. *)
Module Path.

Definition is_dotdot (seg : string) : bool := String.eqb seg "..".

(** One step of [normalizeString]: [acc] holds the segments kept so far,
    last one first. *)
Definition push_segment (allowAboveRoot : bool) (acc : list string)
    (seg : string) : list string :=
  if Str.is_empty seg || String.eqb seg "." then acc
  else if is_dotdot seg then
    match acc with
    | top :: below =>
        if is_dotdot top
        then (if allowAboveRoot then seg :: acc else acc)
        else below
    | [] => if allowAboveRoot then [seg] else []
    end
  else seg :: acc.

Definition normalize_segments (allowAboveRoot : bool) (segs : list string)
    : list string :=
  rev (fold_left (push_segment allowAboveRoot) segs []).

Definition normalizeString (p : string) (allowAboveRoot : bool) : string :=
  Str.join "/" (normalize_segments allowAboveRoot (Str.split_slash p)).

Definition normalize (p : string) : string :=
  if Str.is_empty p then "."
  else
    let isAbsolute := Str.first_is_slash p in
    let trailingSeparator := Str.last_is_slash p in
    let q := normalizeString p (negb isAbsolute) in
    if Str.is_empty q then
      (if isAbsolute then "/" else if trailingSeparator then "./" else ".")
    else
      let q' := if trailingSeparator then q +:+ "/" else q in
      if isAbsolute then "/" +:+ q' else q'.

(** [path.join(...args)]: the non-empty arguments glued with slashes, then
    normalized. *)
Definition join (args : list string) : string :=
  match filter (fun a => Str.is_empty a = false) args with
  | [] => "."
  | parts => normalize (Str.join "/" parts)
  end.

(** [path.resolve(p)] with one argument; [cwd] is [process.cwd()]. *)
Definition resolve (cwd p : string) : string :=
  let step (st : string * bool) (q : string) : string * bool :=
    let '(resolvedPath, resolvedAbsolute) := st in
    if resolvedAbsolute || Str.is_empty q then st
    else (q +:+ "/" +:+ resolvedPath, Str.first_is_slash q) in
  let '(resolvedPath, resolvedAbsolute) :=
    fold_left step [p; cwd] ("", false) in
  let r := normalizeString resolvedPath (negb resolvedAbsolute) in
  if resolvedAbsolute then "/" +:+ r
  else if Str.is_empty r then "." else r.

(** Component-wise containment, the notion the specification asks for:
    the segments of [root] are a prefix of the segments of [dir]. *)
Definition segments (p : string) : list string :=
  filter (fun s => Str.is_empty s = false) (Str.split_slash p).

Fixpoint segments_prefix (r d : list string) : bool :=
  match r, d with
  | [], _ => true
  | _ :: _, [] => false
  | x :: r', y :: d' => String.eqb x y && segments_prefix r' d'
  end.

Definition within_root (root dir : string) : bool :=
  segments_prefix (segments root) (segments dir).

End Path.

(* ========================================================================= *)
(** ** Errors and results                                                     *)
(* ========================================================================= *)

(** A thrown value: an [Error] object with its [message], or any other value
    with its [String(v)] image. *)
Inductive exn : Type :=
| JsError (message : string)
| JsThrown (shown : string).

(** [err instanceof Error ? err.message : String(err)] *)
Definition exn_message (e : exn) : string :=
  match e with
  | JsError m => m
  | JsThrown s => s
  end.

Inductive result (A : Type) : Type :=
| Ok (a : A)
| Throw (e : exn).
Arguments Ok {A} a.
Arguments Throw {A} e.

(* ========================================================================= *)
(** ** Configuration and agent detection                                      *)
(* ========================================================================= *)

Record Stats := { isDirectory : bool }.

(** What the module finds in its process at load time.  [proc_statSync dir]
    is the filesystem as [fs.statSync(dir)] reports it: the stats of the
    entry, or the error thrown for it. *)
Record Process := {
  proc_env : gmap string string;
  proc_homedir : string;
  proc_cwd : string;
  proc_statSync : string -> result Stats
}.

(** Truthiness of [process.env.NAME]: set, and not the empty string. *)
Definition env_truthy (p : Process) (name : string) : bool :=
  match proc_env p !! name with
  | Some v => negb (Str.is_empty v)
  | None => false
  end.

Definition AgentKinds : list string := ["claude"; "codex"; "gemini"; "opencode"].

Definition is_agent_kind (a : string) : bool := bool_decide (a ∈ AgentKinds).

(** [require("fs").statSync(dir)], as the module evaluates it.  The file is
    an ES module: it opens with [import] declarations.  Node binds no
    [require] in the scope of an ES module and the file declares none, so
    evaluating the callee throws a [ReferenceError] before [statSync] is
    reached, whatever the filesystem holds. *)
Definition require_fs_statSync (p : Process) (dir : string) : result Stats :=
  Throw (JsError "require is not defined").

(** The [for (const [agent, dir] of checks)] loop with its [try]/[catch]. *)
Fixpoint first_config_dir (stat : string -> result Stats)
    (checks : list (string * string)) : option string :=
  match checks with
  | [] => None
  | (agent, dir) :: rest =>
      match stat dir with
      | Ok stats =>
          if isDirectory stats then Some agent else first_config_dir stat rest
      | Throw _ => first_config_dir stat rest
      end
  end.

Definition config_dir_checks (p : Process) : list (string * string) :=
  let homeDir := proc_homedir p in
  [ ("claude", Path.join [homeDir; ".claude"]);
    ("codex", Path.join [homeDir; ".codex"]);
    ("gemini", Path.join [homeDir; ".gemini"]);
    ("opencode", Path.join [homeDir; ".opencode"]) ].

(** Steps 2 to 4 of [detectCurrentAgent]. *)
Definition detect_without_override (p : Process) : string :=
  if env_truthy p "CLAUDE_CODE" || env_truthy p "ANTHROPIC_API_KEY" then "claude"
  else if env_truthy p "CODEX_HOME" || env_truthy p "OPENAI_API_KEY" then "codex"
  else if env_truthy p "GEMINI_API_KEY" then "gemini"
  else
    match first_config_dir (require_fs_statSync p) (config_dir_checks p) with
    | Some agent => agent
    | None => "claude"
    end.

Definition detectCurrentAgent (p : Process) : string :=
  match proc_env p !! "SKILLHUB_DEFAULT_AGENT" with
  | Some envAgent =>
      if negb (Str.is_empty envAgent) && is_agent_kind envAgent
      then envAgent
      else detect_without_override p
  | None => detect_without_override p
  end.

Definition DETECTED_AGENT (p : Process) : string := detectCurrentAgent p.

(** [process.env.SKILLHUB_API_URL || "https://skillhub.club/api/v1"] *)
Definition SKILLHUB_API_BASE (p : Process) : string :=
  match proc_env p !! "SKILLHUB_API_URL" with
  | Some v => if Str.is_empty v then "https://skillhub.club/api/v1" else v
  | None => "https://skillhub.club/api/v1"
  end.

Definition ALLOWED_INSTALL_DIRS (p : Process) : gmap string string :=
  <["claude" := Path.join [proc_homedir p; ".claude"; "skills"]]>
  (<["codex" := Path.join [proc_homedir p; ".codex"; "skills"]]>
  (<["gemini" := Path.join [proc_homedir p; ".gemini"; "skills"]]>
  (<["opencode" := Path.join [proc_homedir p; ".opencode"; "skills"]]> ∅))).

(** [ALLOWED_INSTALL_DIRS[agent]] reads an own property, or, for the names
    every object inherits from [Object.prototype], a value that is not a
    string, or [undefined]. *)
Definition Object_prototype_keys : list string :=
  [ "constructor"; "hasOwnProperty"; "isPrototypeOf"; "propertyIsEnumerable";
    "toLocaleString"; "toString"; "valueOf"; "__proto__";
    "__defineGetter__"; "__defineSetter__"; "__lookupGetter__";
    "__lookupSetter__" ].

Inductive Property : Type :=
| Own (dir : string)
| Inherited
| Undefined.

Definition install_dir (p : Process) (agent : string) : Property :=
  match ALLOWED_INSTALL_DIRS p !! agent with
  | Some dir => Own dir
  | None =>
      if bool_decide (agent ∈ Object_prototype_keys) then Inherited
      else Undefined
  end.

(** [path.join] validates its arguments and throws a [TypeError] for a
    non-string; [received] is how Node describes the offending value. *)
Definition path_TypeError (received : string) : exn :=
  JsError ("The " +:+ Str.dquote +:+ "path" +:+ Str.dquote
           +:+ " argument must be of type string. Received " +:+ received).

Definition received_inherited (agent : string) : string :=
  if String.eqb agent "__proto__" then "an instance of Object"
  else if String.eqb agent "constructor" then "function Object"
  else "function " +:+ agent.

(** The containment test of the install loop:
    [path.resolve(skillDir).startsWith(path.resolve(baseDir))]. *)
Definition security_check (cwd baseDir skillDir : string) : bool :=
  let resolvedDir := Path.resolve cwd skillDir in
  let resolvedBase := Path.resolve cwd baseDir in
  Str.startsWith resolvedDir resolvedBase.


(* ========================================================================= *)
(** ** Tool arguments and their schemas                                       *)
(* ========================================================================= *)

(** The raw arguments of a tool call: a JSON value.  An object keeps one
    binding per key. *)
Set Warnings "-register-all".
Inductive json : Type :=
| JNull
| JBool (b : bool)
| JNum (q : Q)
| JStr (s : string)
| JArr (items : list json)
| JObj (fields : list (string * json)).
Set Warnings "register-all".

Fixpoint assoc (k : string) (fields : list (string * json)) : option json :=
  match fields with
  | [] => None
  | (k', v) :: rest => if String.eqb k k' then Some v else assoc k rest
  end.

Record ZodIssue := { issue_code : string; issue_path : list string }.

(** The text of [ZodError.message] is the schema library's. *)
Class ZodRender := zod_message : list ZodIssue -> string.

Module Zod.

(** A validator reads a value that may be [undefined] ([None]) and yields
    the parsed value or the issues found at [path]. *)
Definition parsed (A : Type) : Type := list ZodIssue + A.
Definition validator (A : Type) : Type := list string -> option json -> parsed A.

Definition issue (code : string) (path : list string) : list ZodIssue :=
  [ {| issue_code := code; issue_path := path |} ].

Definition string_ : validator string := fun path v =>
  match v with
  | Some (JStr s) => inr s
  | _ => inl (issue "invalid_type" path)
  end.

Definition boolean : validator bool := fun path v =>
  match v with
  | Some (JBool b) => inr b
  | _ => inl (issue "invalid_type" path)
  end.

(** [z.number()] with optional [.min(lo)] and [.max(hi)], both inclusive. *)
Definition number (lo hi : option Q) : validator Q := fun path v =>
  match v with
  | Some (JNum q) =>
      let small := match lo with
                   | Some l => if Qle_bool l q then [] else issue "too_small" path
                   | None => []
                   end in
      let big := match hi with
                 | Some h => if Qle_bool q h then [] else issue "too_big" path
                 | None => []
                 end in
      match small ++ big with
      | [] => inr q
      | issues => inl issues
      end
  | _ => inl (issue "invalid_type" path)
  end.

Definition enum (values : list string) : validator string := fun path v =>
  match v with
  | Some (JStr s) =>
      if bool_decide (s ∈ values) then inr s
      else inl (issue "invalid_enum_value" path)
  | _ => inl (issue "invalid_type" path)
  end.

Definition both {A B} (a : parsed A) (b : parsed B) : parsed (A * B) :=
  match a, b with
  | inr x, inr y => inr (x, y)
  | inl i, inr _ => inl i
  | inr _, inl j => inl j
  | inl i, inl j => inl (i ++ j)
  end.

Fixpoint items {A} (elem : validator A) (path : list string) (i : nat)
    (l : list json) : parsed (list A) :=
  match l with
  | [] => inr []
  | x :: rest =>
      match both (elem (path ++ [pretty i]) (Some x))
                 (items elem path (S i) rest) with
      | inr (y, ys) => inr (y :: ys)
      | inl issues => inl issues
      end
  end.

Definition array {A} (elem : validator A) : validator (list A) := fun path v =>
  match v with
  | Some (JArr l) => items elem path 0 l
  | _ => inl (issue "invalid_type" path)
  end.

(** [.optional()]: [undefined] passes through. *)
Definition optional {A} (inner : validator A) : validator (option A) :=
  fun path v =>
    match v with
    | None => inr None
    | Some _ => match inner path v with
                | inr x => inr (Some x)
                | inl issues => inl issues
                end
    end.

(** [.default(d)]: [undefined] is replaced by [d]. *)
Definition default {A} (d : A) (inner : validator A) : validator A :=
  fun path v =>
    match v with
    | None => inr d
    | Some _ => inner path v
    end.

(** [z.object({...}).parse(raw)]: [raw] must be an object; [shape] then
    validates its fields; issues become a thrown [ZodError]. *)
Definition object `{ZodRender} {A} (shape : list (string * json) -> parsed A)
    (raw : option json) : result A :=
  match raw with
  | Some (JObj fields) =>
      match shape fields with
      | inr a => Ok a
      | inl issues => Throw (JsError (zod_message issues))
      end
  | _ => Throw (JsError (zod_message (issue "invalid_type" [])))
  end.

Definition field {A} (name : string) (v : validator A)
    (fields : list (string * json)) : parsed A :=
  v [name] (assoc name fields).

End Zod.

Record SearchArgs := {
  search_query : string;
  search_limit : Q;
  search_category : option string;
  search_min_score : option Q
}.

Record DetailArgs := {
  detail_skill_id : string;
  detail_include_content : bool
}.

Record InstallArgs := {
  skill_id : string;
  agents : option (list string);
  confirm : bool
}.

Record BrowseArgs := {
  browse_category : option string;
  browse_sort : string;
  browse_limit : Q;
  browse_offset : Q;
  browse_min_score : option Q
}.

Record RecommendArgs := {
  recommend_context : string;
  recommend_current_skills : list string;
  recommend_limit : Q
}.

Section Schemas.
Context `{ZodRender}.
Import Zod.

Definition SearchSkillsSchema : option json -> result SearchArgs :=
  object (fun o =>
    match both (field "query" string_ o)
         (both (field "limit" (default 5%Q (number (Some 1%Q) (Some 20%Q))) o)
         (both (field "category" (optional string_) o)
               (field "min_score" (optional (number (Some 0%Q) (Some 100%Q))) o)))
    with
    | inr (q, (l, (c, m))) =>
        inr {| search_query := q; search_limit := l;
               search_category := c; search_min_score := m |}
    | inl issues => inl issues
    end).

Definition GetSkillDetailSchema : option json -> result DetailArgs :=
  object (fun o =>
    match both (field "skill_id" string_ o)
               (field "include_content" (default false boolean) o)
    with
    | inr (i, c) => inr {| detail_skill_id := i; detail_include_content := c |}
    | inl issues => inl issues
    end).

Definition InstallSkillSchema : option json -> result InstallArgs :=
  object (fun o =>
    match both (field "skill_id" string_ o)
         (both (field "agents" (optional (array (enum AgentKinds))) o)
               (field "confirm" (default false boolean) o))
    with
    | inr (i, (a, c)) => inr {| skill_id := i; agents := a; confirm := c |}
    | inl issues => inl issues
    end).

Definition BrowseCatalogSchema : option json -> result BrowseArgs :=
  object (fun o =>
    match both (field "category" (optional string_) o)
         (both (field "sort"
                  (default "composite"
                     (enum ["score"; "stars"; "recent"; "composite"])) o)
         (both (field "limit" (default 10%Q (number (Some 1%Q) (Some 50%Q))) o)
         (both (field "offset" (default 0%Q (number (Some 0%Q) None)) o)
               (field "min_score" (optional (number (Some 0%Q) (Some 100%Q))) o))))
    with
    | inr (c, (s, (l, (f, m)))) =>
        inr {| browse_category := c; browse_sort := s; browse_limit := l;
               browse_offset := f; browse_min_score := m |}
    | inl issues => inl issues
    end).

Definition RecommendSkillsSchema : option json -> result RecommendArgs :=
  object (fun o =>
    match both (field "context" string_ o)
         (both (field "current_skills" (default [] (array string_)) o)
               (field "limit" (default 5%Q (number (Some 1%Q) (Some 10%Q))) o))
    with
    | inr (c, (k, l)) =>
        inr {| recommend_context := c; recommend_current_skills := k;
               recommend_limit := l |}
    | inl issues => inl issues
    end).

End Schemas.

(* ========================================================================= *)
(** ** The outside world                                                      *)
(* ========================================================================= *)

Record Skill := { skill_name : string; skill_slug : string; skill_repo_url : string }.
Record OneLiners := { unix : string; windows : string }.

(** The answer of [client.getInstallInfo], as the SDK declares it. *)
Record InstallInfo := {
  info_skill : Skill;
  install_content : string;
  one_liners : OneLiners
}.

Inductive ClientCall : Type :=
| GetInstallInfo (id : string) (targetAgents : list string)
| Search (a : SearchArgs)
| GetSkill (a : DetailArgs)
| GetCatalog (a : BrowseArgs)
| PublicRecommend (a : RecommendArgs).

(** The body posted to the tracking endpoint. *)
Record TrackEvent := {
  track_url : string;
  user_agent : string;
  event_type : string;
  event_tool : string;
  event_args : json;
  event_success : bool;
  event_error : option string;
  event_duration_ms : Z;
  event_metadata : list (string * option string);
  event_source : string;
  event_timestamp : Z
}.

(** How a call of [fetch] can end. *)
Inductive FetchOutcome : Type :=
| Resolved
| Rejected (e : exn)
| ThrewSync (e : exn).

(** Everything the server does to the outside, in the order it happens. *)
Inductive Event : Type :=
| EvClient (c : ClientCall)
| EvMkdir (dir : string)
| EvWriteFile (file content : string)
| EvTrack (t : TrackEvent).

(** The collaborators of the server over a world [W]: the catalog client, the
    filesystem, [fetch] and the clock.  Each operation may fail and may change
    the world.  The four read-only handlers ([searchSkills], [getSkillDetail],
    [browseCatalog], [recommendSkills]) make one catalog call and render its
    answer as text; the runtime supplies the rendered text, or the error the
    handler ends with. *)
Class Runtime (W : Type) := {
  rt_getInstallInfo : string -> list string -> W -> result InstallInfo * W;
  rt_search : SearchArgs -> W -> result string * W;
  rt_getSkill : DetailArgs -> W -> result string * W;
  rt_getCatalog : BrowseArgs -> W -> result string * W;
  rt_publicRecommend : RecommendArgs -> W -> result string * W;
  rt_mkdir : string -> W -> result unit * W;
  rt_writeFile : string -> string -> W -> result unit * W;
  rt_fetch : TrackEvent -> W -> FetchOutcome * W;
  rt_now : W -> Z * W
}.

(* ========================================================================= *)
(** ** Computations: world, event log and exceptions                          *)
(* ========================================================================= *)

Record State (W : Type) := { st_world : W; st_log : list Event }.
Arguments st_world {W} _.
Arguments st_log {W} _.
Arguments Build_State {W} _ _.

Definition M (W A : Type) : Type := State W -> result A * State W.

Definition ret {W A} (a : A) : M W A := fun s => (Ok a, s).

Definition throw {W A} (e : exn) : M W A := fun s => (Throw e, s).

Definition bind {W A B} (m : M W A) (k : A -> M W B) : M W B :=
  fun s =>
    match m s with
    | (Ok a, s') => k a s'
    | (Throw e, s') => (Throw e, s')
    end.

(** [try { m } catch (e) { handler e }] *)
Definition try_catch {W A} (m : M W A) (handler : exn -> M W A) : M W A :=
  fun s =>
    match m s with
    | (Ok a, s') => (Ok a, s')
    | (Throw e, s') => handler e s'
    end.

Definition lift {W A} (r : result A) : M W A := fun s => (r, s).

(** An outside call: logged when made, then answered by the runtime. *)
Definition call {W A} (ev : Event) (op : W -> result A * W) : M W A :=
  fun s =>
    let '(r, w') := op (st_world s) in
    (r, {| st_world := w'; st_log := st_log s ++ [ev] |}).

Declare Scope m_scope.
Delimit Scope m_scope with M.
Notation "x <- m ;; k" := (bind m (fun x => k))
  (at level 100, m at next level, right associativity) : m_scope.
Notation "m ;;; k" := (bind m (fun _ => k))
  (at level 100, right associativity) : m_scope.

(** [for (const x of l) { acc = body acc x }] *)
Fixpoint for_each {W A S} (l : list A) (body : S -> A -> M W S) (acc : S)
    : M W S :=
  match l with
  | [] => ret acc
  | x :: rest => bind (body acc x) (for_each rest body)
  end.

(** [l.map(f)] where [f] may throw. *)
Fixpoint map_result {A B} (f : A -> result B) (l : list A) : result (list B) :=
  match l with
  | [] => Ok []
  | x :: rest =>
      match f x with
      | Throw e => Throw e
      | Ok y => match map_result f rest with
                | Throw e => Throw e
                | Ok ys => Ok (y :: ys)
                end
      end
  end.

(* ========================================================================= *)
(** ** The install workflow                                                   *)
(* ========================================================================= *)

(** One line of the [installed] or of the [errors] array.  The arrays hold the
    rendered lines; the model keeps each line as the outcome it renders and
    renders it where the arrays are joined. *)
Inductive Outcome : Type :=
| Installed (agent skillFile : string)
| UnknownAgent (agent : string)
| SecurityError (agent : string)
| FsError (agent msg : string).

Definition outcome_agent (o : Outcome) : string :=
  match o with
  | Installed a _ | UnknownAgent a | SecurityError a | FsError a _ => a
  end.

Definition is_success (o : Outcome) : bool :=
  match o with Installed _ _ => true | _ => false end.

Definition render_outcome (o : Outcome) : string :=
  match o with
  | Installed agent skillFile => "✅ **" +:+ agent +:+ "**: `" +:+ skillFile +:+ "`"
  | UnknownAgent agent => "Unknown agent: " +:+ agent
  | SecurityError agent => "Security error: Invalid path for " +:+ agent
  | FsError agent msg => "❌ **" +:+ agent +:+ "**: " +:+ msg
  end.

(** The text returned by the Execute phase, from the two arrays. *)
Definition render_report (skill : Skill) (installed errors : list Outcome)
    : string :=
  let output := "# ✅ Installed: " +:+ skill_name skill +:+ Str.nl +:+ Str.nl in
  let output :=
    match installed with
    | [] => output
    | _ => output
           +:+ ("## Successfully Installed" +:+ Str.nl
                +:+ Str.join Str.nl (map render_outcome installed)
                +:+ Str.nl +:+ Str.nl)
           +:+ ("> **Note:** Restart your AI agent or start a new conversation to load the skill."
                +:+ Str.nl +:+ Str.nl)
    end in
  let output :=
    match errors with
    | [] => output
    | _ => output
           +:+ ("## Errors" +:+ Str.nl
                +:+ Str.join Str.nl (map render_outcome errors)
                +:+ Str.nl +:+ Str.nl)
    end in
  output
  +:+ ("## Skill Info" +:+ Str.nl
       +:+ "- **Repository:** " +:+ skill_repo_url skill +:+ Str.nl
       +:+ "- **Slug:** " +:+ skill_slug skill).

(** The text returned by the Preview phase, from the rendered path lines. *)
Definition render_preview (detected : string) (data : InstallInfo)
    (installPaths : string) : string :=
  let skill := info_skill data in
  Str.join Str.nl
    [ "# Install " +:+ skill_name skill +:+ "?";
      "";
      "## Target Environment";
      "Detected CLI: **" +:+ detected +:+ "**";
      "";
      "## This will create:";
      installPaths;
      "";
      "## Skill Preview";
      "- **Name:** " +:+ skill_name skill;
      "- **Repository:** " +:+ skill_repo_url skill;
      "- **Content size:** " +:+ pretty (Str.js_length (install_content data))
        +:+ " characters";
      "";
      "---";
      "";
      "**To confirm installation, call again with `confirm: true`:**";
      "```";
      "install_skill({ skill_id: " +:+ Str.dquote +:+ skill_slug skill
        +:+ Str.dquote +:+ ", confirm: true })";
      "```";
      "";
      "Or use one-liner commands:";
      "";
      "### macOS / Linux";
      "```bash";
      unix (one_liners data);
      "```";
      "";
      "### Windows (PowerShell)";
      "```powershell";
      windows (one_liners data);
      "```" ].

Section Server.
Context {W : Type} `{Runtime W} `{ZodRender} (proc : Process).
Local Open Scope m_scope.

Definition Date_now : M W Z := fun s =>
  let '(t, w') := rt_now (st_world s) in
  (Ok t, {| st_world := w'; st_log := st_log s |}).

Definition getInstallInfo (id : string) (targetAgents : list string)
    : M W InstallInfo :=
  call (EvClient (GetInstallInfo id targetAgents))
       (rt_getInstallInfo id targetAgents).

Definition fs_mkdir (dir : string) : M W unit :=
  call (EvMkdir dir) (rt_mkdir dir).

Definition fs_writeFile (file content : string) : M W unit :=
  call (EvWriteFile file content) (rt_writeFile file content).

(** The callback of [targetAgents.map] in the Preview phase. *)
Definition preview_line (args : InstallArgs) (skill : Skill) (agent : string)
    : result string :=
  match install_dir proc agent with
  | Own baseDir =>
      let isDetected :=
        String.eqb agent (DETECTED_AGENT proc)
        && match agents args with None => true | Some _ => false end in
      Ok ("- **" +:+ agent +:+ "**"
          +:+ (if isDetected then " (auto-detected)" else "")
          +:+ ": `" +:+ Path.join [baseDir; skill_slug skill; "SKILL.md"]
          +:+ "`")
  | Inherited => Throw (path_TypeError (received_inherited agent))
  | Undefined => Throw (path_TypeError "undefined")
  end.

(** The body of the [for (const agent of targetAgents)] loop; the state is
    the pair of arrays [(installed, errors)]. *)
Definition install_agent (data : InstallInfo)
    (acc : list Outcome * list Outcome) (agent : string)
    : M W (list Outcome * list Outcome) :=
  let '(installed, errors) := acc in
  match install_dir proc agent with
  | Undefined => ret (installed, errors ++ [UnknownAgent agent])
  | Inherited => throw (path_TypeError (received_inherited agent))
  | Own baseDir =>
      if Str.is_empty baseDir
      then ret (installed, errors ++ [UnknownAgent agent])
      else
        let skillDir := Path.join [baseDir; skill_slug (info_skill data)] in
        let skillFile := Path.join [skillDir; "SKILL.md"] in
        if negb (security_check (proc_cwd proc) baseDir skillDir)
        then ret (installed, errors ++ [SecurityError agent])
        else
          try_catch
            (fs_mkdir skillDir ;;;
             fs_writeFile skillFile (install_content data) ;;;
             ret (installed ++ [Installed agent skillFile], errors))
            (fun err =>
               ret (installed, errors ++ [FsError agent (exn_message err)]))
  end.

Definition install_loop (data : InstallInfo) (targetAgents : list string)
    : M W (list Outcome * list Outcome) :=
  for_each targetAgents (install_agent data) ([], []).

Definition targetAgents_of (args : InstallArgs) : list string :=
  match agents args with
  | Some l => l
  | None => [DETECTED_AGENT proc]
  end.

Definition installSkill (args : InstallArgs) : M W string :=
  let targetAgents := targetAgents_of args in
  data <- getInstallInfo (skill_id args) targetAgents ;;
  if negb (confirm args) then
    installPaths <- lift (map_result (preview_line args (info_skill data))
                                     targetAgents) ;;
    ret (render_preview (DETECTED_AGENT proc) data
           (Str.join Str.nl installPaths))
  else
    acc <- install_loop data targetAgents ;;
    ret (render_report (info_skill data) acc.1 acc.2).

(** The four read-only handlers. *)
Definition searchSkills (a : SearchArgs) : M W string :=
  call (EvClient (Search a)) (rt_search a).
Definition getSkillDetail (a : DetailArgs) : M W string :=
  call (EvClient (GetSkill a)) (rt_getSkill a).
Definition browseCatalog (a : BrowseArgs) : M W string :=
  call (EvClient (GetCatalog a)) (rt_getCatalog a).
Definition recommendSkills (a : RecommendArgs) : M W string :=
  call (EvClient (PublicRecommend a)) (rt_publicRecommend a).

End Server.

(* ========================================================================= *)
(** ** The tool-call dispatcher                                               *)
(* ========================================================================= *)

(** The value returned to the host; an absent [isError] reads as [false]. *)
Record CallToolResult := { content_text : string; isError : bool }.

(** JavaScript truthiness of the raw arguments, for [args || {}]. *)
Definition js_truthy (v : option json) : bool :=
  match v with
  | None | Some JNull | Some (JBool false) => false
  | Some (JStr s) => negb (Str.is_empty s)
  | Some (JNum q) => negb (Qeq_bool q 0)
  | Some _ => true
  end.

Definition args_or_empty (args : option json) : json :=
  match args with
  | Some v => if js_truthy args then v else JObj []
  | None => JObj []
  end.

Section Dispatcher.
Context {W : Type} `{Runtime W} `{ZodRender} (proc : Process).
Local Open Scope m_scope.

(** [trackMCPCall], closed over the request's [name], [args] and
    [startTime]. *)
Definition trackMCPCall (name : string) (args : option json) (startTime : Z)
    (success : bool) (error : option string)
    (metadata : list (string * option string)) : M W unit :=
  try_catch
    (let apiBase := Str.replace_first "/api/v1" "" (SKILLHUB_API_BASE proc) in
     t1 <- Date_now ;;
     t2 <- Date_now ;;
     let body :=
       {| track_url := apiBase +:+ "/api/v1/desktop/track";
          user_agent :=
            "skillhub-mcp-server/"
            +:+ (if env_truthy proc "npm_package_version"
                 then default "" (proc_env proc !! "npm_package_version")
                 else "unknown");
          event_type := "mcp." +:+ name;
          event_tool := name;
          event_args := args_or_empty args;
          event_success := success;
          event_error := error;
          event_duration_ms := (t1 - startTime)%Z;
          event_metadata := metadata;
          event_source := "mcp_server";
          event_timestamp := t2 |} in
     fun s =>
       let '(outcome, w') := rt_fetch body (st_world s) in
       let s' := {| st_world := w'; st_log := st_log s ++ [EvTrack body] |} in
       match outcome with
       | Resolved => (Ok (), s')
       | Rejected _ => (Ok (), s')
       | ThrewSync e => (Throw e, s')
       end)
    (fun _ => ret ()).

(** The [switch (name)] of the handler. *)
Definition run_tool (name : string) (args : option json)
    (track : bool -> option string -> list (string * option string) -> M W unit)
    : M W string :=
  if String.eqb name "search_skills" then
    parsedArgs <- lift (SearchSkillsSchema args) ;;
    result <- searchSkills parsedArgs ;;
    track true None [("query", Some (search_query parsedArgs))] ;;;
    ret result
  else if String.eqb name "get_skill_detail" then
    parsedArgs <- lift (GetSkillDetailSchema args) ;;
    result <- getSkillDetail parsedArgs ;;
    track true None [("skill_id", Some (detail_skill_id parsedArgs))] ;;;
    ret result
  else if String.eqb name "install_skill" then
    parsedArgs <- lift (InstallSkillSchema args) ;;
    result <- installSkill proc parsedArgs ;;
    track true None [("skill_id", Some (skill_id parsedArgs))] ;;;
    ret result
  else if String.eqb name "browse_catalog" then
    parsedArgs <- lift (BrowseCatalogSchema args) ;;
    result <- browseCatalog parsedArgs ;;
    track true None [("category", browse_category parsedArgs);
                     ("sort", Some (browse_sort parsedArgs))] ;;;
    ret result
  else if String.eqb name "recommend_skills" then
    parsedArgs <- lift (RecommendSkillsSchema args) ;;
    result <- recommendSkills parsedArgs ;;
    track true None
      [("context", Some (Str.substring0 100 (recommend_context parsedArgs)))] ;;;
    ret result
  else throw (JsError ("Unknown tool: " +:+ name)).

(** The handler registered for [CallToolRequestSchema]. *)
Definition handle_call_tool (name : string) (args : option json)
    : M W CallToolResult :=
  startTime <- Date_now ;;
  let track := trackMCPCall name args startTime in
  try_catch
    (result <- run_tool name args track ;;
     ret {| content_text := result; isError := false |})
    (fun error =>
       let message := exn_message error in
       track false (Some message) [] ;;;
       ret {| content_text := "Error: " +:+ message; isError := true |}).

End Dispatcher.

Definition registered_tools : list string :=
  [ "search_skills"; "get_skill_detail"; "install_skill"; "browse_catalog";
    "recommend_skills" ].

(* ========================================================================= *)
(** ** A small in-memory runtime, to run the model on concrete inputs         *)
(* ========================================================================= *)

Module Sim.

(** Directories and files created so far, the path prefixes under which the
    filesystem refuses to write, the catalog, the clock and the state of the
    network. *)
Record World := {
  dirs : list string;
  files : list (string * string);
  readonly : list string;
  catalog : list (string * InstallInfo);
  clock : Z;
  offline : bool
}.

Definition refused (w : World) (path : string) : bool :=
  existsb (Str.startsWith path) (readonly w).

Fixpoint find_skill (id : string) (l : list (string * InstallInfo))
    : option InstallInfo :=
  match l with
  | [] => None
  | (k, v) :: rest => if String.eqb id k then Some v else find_skill id rest
  end.

Definition catalog_answer (id : string) (_ : list string) (w : World)
    : result InstallInfo * World :=
  match find_skill id (catalog w) with
  | Some info => (Ok info, w)
  | None => (Throw (JsError "Skill not found"), w)
  end.

Definition mkdir (dir : string) (w : World) : result unit * World :=
  if refused w dir
  then (Throw (JsError ("EACCES: permission denied, mkdir '" +:+ dir +:+ "'")), w)
  else (Ok (), {| dirs := dirs w ++ [dir]; files := files w;
                  readonly := readonly w; catalog := catalog w;
                  clock := clock w; offline := offline w |}).

Definition writeFile (file content : string) (w : World)
    : result unit * World :=
  if refused w file
  then (Throw (JsError ("EACCES: permission denied, open '" +:+ file +:+ "'")), w)
  else (Ok (), {| dirs := dirs w; files := files w ++ [(file, content)];
                  readonly := readonly w; catalog := catalog w;
                  clock := clock w; offline := offline w |}).

Definition fetch (_ : TrackEvent) (w : World) : FetchOutcome * World :=
  (if offline w then Rejected (JsError "fetch failed") else Resolved, w).

Definition now (w : World) : Z * World :=
  (clock w, {| dirs := dirs w; files := files w; readonly := readonly w;
               catalog := catalog w; clock := (clock w + 1)%Z;
               offline := offline w |}).

#[global] Instance runtime : Runtime World := {|
  rt_getInstallInfo := catalog_answer;
  rt_search := fun _ w => (Ok "search results", w);
  rt_getSkill := fun _ w => (Ok "skill detail", w);
  rt_getCatalog := fun _ w => (Ok "catalog page", w);
  rt_publicRecommend := fun _ w => (Ok "recommendations", w);
  rt_mkdir := mkdir;
  rt_writeFile := writeFile;
  rt_fetch := fetch;
  rt_now := now
|}.

#[export] Instance zod_render : ZodRender :=
  fun issues => "ZodError: " +:+ Str.join ", " (map issue_code issues).

Definition no_stat (_ : string) : result Stats :=
  Throw (JsError "ENOENT: no such file or directory").

(** A process of user [u] with nothing set. *)
Definition bare : Process :=
  {| proc_env := ∅; proc_homedir := "/home/u"; proc_cwd := "/work";
     proc_statSync := no_stat |}.

(** The same user with the override set to [gemini], while a [claude]
    variable is set too and every configuration directory exists. *)
Definition gemini_override : Process :=
  {| proc_env := <["SKILLHUB_DEFAULT_AGENT" := "gemini"]>
                 (<["ANTHROPIC_API_KEY" := "sk-test"]> ∅);
     proc_homedir := "/home/u"; proc_cwd := "/work";
     proc_statSync := fun _ => Ok {| isDirectory := true |} |}.

(** The same user with [~/.claude] a plain file, [~/.codex] a directory and
    nothing else. *)
Definition codex_home : Process :=
  {| proc_env := ∅; proc_homedir := "/home/u"; proc_cwd := "/work";
     proc_statSync := fun dir =>
       if String.eqb dir "/home/u/.claude" then Ok {| isDirectory := false |}
       else if String.eqb dir "/home/u/.codex" then Ok {| isDirectory := true |}
       else no_stat dir |}.

Definition pdf : InstallInfo :=
  {| info_skill := {| skill_name := "PDF"; skill_slug := "pdf";
                      skill_repo_url := "https://example.org/pdf" |};
     install_content := "# pdf";
     one_liners := {| unix := "curl -sL x | sh"; windows := "iwr x | iex" |} |}.

(** A catalog entry whose slug climbs out of the install root by one
    segment and lands on a sibling of it. *)
Definition evil : InstallInfo :=
  {| info_skill := {| skill_name := "Evil"; skill_slug := "../skills-evil";
                      skill_repo_url := "https://example.org/evil" |};
     install_content := "payload";
     one_liners := {| unix := "true"; windows := "true" |} |}.

Definition world0 : World :=
  {| dirs := []; files := []; readonly := [];
     catalog := [("pdf", pdf); ("evil", evil)]; clock := 1000; offline := false |}.

(** The same, with the install root of [claude] not writable. *)
Definition world_ro : World :=
  {| dirs := []; files := []; readonly := ["/home/u/.claude"];
     catalog := [("pdf", pdf); ("evil", evil)]; clock := 1000; offline := false |}.

Definition start (w : World) : State World := {| st_world := w; st_log := [] |}.

End Sim.

(* ========================================================================= *)
(** ** Resources                                                              *)
(* ========================================================================= *)

(** The entries of the catalog answers that the resource texts print. *)
Record Category := { cat_name : string; cat_count : Q }.

Record SkillSummary := {
  sum_name : string;
  sum_simple_rating : option string;
  sum_category : option string;
  sum_description : option string
}.

(** How JavaScript prints a number inside a template literal. *)
Class NumberText := number_to_string : Q -> string.

(** The three catalog calls behind the resources. *)
Class ResourceClient (W : Type) := {
  rc_getCategories : W -> result (list Category) * W;
  rc_getPopular : nat -> W -> result (list SkillSummary) * W;
  rc_getRecent : nat -> W -> result (list SkillSummary) * W
}.

(** [v ? f(v) : ""] for a string that may be missing: the empty string is
    falsy. *)
Definition when_truthy (v : option string) (f : string -> string) : string :=
  match v with
  | Some s => if Str.is_empty s then "" else f s
  | None => ""
  end.

(** [v || fallback] *)
Definition or_else (v : option string) (fallback : string) : string :=
  match v with
  | Some s => if Str.is_empty s then fallback else s
  | None => fallback
  end.

Definition categories_text `{NumberText} (categories : list Category) : string :=
  let formatted :=
    Str.join Str.nl
      (map (fun c => "- **" +:+ cat_name c +:+ "**: "
                     +:+ number_to_string (cat_count c) +:+ " skills")
           categories) in
  "# SkillHub Categories" +:+ Str.nl +:+ Str.nl +:+ formatted +:+ Str.nl +:+ Str.nl
  +:+ "Use `browse_catalog({ category: " +:+ Str.dquote +:+ "CategoryName"
  +:+ Str.dquote +:+ " })` to explore.".

Definition popular_line (i : nat) (s : SkillSummary) : string :=
  let rating := when_truthy (sum_simple_rating s) (fun r => "[" +:+ r +:+ "]") in
  pretty (i + 1) +:+ ". **" +:+ sum_name s +:+ "** " +:+ rating +:+ " - "
  +:+ or_else (sum_description s) "No description".

Definition popular_text (skills : list SkillSummary) : string :=
  "# Popular Skills on SkillHub" +:+ Str.nl +:+ Str.nl
  +:+ Str.join Str.nl (imap popular_line skills) +:+ Str.nl +:+ Str.nl
  +:+ "Use `get_skill_detail` for more info.".

Definition recent_line (i : nat) (s : SkillSummary) : string :=
  let category := when_truthy (sum_category s) (fun c => "[" +:+ c +:+ "]") in
  pretty (i + 1) +:+ ". **" +:+ sum_name s +:+ "** " +:+ category +:+ " - "
  +:+ or_else (sum_description s) "No description".

Definition recent_text (skills : list SkillSummary) : string :=
  "# Recently Added Skills" +:+ Str.nl +:+ Str.nl
  +:+ Str.join Str.nl (imap recent_line skills) +:+ Str.nl +:+ Str.nl
  +:+ "Use `search_skills` to find specific skills.".

Record ResourceDecl := {
  res_uri : string;
  res_name : string;
  res_description : string;
  res_mimeType : string
}.

(** The answer of the [ListResourcesRequestSchema] handler. *)
Definition list_resources : list ResourceDecl :=
  [ {| res_uri := "skillhub://categories"; res_name := "Skill Categories";
       res_description := "List of all skill categories with counts";
       res_mimeType := "text/markdown" |};
    {| res_uri := "skillhub://popular"; res_name := "Popular Skills";
       res_description := "Top 10 most popular skills";
       res_mimeType := "text/markdown" |};
    {| res_uri := "skillhub://recent"; res_name := "Recent Skills";
       res_description := "10 most recently added skills";
       res_mimeType := "text/markdown" |} ].

Record ResourceContents := {
  contents_uri : string;
  contents_mimeType : string;
  contents_text : string
}.

Section Resources.
Context {W : Type} `{ResourceClient W} `{NumberText}.

Definition getCategories (w : W) : result string * W :=
  match rc_getCategories w with
  | (Ok categories, w') => (Ok (categories_text categories), w')
  | (Throw e, w') => (Throw e, w')
  end.

Definition getPopularSkills (w : W) : result string * W :=
  match rc_getPopular 10 w with
  | (Ok skills, w') => (Ok (popular_text skills), w')
  | (Throw e, w') => (Throw e, w')
  end.

Definition getRecentSkills (w : W) : result string * W :=
  match rc_getRecent 10 w with
  | (Ok skills, w') => (Ok (recent_text skills), w')
  | (Throw e, w') => (Throw e, w')
  end.

(** The handler registered for [ReadResourceRequestSchema]: nothing catches
    what it throws. *)
Definition read_resource (uri : string) (w : W)
    : result (list ResourceContents) * W :=
  let answer (r : result string * W) : result (list ResourceContents) * W :=
    match r with
    | (Ok content, w') =>
        (Ok [ {| contents_uri := uri; contents_mimeType := "text/markdown";
                 contents_text := content |} ], w')
    | (Throw e, w') => (Throw e, w')
    end in
  if String.eqb uri "skillhub://categories" then answer (getCategories w)
  else if String.eqb uri "skillhub://popular" then answer (getPopularSkills w)
  else if String.eqb uri "skillhub://recent" then answer (getRecentSkills w)
  else (Throw (JsError ("Unknown resource: " +:+ uri)), w).

End Resources.

(* ========================================================================= *)
(** ** The advertised tools                                                   *)
(* ========================================================================= *)

(** One property of an advertised input schema; [prop_items] is the type and
    the enumeration of the items of an array. *)
Record ToolProperty := {
  prop_name : string;
  prop_type : string;
  prop_description : string;
  prop_default : option json;
  prop_enum : option (list string);
  prop_items : option (string * option (list string))
}.

Record ToolDecl := {
  tool_name : string;
  tool_description : string;
  tool_properties : list ToolProperty;
  tool_required : option (list string)
}.

(** The answer of the [ListToolsRequestSchema] handler. *)
Definition list_tools (p : Process) : list ToolDecl :=
  [ {| tool_name := "search_skills";
       tool_description := "Search for Claude Code Skills using natural language. Returns relevant skills based on semantic matching.";
       tool_properties :=
         [ {| prop_name := "query"; prop_type := "string";
              prop_description := "Natural language search query (e.g., 'PDF processing', 'code review', 'git workflow')";
              prop_default := None; prop_enum := None; prop_items := None |};
           {| prop_name := "limit"; prop_type := "number";
              prop_description := "Number of results (1-20, default: 5)";
              prop_default := Some (JNum 5); prop_enum := None; prop_items := None |};
           {| prop_name := "category"; prop_type := "string";
              prop_description := "Filter by category (optional)";
              prop_default := None; prop_enum := None; prop_items := None |};
           {| prop_name := "min_score"; prop_type := "number";
              prop_description := "Minimum quality score 0-100 (optional)";
              prop_default := None; prop_enum := None; prop_items := None |} ];
       tool_required := Some ["query"] |};
    {| tool_name := "get_skill_detail";
       tool_description := "Get detailed information about a specific skill including evaluation, pros/cons, and optionally the full SKILL.md content.";
       tool_properties :=
         [ {| prop_name := "skill_id"; prop_type := "string";
              prop_description := "Skill ID or slug (e.g., 'pdf-processor' or UUID)";
              prop_default := None; prop_enum := None; prop_items := None |};
           {| prop_name := "include_content"; prop_type := "boolean";
              prop_description := "Include full SKILL.md content (default: false)";
              prop_default := Some (JBool false); prop_enum := None;
              prop_items := None |} ];
       tool_required := Some ["skill_id"] |};
    {| tool_name := "install_skill";
       tool_description :=
         "Install a skill to the local filesystem. First call shows a preview, then call with confirm=true to install. Auto-detects current CLI environment (detected: "
         +:+ DETECTED_AGENT p +:+ ").";
       tool_properties :=
         [ {| prop_name := "skill_id"; prop_type := "string";
              prop_description := "Skill ID or slug to install";
              prop_default := None; prop_enum := None; prop_items := None |};
           {| prop_name := "agents"; prop_type := "array";
              prop_description :=
                "Target agents. Auto-detected: " +:+ DETECTED_AGENT p
                +:+ ". Override to install for multiple agents.";
              prop_default := None; prop_enum := None;
              prop_items :=
                Some ("string", Some ["claude"; "codex"; "gemini"; "opencode"]) |};
           {| prop_name := "confirm"; prop_type := "boolean";
              prop_description := "Set to true to confirm and execute installation. First call without confirm to preview.";
              prop_default := Some (JBool false); prop_enum := None;
              prop_items := None |} ];
       tool_required := Some ["skill_id"] |};
    {| tool_name := "browse_catalog";
       tool_description := "Browse the skill catalog with filtering and sorting options. Good for discovering skills by category or popularity.";
       tool_properties :=
         [ {| prop_name := "category"; prop_type := "string";
              prop_description := "Filter by category (optional)";
              prop_default := None; prop_enum := None; prop_items := None |};
           {| prop_name := "sort"; prop_type := "string";
              prop_description := "Sort order (default: composite)";
              prop_default := Some (JStr "composite");
              prop_enum := Some ["score"; "stars"; "recent"; "composite"];
              prop_items := None |};
           {| prop_name := "limit"; prop_type := "number";
              prop_description := "Number of results (1-50, default: 10)";
              prop_default := Some (JNum 10); prop_enum := None; prop_items := None |};
           {| prop_name := "offset"; prop_type := "number";
              prop_description := "Pagination offset (default: 0)";
              prop_default := Some (JNum 0); prop_enum := None; prop_items := None |};
           {| prop_name := "min_score"; prop_type := "number";
              prop_description := "Minimum quality score 0-100 (optional)";
              prop_default := None; prop_enum := None; prop_items := None |} ];
       tool_required := None |};
    {| tool_name := "recommend_skills";
       tool_description := "Get skill recommendations based on what you're working on. Uses semantic matching to find relevant skills.";
       tool_properties :=
         [ {| prop_name := "context"; prop_type := "string";
              prop_description := "Description of your current task or project";
              prop_default := None; prop_enum := None; prop_items := None |};
           {| prop_name := "current_skills"; prop_type := "array";
              prop_description := "Already installed skill IDs/slugs to exclude";
              prop_default := Some (JArr []); prop_enum := None;
              prop_items := Some ("string", None) |};
           {| prop_name := "limit"; prop_type := "number";
              prop_description := "Number of recommendations (1-10, default: 5)";
              prop_default := Some (JNum 5); prop_enum := None; prop_items := None |} ];
       tool_required := Some ["context"] |} ].

(* ========================================================================= *)
(** ** The selection step of [recommendSkills]                                *)
(* ========================================================================= *)

Record Recommendation := { rec_id : string; rec_slug : string }.

(** The [limit] sent to [client.publicRecommend]. *)
Definition recommend_request_limit (a : RecommendArgs) : Q :=
  (recommend_limit a
   + inject_Z (Z.of_nat (length (recommend_current_skills a))))%Q.

(** [ToIntegerOrInfinity] of a finite number: the fraction is dropped. *)
Definition to_integer (q : Q) : Z := Z.quot (Qnum q) (Zpos (Qden q)).

(** [l.slice(0, end)]: a negative [end] counts from the end of the array. *)
Definition slice0 {A} (end_ : Q) (l : list A) : list A :=
  let e := to_integer end_ in
  if (e <? 0)%Z then take (Z.to_nat (Z.of_nat (length l) + e)) l
  else take (Z.to_nat e) l.

(** [recommendations.filter(...).slice(0, args.limit)] *)
Definition recommend_filter (a : RecommendArgs)
    (recommendations : list Recommendation) : list Recommendation :=
  slice0 (recommend_limit a)
    (filter (fun r => (rec_id r ∉ recommend_current_skills a)
                      /\ (rec_slug r ∉ recommend_current_skills a))
            recommendations).

(* ========================================================================= *)
(** ** More concrete inputs                                                   *)
(* ========================================================================= *)

Module Sim2.

(** The in-memory runtime with a catalog that cannot be reached. *)
Definition unreachable {A} (w : Sim.World) : result A * Sim.World :=
  (Throw (JsError "catalog unreachable"), w).

Definition catalog_down : Runtime Sim.World := {|
  rt_getInstallInfo := fun _ _ => unreachable;
  rt_search := fun _ => unreachable;
  rt_getSkill := fun _ => unreachable;
  rt_getCatalog := fun _ => unreachable;
  rt_publicRecommend := fun _ => unreachable;
  rt_mkdir := Sim.mkdir;
  rt_writeFile := Sim.writeFile;
  rt_fetch := Sim.fetch;
  rt_now := Sim.now
|}.

Definition two_skills : list SkillSummary :=
  [ {| sum_name := "PDF"; sum_simple_rating := Some "A";
       sum_category := Some "docs"; sum_description := Some "Reads PDF files" |};
    {| sum_name := "Git"; sum_simple_rating := None;
       sum_category := Some ""; sum_description := None |} ].

#[global] Instance resources : ResourceClient Sim.World := {|
  rc_getCategories := fun w =>
    (Ok [ {| cat_name := "docs"; cat_count := 2 |} ], w);
  rc_getPopular := fun _ w => (Ok two_skills, w);
  rc_getRecent := fun _ w =>
    if Sim.offline w then (Throw (JsError "fetch failed"), w)
    else (Ok two_skills, w)
|}.

(** Whole numbers in decimal, other numbers as a fraction. *)
Definition number_text : NumberText := fun q =>
  if Pos.eqb (Qden q) 1 then pretty (Qnum q)
  else pretty (Qnum q) +:+ "/" +:+ pretty (Zpos (Qden q)).

Definition no_tool : ToolDecl :=
  {| tool_name := ""; tool_description := ""; tool_properties := [];
     tool_required := None |}.

Definition no_property : ToolProperty :=
  {| prop_name := ""; prop_type := ""; prop_description := "";
     prop_default := None; prop_enum := None; prop_items := None |}.

Definition no_resource : ResourceDecl :=
  {| res_uri := ""; res_name := ""; res_description := ""; res_mimeType := "" |}.

(** The first advertised tool and its second property. *)
Definition search_tool : ToolDecl := nth 0 (list_tools Sim.bare) no_tool.
Definition limit_property : ToolProperty :=
  nth 1 (tool_properties search_tool) no_property.
Definition popular_resource : ResourceDecl := nth 1 list_resources no_resource.

(** A process whose only signals are the variables of codex and gemini. *)
Definition codex_and_gemini : Process :=
  {| proc_env := <["OPENAI_API_KEY" := "sk-test"]>
                 (<["GEMINI_API_KEY" := "g-test"]> ∅);
     proc_homedir := "/home/u"; proc_cwd := "/work";
     proc_statSync := fun _ => Ok {| isDirectory := true |} |}.

End Sim2.

(* ========================================================================= *)
(** ** Vocabulary of the properties                                           *)
(* ========================================================================= *)

(** The environment variables [detectCurrentAgent] looks at. *)
Definition detection_signals : list string :=
  [ "SKILLHUB_DEFAULT_AGENT"; "CLAUDE_CODE"; "ANTHROPIC_API_KEY"; "CODEX_HOME";
    "OPENAI_API_KEY"; "GEMINI_API_KEY" ].

Definition no_env_signals (p : Process) : Prop :=
  Forall (fun name => env_truthy p name = false) detection_signals.

(** The filesystem holds a directory at [dir]. *)
Definition is_directory (p : Process) (dir : string) : Prop :=
  exists st, proc_statSync p dir = Ok st /\ isDirectory st = true.

(** The filesystem holds no directory at [dir]: the stat throws, or the entry
    is not a directory. *)
Definition absent_or_failing (p : Process) (dir : string) : Prop :=
  (exists e, proc_statSync p dir = Throw e)
  \/ (exists st, proc_statSync p dir = Ok st /\ isDirectory st = false).

Definition is_fs_event (e : Event) : bool :=
  match e with
  | EvMkdir _ | EvWriteFile _ _ => true
  | _ => false
  end.

(** The tracking events of a log, in order. *)
Definition tracks (log : list Event) : list TrackEvent :=
  omap (fun e => match e with EvTrack t => Some t | _ => None end) log.

(** [push] files an outcome in the array it belongs to. *)
Definition push (acc : list Outcome * list Outcome) (o : Outcome)
    : list Outcome * list Outcome :=
  if is_success o then (acc.1 ++ [o], acc.2) else (acc.1, acc.2 ++ [o]).

Definition successes (os : list Outcome) : list Outcome :=
  filter (fun o => is_success o = true) os.

Definition failures (os : list Outcome) : list Outcome :=
  filter (fun o => ~ is_success o = true) os.

(** The error with which the schema of tool [name] refuses [args], if it
    does. *)
Definition schema_error `{ZodRender} (name : string) (args : option json)
    : option exn :=
  let refusal {A} (r : result A) : option exn :=
    match r with Throw e => Some e | Ok _ => None end in
  if String.eqb name "search_skills" then refusal (SearchSkillsSchema args)
  else if String.eqb name "get_skill_detail" then refusal (GetSkillDetailSchema args)
  else if String.eqb name "install_skill" then refusal (InstallSkillSchema args)
  else if String.eqb name "browse_catalog" then refusal (BrowseCatalogSchema args)
  else if String.eqb name "recommend_skills" then refusal (RecommendSkillsSchema args)
  else None.

(** The same runtime with another [fetch]. *)
Definition with_fetch {W} (R : Runtime W)
    (f : TrackEvent -> W -> FetchOutcome * W) : Runtime W :=
  {| rt_getInstallInfo := @rt_getInstallInfo W R;
     rt_search := @rt_search W R;
     rt_getSkill := @rt_getSkill W R;
     rt_getCatalog := @rt_getCatalog W R;
     rt_publicRecommend := @rt_publicRecommend W R;
     rt_mkdir := @rt_mkdir W R;
     rt_writeFile := @rt_writeFile W R;
     rt_fetch := f;
     rt_now := @rt_now W R |}.

Section TrackFacts.
Context {W : Type} `{Runtime W}.

(** What a tracking event of this request says. *)
Definition track_facts (name : string) (startTime : Z) (success : bool)
    (error : option string) (t : TrackEvent) : Prop :=
  event_tool t = name
  /\ event_type t = "mcp." +:+ name
  /\ event_success t = success
  /\ event_error t = error
  /\ exists w, event_duration_ms t = ((rt_now w).1 - startTime)%Z.

End TrackFacts.

(** A process with one environment variable set, or removed. *)
Definition set_env (k v : string) (p : Process) : Process :=
  {| proc_env := <[k := v]> (proc_env p); proc_homedir := proc_homedir p;
     proc_cwd := proc_cwd p; proc_statSync := proc_statSync p |}.

Definition unset_env (k : string) (p : Process) : Process :=
  {| proc_env := delete k (proc_env p); proc_homedir := proc_homedir p;
     proc_cwd := proc_cwd p; proc_statSync := proc_statSync p |}.

(** The override variable names one of the four agent kinds. *)
Definition valid_override (p : Process) : Prop :=
  exists a, proc_env p !! "SKILLHUB_DEFAULT_AGENT" = Some a /\ a ∈ AgentKinds.

Definition claude_signal (p : Process) : bool :=
  env_truthy p "CLAUDE_CODE" || env_truthy p "ANTHROPIC_API_KEY".

Definition codex_signal (p : Process) : bool :=
  env_truthy p "CODEX_HOME" || env_truthy p "OPENAI_API_KEY".

Definition gemini_signal (p : Process) : bool :=
  env_truthy p "GEMINI_API_KEY".

(** What one iteration of the install loop does for [agent]: the outcome it
    records and the filesystem calls it makes. *)
Definition step_trace (proc : Process) (data : InstallInfo) (agent : string)
    (o : Outcome) (delta : list Event) : Prop :=
  match install_dir proc agent with
  | Own baseDir =>
      let skillDir := Path.join [baseDir; skill_slug (info_skill data)] in
      let skillFile := Path.join [skillDir; "SKILL.md"] in
      let mkdir := EvMkdir skillDir in
      let write := EvWriteFile skillFile (install_content data) in
      if security_check (proc_cwd proc) baseDir skillDir then
        (o = Installed agent skillFile /\ delta = [mkdir; write])
        \/ (exists msg, o = FsError agent msg
                        /\ (delta = [mkdir] \/ delta = [mkdir; write]))
      else o = SecurityError agent /\ delta = []
  | _ => o = UnknownAgent agent /\ delta = []
  end.

Section ReadOnlyTools.
Context {W : Type} `{Runtime W} `{ZodRender}.

(** For a read-only tool and arguments its schema accepts: the catalog call
    the handler makes, the runtime operation behind it and the metadata sent
    to tracking. *)
Definition readonly_call (name : string) (args : option json)
    : option (ClientCall * (W -> result string * W)
              * list (string * option string)) :=
  if String.eqb name "search_skills" then
    match SearchSkillsSchema args with
    | Ok a => Some (Search a, rt_search a, [("query", Some (search_query a))])
    | Throw _ => None
    end
  else if String.eqb name "get_skill_detail" then
    match GetSkillDetailSchema args with
    | Ok a => Some (GetSkill a, rt_getSkill a,
                    [("skill_id", Some (detail_skill_id a))])
    | Throw _ => None
    end
  else if String.eqb name "install_skill" then None
  else if String.eqb name "browse_catalog" then
    match BrowseCatalogSchema args with
    | Ok a => Some (GetCatalog a, rt_getCatalog a,
                    [("category", browse_category a);
                     ("sort", Some (browse_sort a))])
    | Throw _ => None
    end
  else if String.eqb name "recommend_skills" then
    match RecommendSkillsSchema args with
    | Ok a => Some (PublicRecommend a, rt_publicRecommend a,
                    [("context", Some (Str.substring0 100 (recommend_context a)))])
    | Throw _ => None
    end
  else None.

End ReadOnlyTools.

(** What a request may do before its tracking call: nothing, or one catalog
    call followed by filesystem calls, which only a confirmed [install_skill]
    makes. *)
Definition request_shape `{ZodRender} (name : string) (args : option json)
    (pre : list Event) : Prop :=
  pre = []
  \/ exists c fs,
       pre = EvClient c :: fs
       /\ Forall (fun e => is_fs_event e = true) fs
       /\ (fs = []
           \/ (name = "install_skill"
               /\ exists a, InstallSkillSchema args = Ok a /\ confirm a = true)).

(** The parsed arguments of any of the five tools. *)
Inductive ParsedArgs : Type :=
| PSearch (a : SearchArgs)
| PDetail (a : DetailArgs)
| PInstall (a : InstallArgs)
| PBrowse (a : BrowseArgs)
| PRecommend (a : RecommendArgs).

Definition result_map {A B} (f : A -> B) (r : result A) : result B :=
  match r with Ok a => Ok (f a) | Throw e => Throw e end.

(** The schema the [switch] of the handler applies for [name], if any. *)
Definition parse_tool `{ZodRender} (name : string) (args : option json)
    : option (result ParsedArgs) :=
  if String.eqb name "search_skills"
  then Some (result_map PSearch (SearchSkillsSchema args))
  else if String.eqb name "get_skill_detail"
  then Some (result_map PDetail (GetSkillDetailSchema args))
  else if String.eqb name "install_skill"
  then Some (result_map PInstall (InstallSkillSchema args))
  else if String.eqb name "browse_catalog"
  then Some (result_map PBrowse (BrowseCatalogSchema args))
  else if String.eqb name "recommend_skills"
  then Some (result_map PRecommend (RecommendSkillsSchema args))
  else None.

Definition is_object (raw : option json) : bool :=
  match raw with Some (JObj _) => true | _ => false end.

Definition required_of (t : ToolDecl) : list string :=
  default [] (tool_required t).

(** A string without a slash. *)
Fixpoint no_slash (s : string) : bool :=
  match s with
  | EmptyString => true
  | String a s' => negb (Ascii.eqb a Str.slash) && no_slash s'
  end.

(** A path segment that names an entry: not empty, without a slash, and
    neither [.] nor [..]. *)
Definition plain_segment (s : string) : bool :=
  no_slash s && negb (Str.is_empty s) && negb (String.eqb s ".")
  && negb (String.eqb s "..").

(** The effect of the segments of path [p] on a stack of kept segments (last
    one first), as [normalizeString] computes it. *)
Definition act (allowAboveRoot : bool) (p : string) (acc : list string)
    : list string :=
  fold_left (Path.push_segment allowAboveRoot) (Str.split_slash p) acc.

(** A segment that [normalizeString] keeps rather than skips. *)
Definition kept_segment (seg : string) : bool :=
  negb (Str.is_empty seg || String.eqb seg ".").

(** A kept segment other than [..]. *)
Definition named_segment (seg : string) : bool :=
  kept_segment seg && negb (Path.is_dotdot seg).

(** What [path.resolve(p)] keeps: whether the result is absolute, and the
    stack of its segments. *)
Definition resolved_stack (cwd p : string) : bool * list string :=
  if Str.first_is_slash p then (true, act false p [])
  else if Str.is_empty cwd then (false, act true p [])
  else let c := Str.first_is_slash cwd in
       (c, act (negb c) p (act (negb c) cwd [])).

Definition render_resolved (st : bool * list string) : string :=
  let r := Str.join "/" (rev st.2) in
  if st.1 then "/" +:+ r else if Str.is_empty r then "." else r.

(** [pat] occurs somewhere in [s]. *)
Fixpoint occurs (pat s : string) : bool :=
  Str.startsWith s pat
  || match s with
     | EmptyString => false
     | String _ s' => occurs pat s'
     end.

(** *** Runs of the Execute loop *)

Section ExecuteRuns.
Context {W : Type} `{Runtime W} (proc : Process) (data : InstallInfo).

(** The directory and the file of the skill below an install root. *)
Definition skill_dir_in (baseDir : string) : string :=
  Path.join [baseDir; skill_slug (info_skill data)].

Definition skill_file_in (baseDir : string) : string :=
  Path.join [skill_dir_in baseDir; "SKILL.md"].

(** [agent_run agent w o delta w']: in world [w] the turn of [agent] ends
    with outcome [o], after the outside calls [delta], in world [w'].  The
    five cases follow what the install root, the prefix test, [mkdir] and
    [writeFile] answer. *)
Inductive agent_run (agent : string) (w : W)
    : Outcome -> list Event -> W -> Prop :=
| run_unknown :
    install_dir proc agent = Undefined ->
    agent_run agent w (UnknownAgent agent) [] w
| run_escape baseDir :
    install_dir proc agent = Own baseDir ->
    security_check (proc_cwd proc) baseDir (skill_dir_in baseDir) = false ->
    agent_run agent w (SecurityError agent) [] w
| run_mkdir_fails baseDir e w1 :
    install_dir proc agent = Own baseDir ->
    security_check (proc_cwd proc) baseDir (skill_dir_in baseDir) = true ->
    rt_mkdir (skill_dir_in baseDir) w = (Throw e, w1) ->
    agent_run agent w (FsError agent (exn_message e))
      [EvMkdir (skill_dir_in baseDir)] w1
| run_write_fails baseDir e w1 w2 :
    install_dir proc agent = Own baseDir ->
    security_check (proc_cwd proc) baseDir (skill_dir_in baseDir) = true ->
    rt_mkdir (skill_dir_in baseDir) w = (Ok (), w1) ->
    rt_writeFile (skill_file_in baseDir) (install_content data) w1
    = (Throw e, w2) ->
    agent_run agent w (FsError agent (exn_message e))
      [EvMkdir (skill_dir_in baseDir);
       EvWriteFile (skill_file_in baseDir) (install_content data)] w2
| run_installed baseDir w1 w2 :
    install_dir proc agent = Own baseDir ->
    security_check (proc_cwd proc) baseDir (skill_dir_in baseDir) = true ->
    rt_mkdir (skill_dir_in baseDir) w = (Ok (), w1) ->
    rt_writeFile (skill_file_in baseDir) (install_content data) w1
    = (Ok (), w2) ->
    agent_run agent w (Installed agent (skill_file_in baseDir))
      [EvMkdir (skill_dir_in baseDir);
       EvWriteFile (skill_file_in baseDir) (install_content data)] w2.

(** [loop_run agents w os delta w']: the agents take their turns one after
    the other, each in the world the turn before it left, whatever the
    outcome of that turn was; [os] holds the outcomes and [delta] the outside
    calls, both in the order of the turns. *)
Inductive loop_run : list string -> W -> list Outcome -> list Event -> W -> Prop :=
| loop_done w : loop_run [] w [] [] w
| loop_turn agent rest w o d w1 os ds w2 :
    agent_run agent w o d w1 ->
    loop_run rest w1 os ds w2 ->
    loop_run (agent :: rest) w (o :: os) (d ++ ds) w2.

End ExecuteRuns.

(** The lines occur in the text one after the other, in this order. *)
Fixpoint lines_in_order (lines : list string) (text : string) : Prop :=
  match lines with
  | [] => True
  | line :: rest =>
      exists pre post, text = pre +:+ line +:+ post /\ lines_in_order rest post
  end.

(** The lines of a section of the report: its heading and one line per
    outcome; none at all when there is no outcome. *)
Definition section_lines (heading : string) (os : list Outcome) : list string :=
  match os with
  | [] => []
  | _ => heading :: (render_outcome <$> os)
  end.

(** *** The work of a request *)

(** A tracking function that does nothing. *)
Definition no_track {W} (success : bool) (error : option string)
    (metadata : list (string * option string)) : M W unit :=
  ret ().

Section ToolWork.
Context {W : Type} `{Runtime W} `{ZodRender} (proc : Process).

(** What a request does apart from tracking: the [switch] of the handler run
    with the tracking function that does nothing, from the state in which
    the handler has read its start time. *)
Definition tool_work (name : string) (args : option json) (s : State W)
    : result string * State W :=
  run_tool proc name args no_track
    {| st_world := (rt_now (st_world s)).2; st_log := st_log s |}.

(** The result the handler makes of the end of the work. *)
Definition result_of_work (r : result string) : CallToolResult :=
  match r with
  | Ok text => {| content_text := text; isError := false |}
  | Throw e => {| content_text := "Error: " +:+ exn_message e; isError := true |}
  end.

End ToolWork.

(* ========================================================================= *)
(** * Properties                                                              *)
(* ========================================================================= *)

(** ** Strings and paths *)

Module StrFacts.
Import Str.

Lemma app_cons (x : ascii) (a b : string) :
  String x a +:+ b = String x (a +:+ b).
Proof. reflexivity. Qed.

Lemma app_assoc (a b c : string) : (a +:+ b) +:+ c = a +:+ (b +:+ c).
Proof.
  induction a as [|x a IH]; [reflexivity |].
  rewrite !app_cons. by f_equal.
Qed.

Lemma app_nil_r (a : string) : a +:+ "" = a.
Proof.
  induction a as [|x a IH]; [reflexivity |].
  rewrite app_cons. by f_equal.
Qed.

Lemma startsWith_app (p s : string) : startsWith (p +:+ s) p = true.
Proof.
  induction p as [|a p IH]; [reflexivity |].
  rewrite app_cons. simpl. by rewrite Ascii.eqb_refl.
Qed.

Lemma startsWith_spec (s p : string) :
  startsWith s p = true <-> exists t, s = p +:+ t.
Proof.
  split.
  - revert s. induction p as [|b p IH]; intros s H.
    + by exists s.
    + destruct s as [|a s]; simpl in H; [discriminate |].
      destruct (Ascii.eqb a b) eqn:E; [| discriminate].
      apply Ascii.eqb_eq in E as ->.
      destruct (IH _ H) as [t ->]. exists t. by rewrite app_cons.
  - intros [t ->]. apply startsWith_app.
Qed.

Lemma contains_app_l (a s t : string) : contains s t -> contains (a +:+ s) t.
Proof.
  intros (pre & post & ->). exists (a +:+ pre), post.
  by rewrite app_assoc.
Qed.


End StrFacts.

Example join_plain :
  Path.join ["/home/u"; ".claude"; "skills"] = "/home/u/.claude/skills".
Proof. reflexivity. Qed.

Example join_dotdot :
  Path.join ["/home/u/.claude/skills"; "../../x"] = "/home/u/x".
Proof. reflexivity. Qed.

Example join_absolute_like :
  Path.join ["/home/u/.claude/skills"; "/etc/passwd"]
  = "/home/u/.claude/skills/etc/passwd".
Proof. reflexivity. Qed.

Example join_above_root : Path.join ["/a"; "../../.."] = "/".
Proof. reflexivity. Qed.

Example join_relative_above : Path.join ["a"; "../../b/"] = "../b/".
Proof. reflexivity. Qed.

Example resolve_relative : Path.resolve "/work" "a/../b/" = "/work/b".
Proof. reflexivity. Qed.

Example resolve_absolute : Path.resolve "/work" "/x/./y//z/.." = "/x/y".
Proof. reflexivity. Qed.

Example security_check_inside :
  security_check "/" "/home/u/.claude/skills" "/home/u/.claude/skills/pdf" = true.
Proof. reflexivity. Qed.

Example security_check_parent :
  security_check "/" "/home/u/.claude/skills" "/home/u/x" = false.
Proof. reflexivity. Qed.


(** ** Agent detection *)

Lemma is_agent_kind_spec (a : string) :
  is_agent_kind a = true <-> a ∈ AgentKinds.
Proof. unfold is_agent_kind. apply bool_decide_eq_true. Qed.

Lemma config_dir_checks_agents (p : Process) :
  (config_dir_checks p).*1 = AgentKinds.
Proof. reflexivity. Qed.

Lemma first_config_dir_elem stat (checks : list (string * string)) (a : string) :
  first_config_dir stat checks = Some a -> a ∈ checks.*1.
Proof.
  induction checks as [|[agent dir] rest IH]; simpl; [discriminate |].
  destruct (stat dir) as [st|e].
  - destruct (isDirectory st).
    + intros [= <-]. apply list_elem_of_here.
    + intros Hr. apply list_elem_of_further, IH, Hr.
  - intros Hr. apply list_elem_of_further, IH, Hr.
Qed.

(** The loop finds nothing when every stat throws or reports no
    directory. *)
Lemma first_config_dir_none stat (checks : list (string * string)) :
  (forall agent dir, (agent, dir) ∈ checks ->
     (exists e, stat dir = Throw e)
     \/ (exists st, stat dir = Ok st /\ isDirectory st = false)) ->
  first_config_dir stat checks = None.
Proof.
  induction checks as [|[agent dir] rest IH]; intros Hall; [reflexivity |].
  simpl.
  assert (Hrest : first_config_dir stat rest = None).
  { apply IH. intros a d Hin. apply (Hall a d), list_elem_of_further, Hin. }
  destruct (Hall agent dir (list_elem_of_here _ _)) as [[e ->] | (st & -> & ->)];
    exact Hrest.
Qed.

(** The stat expression of the module throws for every directory, so the
    loop over the configuration directories never finds one. *)
Lemma config_dirs_unseen (p : Process) (checks : list (string * string)) :
  first_config_dir (require_fs_statSync p) checks = None.
Proof.
  apply first_config_dir_none. intros agent dir _. left. by eexists.
Qed.

(** Asked of the filesystem itself, the loop returns the agent of the first
    candidate that is a directory. *)
Lemma first_config_dir_first (p : Process) (checks : list (string * string))
    (i : nat) (agent dir : string) :
  checks !! i = Some (agent, dir) ->
  is_directory p dir ->
  (forall j a d, j < i -> checks !! j = Some (a, d) -> absent_or_failing p d) ->
  first_config_dir (proc_statSync p) checks = Some agent.
Proof.
  revert i. induction checks as [|[a0 d0] rest IH]; intros i Hi Hdir Hbefore.
  - destruct i; discriminate.
  - destruct i as [|i]; simpl in *.
    + injection Hi as -> ->. destruct Hdir as (st & -> & ->). reflexivity.
    + assert (H0 : absent_or_failing p d0).
      { apply (Hbefore 0 a0 d0); [lia | reflexivity]. }
      assert (Hrest : first_config_dir (proc_statSync p) rest = Some agent).
      { apply (IH i Hi Hdir). intros j a d Hj Hl.
        apply (Hbefore (S j) a d); [lia | exact Hl]. }
      destruct H0 as [[e ->] | (st & -> & ->)]; exact Hrest.
Qed.

Lemma no_env_signals_fallthrough (p : Process) :
  no_env_signals p ->
  detectCurrentAgent p
  = match first_config_dir (require_fs_statSync p) (config_dir_checks p) with
    | Some agent => agent
    | None => "claude"
    end.
Proof.
  unfold no_env_signals, detection_signals. rewrite !Forall_cons.
  intros (H0 & H1 & H2 & H3 & H4 & H5 & _).
  unfold detectCurrentAgent, detect_without_override.
  rewrite H1, H2, H3, H4, H5. simpl.
  unfold env_truthy in H0.
  destruct (proc_env p !! "SKILLHUB_DEFAULT_AGENT") as [v|]; [| reflexivity].
  apply negb_false_iff in H0. rewrite H0. reflexivity.
Qed.

Lemma detect_without_override_kind (p : Process) :
  detect_without_override p ∈ AgentKinds.
Proof.
  unfold detect_without_override.
  do 3 (case_match; [compute_done |]).
  destruct (first_config_dir _ _) as [agent|] eqn:E; [| compute_done].
  rewrite <- (config_dir_checks_agents p).
  eapply first_config_dir_elem, E.
Qed.

(** The detector only ever answers with one of the four agents. *)
Lemma detectCurrentAgent_kind (p : Process) : detectCurrentAgent p ∈ AgentKinds.
Proof.
  unfold detectCurrentAgent.
  destruct (proc_env p !! "SKILLHUB_DEFAULT_AGENT") as [v|];
    [| apply detect_without_override_kind].
  destruct (negb (Str.is_empty v) && is_agent_kind v) eqn:E;
    [| apply detect_without_override_kind].
  apply andb_true_iff in E as [_ E]. by apply is_agent_kind_spec.
Qed.

(** Every stat expression throws a [ReferenceError], each is swallowed, and
    the directory step never detects anything: without an environment signal
    the answer is the default. *)
Lemma detect_without_signals (p : Process) :
  no_env_signals p -> detectCurrentAgent p = "claude".
Proof.
  intros Henv. rewrite (no_env_signals_fallthrough p Henv).
  by rewrite config_dirs_unseen.
Qed.

(** C7: an override naming one of the four agent kinds is returned verbatim,
    whatever the other environment variables and the filesystem say; with no
    environment signal and no agent configuration directory the detector
    answers [claude]. *)
Theorem detectAgent_override_and_default (p : Process) :
  (forall a, proc_env p !! "SKILLHUB_DEFAULT_AGENT" = Some a ->
             a ∈ AgentKinds -> detectCurrentAgent p = a)
  /\ (no_env_signals p ->
      (forall agent dir, (agent, dir) ∈ config_dir_checks p ->
                         absent_or_failing p dir) ->
      detectCurrentAgent p = "claude").
Proof.
  split.
  - intros a Henv Hkind. unfold detectCurrentAgent. rewrite Henv.
    apply is_agent_kind_spec in Hkind as Hk. rewrite Hk.
    destruct a as [|c a]; [| reflexivity].
    exfalso. revert Hkind. compute_done.
  - intros Henv Habsent. by apply detect_without_signals.
Qed.

(** C8: the check of the configuration directories never fires.  The stat
    expression throws for every directory, so a process without environment
    signals is always answered with the default [claude]: for user [u],
    whose [~/.claude] is a plain file and whose [~/.codex] is a directory,
    the loop asked of the filesystem itself would return [codex], the first
    candidate that is a directory, but the detector returns [claude]. *)
Theorem config_directory_never_detected :
  (forall p dir, exists e, require_fs_statSync p dir = Throw e)
  /\ (forall p, no_env_signals p -> detectCurrentAgent p = "claude")
  /\ no_env_signals Sim.codex_home
  /\ config_dir_checks Sim.codex_home !! 0 = Some ("claude", "/home/u/.claude")
  /\ absent_or_failing Sim.codex_home "/home/u/.claude"
  /\ config_dir_checks Sim.codex_home !! 1 = Some ("codex", "/home/u/.codex")
  /\ is_directory Sim.codex_home "/home/u/.codex"
  /\ first_config_dir (proc_statSync Sim.codex_home)
       (config_dir_checks Sim.codex_home) = Some "codex"
  /\ detectCurrentAgent Sim.codex_home = "claude".
Proof.
  split; [by eexists |].
  split; [exact detect_without_signals |].
  split.
  { unfold no_env_signals, detection_signals.
    repeat (constructor; [vm_compute; reflexivity |]). constructor. }
  split; [reflexivity |].
  split; [right; exists {| isDirectory := false |}; by split |].
  split; [reflexivity |].
  split; [exists {| isDirectory := true |}; by split |].
  split; vm_compute; reflexivity.
Qed.

(** ** Paths and install roots *)

Lemma normalize_nonempty (p : string) : Str.is_empty (Path.normalize p) = false.
Proof.
  unfold Path.normalize.
  destruct (Str.is_empty p); [reflexivity |].
  destruct (Path.normalizeString p _) as [|c q] eqn:E; simpl.
  - destruct (Str.first_is_slash p); [reflexivity |].
    destruct (Str.last_is_slash p); reflexivity.
  - destruct (Str.first_is_slash p); [reflexivity |].
    destruct (Str.last_is_slash p); reflexivity.
Qed.

(** [path.join] never returns the empty string, so an install root read from
    [ALLOWED_INSTALL_DIRS] is always truthy. *)
Lemma join_nonempty (args : list string) : Str.is_empty (Path.join args) = false.
Proof.
  unfold Path.join.
  destruct (filter _ args); [reflexivity | apply normalize_nonempty].
Qed.

Lemma install_dir_of_kind (p : Process) (agent : string) :
  agent ∈ AgentKinds ->
  install_dir p agent
  = Own (Path.join [proc_homedir p; "." +:+ agent; "skills"]).
Proof.
  unfold AgentKinds. rewrite !elem_of_cons, elem_of_nil.
  unfold install_dir, ALLOWED_INSTALL_DIRS.
  intros [-> | [-> | [-> | [-> | []]]]]; by simplify_map_eq.
Qed.

Lemma install_dir_inherited (p : Process) (agent : string) :
  install_dir p agent = Inherited -> agent ∈ Object_prototype_keys.
Proof.
  unfold install_dir. destruct (ALLOWED_INSTALL_DIRS p !! agent); [discriminate |].
  case_bool_decide; [done | discriminate].
Qed.

Lemma install_dir_own_nonempty (p : Process) (agent dir : string) :
  install_dir p agent = Own dir -> Str.is_empty dir = false.
Proof.
  unfold install_dir, ALLOWED_INSTALL_DIRS.
  destruct (_ !! agent) as [d|] eqn:E; [| case_bool_decide; discriminate].
  intros [= <-].
  repeat (apply lookup_insert_Some in E as [[_ <-] | [_ E]];
          [apply join_nonempty |]).
  by rewrite lookup_empty in E.
Qed.

Lemma kind_not_inherited (agent : string) :
  agent ∈ AgentKinds -> agent ∉ Object_prototype_keys.
Proof.
  unfold AgentKinds. rewrite !elem_of_cons, elem_of_nil.
  intros [-> | [-> | [-> | [-> | []]]]]; compute_done.
Qed.

(** ** The install loop *)

Section InstallLoop.
Context {W : Type} `{Runtime W} (proc : Process) (data : InstallInfo).

(** What one iteration does: it never throws for an agent name that is not
    an inherited property; it yields exactly one outcome, for that agent;
    it touches the outside only through [mkdir] and [writeFile]; and an
    unknown-agent or path failure touches nothing at all. *)
Lemma install_agent_spec (acc : list Outcome * list Outcome)
    (agent : string) (s : State W) :
  agent ∉ Object_prototype_keys ->
  exists o s' delta,
    install_agent proc data acc agent s = (Ok (push acc o), s')
    /\ outcome_agent o = agent
    /\ st_log s' = st_log s ++ delta
    /\ Forall (fun e => is_fs_event e = true) delta
    /\ (forall a, o = UnknownAgent a -> install_dir proc agent = Undefined)
    /\ (forall a, o = UnknownAgent a \/ o = SecurityError a -> s' = s)
    /\ (forall a f, o = Installed a f ->
          exists d, install_dir proc agent = Own d
                    /\ f = Path.join [Path.join [d; skill_slug (info_skill data)];
                                      "SKILL.md"]).
Proof.
  intros Hkey. unfold install_agent. destruct acc as [installed errors].
  destruct (install_dir proc agent) as [baseDir| |] eqn:Edir.
  - rewrite (install_dir_own_nonempty _ _ _ Edir).
    destruct (security_check _ _ _) eqn:Esec; simpl.
    + unfold try_catch, bind, fs_mkdir, fs_writeFile, call, ret. simpl.
      destruct (rt_mkdir _ (st_world s)) as [[[]|e] w1] eqn:Emk; simpl.
      * destruct (rt_writeFile _ _ w1) as [[[]|e] w2] eqn:Ewr; simpl.
        -- eexists (Installed agent _), _, _.
           split; [reflexivity |]. split; [reflexivity |]. simpl.
           split; [by rewrite <- app_assoc |].
           split; [by repeat constructor |].
           split; [discriminate |].
           split; [by intros a [|] |].
           intros a f [= _ <-]. by exists baseDir.
        -- eexists (FsError agent (exn_message e)), _, _.
           split; [reflexivity |]. split; [reflexivity |]. simpl.
           split; [by rewrite <- app_assoc |].
           split; [by repeat constructor |].
           split; [discriminate |].
           split; [by intros a [|] | discriminate].
      * eexists (FsError agent (exn_message e)), _, _.
        split; [reflexivity |]. split; [reflexivity |]. simpl.
        split; [reflexivity |].
        split; [by repeat constructor |].
        split; [discriminate |].
        split; [by intros a [|] | discriminate].
    + exists (SecurityError agent), s, [].
      split; [reflexivity |]. split; [reflexivity |].
      split; [by rewrite app_nil_r |].
      split; [constructor |].
      split; [discriminate |].
      split; [done | discriminate].
  - by apply install_dir_inherited in Edir.
  - exists (UnknownAgent agent), s, [].
    split; [reflexivity |]. split; [reflexivity |].
    split; [by rewrite app_nil_r |].
    split; [constructor |].
    split; [done |].
    split; [done | discriminate].
Qed.

Lemma push_successes (acc : list Outcome * list Outcome) (o : Outcome)
    (os : list Outcome) :
  ((push acc o).1 ++ successes os, (push acc o).2 ++ failures os)
  = (acc.1 ++ successes (o :: os), acc.2 ++ failures (o :: os)).
Proof.
  unfold push, successes, failures.
  destruct (is_success o) eqn:E; simpl.
  - rewrite filter_cons_True by done.
    rewrite filter_cons_False by (by intros []).
    by rewrite <- app_assoc.
  - rewrite filter_cons_False by (by rewrite E).
    rewrite filter_cons_True by (by rewrite E).
    by rewrite <- app_assoc.
Qed.

(** The whole loop: it runs to the end of the list whatever fails on the
    way, and leaves one outcome per agent, in processing order [os]; the
    [installed] array is the successes of [os], the [errors] array its
    failures. *)
Lemma for_each_install_spec (targetAgents : list string)
    (acc : list Outcome * list Outcome) (s : State W) :
  Forall (fun a => a ∉ Object_prototype_keys) targetAgents ->
  exists os s' delta,
    for_each targetAgents (install_agent proc data) acc s
    = (Ok (acc.1 ++ successes os, acc.2 ++ failures os), s')
    /\ outcome_agent <$> os = targetAgents
    /\ st_log s' = st_log s ++ delta
    /\ Forall (fun e => is_fs_event e = true) delta
    /\ Forall (fun o => forall a, o = UnknownAgent a ->
                                  install_dir proc a = Undefined) os
    /\ Forall (fun o => forall a f, o = Installed a f ->
                 exists d, install_dir proc a = Own d
                           /\ f = Path.join [Path.join [d; skill_slug (info_skill data)];
                                             "SKILL.md"]) os.
Proof.
  revert acc s.
  induction targetAgents as [|agent rest IH]; intros acc s Hkeys.
  - exists [], s, []. simpl. unfold ret, successes, failures.
    rewrite !filter_nil, !app_nil_r. destruct acc.
    repeat split; constructor.
  - apply Forall_cons in Hkeys as [Hkey Hrest].
    destruct (install_agent_spec acc agent s Hkey)
      as (o & s1 & d1 & Hstep & Hagent & Hlog1 & Hfs1 & Hunk & _ & Hfile).
    destruct (IH (push acc o) s1 Hrest)
      as (os & s2 & d2 & Hloop & Hagents & Hlog2 & Hfs2 & Hunks & Hfiles).
    exists (o :: os), s2, (d1 ++ d2).
    cbn [for_each]. unfold bind. rewrite Hstep, Hloop.
    split; [f_equal; f_equal; apply push_successes |].
    split; [by rewrite fmap_cons, Hagent, Hagents |].
    split; [by rewrite Hlog2, Hlog1, <- app_assoc |].
    split; [by apply Forall_app |].
    split.
    + constructor; [| exact Hunks].
      intros a ->. simpl in Hagent. subst a. by eapply Hunk.
    + constructor; [| exact Hfiles].
      intros a f ->. simpl in Hagent. subst a. by eapply Hfile.
Qed.

End InstallLoop.

(** ** The rendered texts *)

Lemma join_contains (sep x : string) (l : list string) :
  x ∈ l -> Str.contains (Str.join sep l) x.
Proof.
  induction l as [|y l IH]; intros Hin; [by apply elem_of_nil in Hin |].
  destruct l as [|z l].
  - apply list_elem_of_singleton in Hin as ->. simpl.
    exists "", "". by rewrite StrFacts.app_nil_r.
  - apply elem_of_cons in Hin as [-> | Hin].
    + change (Str.join sep (y :: z :: l))
        with (y +:+ sep +:+ Str.join sep (z :: l)).
      by exists "", (sep +:+ Str.join sep (z :: l)).
    + change (Str.join sep (y :: z :: l))
        with (y +:+ sep +:+ Str.join sep (z :: l)).
      by apply StrFacts.contains_app_l, StrFacts.contains_app_l, IH.
Qed.


(** Lines in order, under the operations that build the report. *)
Lemma lines_in_order_pre (lines : list string) (pre text : string) :
  lines_in_order lines text -> lines_in_order lines (pre +:+ text).
Proof.
  destruct lines as [|line rest]; [done |].
  intros (p0 & post & -> & Hrest). exists (pre +:+ p0), post.
  by rewrite StrFacts.app_assoc.
Qed.

Lemma lines_in_order_post (lines : list string) (text post : string) :
  lines_in_order lines text -> lines_in_order lines (text +:+ post).
Proof.
  revert text. induction lines as [|line rest IH]; intros text; [done |].
  intros (p0 & q & -> & Hrest). exists p0, (q +:+ post).
  split; [by rewrite !StrFacts.app_assoc | by apply IH].
Qed.

Lemma lines_in_order_app (l1 l2 : list string) (t1 t2 : string) :
  lines_in_order l1 t1 -> lines_in_order l2 t2 ->
  lines_in_order (l1 ++ l2) (t1 +:+ t2).
Proof.
  revert t1. induction l1 as [|line rest IH]; intros t1 H1 H2.
  - by apply lines_in_order_pre.
  - destruct H1 as (p0 & q & -> & Hrest). exists p0, (q +:+ t2).
    split; [by rewrite !StrFacts.app_assoc | by apply IH].
Qed.

Lemma lines_in_order_cons (line : string) (rest : list string) (text : string) :
  lines_in_order rest text -> lines_in_order (line :: rest) (line +:+ text).
Proof. intros Hrest. by exists "", text. Qed.

Lemma lines_in_order_join (sep : string) (lines : list string) :
  lines_in_order lines (Str.join sep lines).
Proof.
  induction lines as [|x l IH]; [done |].
  destruct l as [|y l].
  - exists "", "". by rewrite StrFacts.app_nil_r.
  - change (Str.join sep (x :: y :: l))
      with (x +:+ sep +:+ Str.join sep (y :: l)).
    by apply lines_in_order_cons, lines_in_order_pre.
Qed.

(** The report holds the heading and the lines of the successes, in their
    order, and after them the heading and the lines of the failures, in
    their order. *)
Lemma report_sections_in_order (skill : Skill) (installed errors : list Outcome) :
  lines_in_order
    (section_lines "## Successfully Installed" installed
     ++ section_lines "## Errors" errors)
    (render_report skill installed errors).
Proof.
  assert (Hsection : forall heading os tail,
            lines_in_order (heading :: (render_outcome <$> os))
              (heading +:+ Str.nl +:+ Str.join Str.nl (map render_outcome os)
               +:+ tail)).
  { intros heading os tail.
    apply lines_in_order_cons, lines_in_order_pre, lines_in_order_post.
    apply (lines_in_order_join Str.nl (render_outcome <$> os)). }
  unfold render_report, section_lines.
  destruct installed as [|i0 installed]; destruct errors as [|e0 errors].
  - done.
  - apply lines_in_order_post, lines_in_order_pre. apply Hsection.
  - rewrite app_nil_r.
    apply lines_in_order_post, lines_in_order_pre, lines_in_order_post.
    apply Hsection.
  - apply lines_in_order_post, lines_in_order_app.
    + apply lines_in_order_pre, lines_in_order_post. apply Hsection.
    + apply Hsection.
Qed.

(** The preview shows both one-line commands. *)
Lemma preview_contains_one_liners (detected : string) (data : InstallInfo)
    (installPaths : string) :
  Str.contains (render_preview detected data installPaths) (unix (one_liners data))
  /\ Str.contains (render_preview detected data installPaths)
                  (windows (one_liners data)).
Proof.
  unfold render_preview. split; apply join_contains.
  - do 24 apply list_elem_of_further. apply list_elem_of_here.
  - do 29 apply list_elem_of_further. apply list_elem_of_here.
Qed.

(** ** What the install schema lets through *)

Lemma items_enum (values path : list string) (i : nat) (l : list json)
    (xs : list string) :
  Zod.items (Zod.enum values) path i l = inr xs ->
  Forall (fun x => x ∈ values) xs.
Proof.
  revert i xs. induction l as [|v l IH]; intros i xs; simpl.
  - intros [= <-]. constructor.
  - unfold Zod.enum at 1.
    destruct v as [| | |s| |]; simpl;
      try (destruct (Zod.items _ _ _ l); discriminate).
    case_bool_decide as Hs; simpl.
    + destruct (Zod.items _ _ _ l) as [|ys] eqn:E; [discriminate |].
      intros [= <-]. constructor; [exact Hs | by eapply IH].
    + destruct (Zod.items _ _ _ l); discriminate.
Qed.

Section InstallSchema.
Context `{ZodRender}.

(** A parsed [agents] list holds agent kinds only. *)
Lemma InstallSkillSchema_agents (raw : option json) (args : InstallArgs)
    (l : list string) :
  InstallSkillSchema raw = Ok args ->
  agents args = Some l ->
  Forall (fun a => a ∈ AgentKinds) l.
Proof.
  unfold InstallSkillSchema, Zod.object.
  destruct raw as [[| | | | |fields]|]; try discriminate.
  unfold Zod.field at 2. unfold Zod.optional, Zod.array.
  destruct (Zod.field "skill_id" _ fields) as [i1|id];
    destruct (Zod.field "confirm" _ fields) as [i3|c];
    destruct (assoc "agents" fields) as [[| | | |items|]|]; simpl;
    try discriminate;
    try (destruct (Zod.items _ _ _ items) as [i2|xs] eqn:E; simpl;
         try discriminate).
  - intros [= <-]. simpl. intros [= <-]. by eapply items_enum.
  - intros [= <-]. discriminate.
Qed.

(** Without a [confirm] field the parsed flag is [false]. *)
Lemma InstallSkillSchema_confirm_default (fields : list (string * json))
    (args : InstallArgs) :
  assoc "confirm" fields = None ->
  InstallSkillSchema (Some (JObj fields)) = Ok args ->
  confirm args = false.
Proof.
  intros Hc. unfold InstallSkillSchema, Zod.object.
  unfold Zod.field at 3. unfold Zod.default. rewrite Hc.
  destruct (Zod.field "skill_id" _ fields) as [i1|id];
    destruct (Zod.field "agents" _ fields) as [i2|a]; simpl;
    try discriminate.
  by intros [= <-].
Qed.

Lemma InstallSkillSchema_targets (proc : Process) (raw : option json)
    (args : InstallArgs) :
  InstallSkillSchema raw = Ok args ->
  Forall (fun a => a ∈ AgentKinds) (targetAgents_of proc args).
Proof.
  intros Hparse. unfold targetAgents_of.
  destruct (agents args) as [l|] eqn:E.
  - by eapply InstallSkillSchema_agents.
  - constructor; [apply detectCurrentAgent_kind | constructor].
Qed.

End InstallSchema.

Lemma kinds_not_inherited (l : list string) :
  Forall (fun a => a ∈ AgentKinds) l ->
  Forall (fun a => a ∉ Object_prototype_keys) l.
Proof. intros Hl. eapply Forall_impl; [exact Hl | apply kind_not_inherited]. Qed.

(** ** The Execute and Preview phases *)

Lemma sublist_same_length {A} (l k : list A) :
  l `sublist_of` k -> length l = length k -> l = k.
Proof.
  induction 1 as [|x l k Hsub IH|x l k Hsub IH]; intros Hlen.
  - reflexivity.
  - f_equal. apply IH. simpl in Hlen. lia.
  - apply sublist_length in Hsub. simpl in Hlen. lia.
Qed.

(** ** Runs of the Execute loop *)

Section ExecuteRunFacts.
Context {W : Type} `{Runtime W} (proc : Process) (data : InstallInfo).

(** One turn of the loop is the run of its agent: the outcome goes to the
    array it belongs to, the calls go to the log, and the world is the one
    the calls left. *)
Lemma install_agent_run (acc : list Outcome * list Outcome) (agent : string)
    (s : State W) :
  agent ∉ Object_prototype_keys ->
  exists o delta w',
    install_agent proc data acc agent s
    = (Ok (push acc o), {| st_world := w'; st_log := st_log s ++ delta |})
    /\ agent_run proc data agent (st_world s) o delta w'.
Proof.
  intros Hkey. unfold install_agent. destruct acc as [installed errors].
  destruct (install_dir proc agent) as [baseDir| |] eqn:Edir.
  - rewrite (install_dir_own_nonempty _ _ _ Edir). cbn zeta.
    destruct (security_check _ _ _) eqn:Esec; simpl.
    + unfold try_catch, bind, fs_mkdir, fs_writeFile, call, ret. simpl.
      destruct (rt_mkdir _ (st_world s)) as [[[]|e] w1] eqn:Emk; simpl.
      * destruct (rt_writeFile _ _ w1) as [[[]|e] w2] eqn:Ewr; simpl.
        -- eexists (Installed agent _), _, w2.
           split; [by rewrite <- app_assoc |].
           by apply (run_installed proc data agent _ baseDir w1 w2).
        -- eexists (FsError agent (exn_message e)), _, w2.
           split; [by rewrite <- app_assoc |].
           by apply (run_write_fails proc data agent _ baseDir e w1 w2).
      * eexists (FsError agent (exn_message e)), _, w1.
        split; [reflexivity |].
        by apply (run_mkdir_fails proc data agent _ baseDir e w1).
    + exists (SecurityError agent), [], (st_world s).
      split; [destruct s; by rewrite app_nil_r |].
      by apply (run_escape proc data agent _ baseDir).
  - by apply install_dir_inherited in Edir.
  - exists (UnknownAgent agent), [], (st_world s).
    split; [destruct s; by rewrite app_nil_r |].
    by apply run_unknown.
Qed.

(** The loop is the run of its agents, whatever fails on the way. *)
Lemma for_each_install_run (targetAgents : list string)
    (acc : list Outcome * list Outcome) (s : State W) :
  Forall (fun a => a ∉ Object_prototype_keys) targetAgents ->
  exists os delta w',
    for_each targetAgents (install_agent proc data) acc s
    = (Ok (acc.1 ++ successes os, acc.2 ++ failures os),
       {| st_world := w'; st_log := st_log s ++ delta |})
    /\ loop_run proc data targetAgents (st_world s) os delta w'.
Proof.
  revert acc s.
  induction targetAgents as [|agent rest IH]; intros acc s Hkeys.
  - exists [], [], (st_world s). simpl. unfold ret, successes, failures.
    rewrite !filter_nil, !app_nil_r. destruct acc, s.
    split; [reflexivity | constructor].
  - apply Forall_cons in Hkeys as [Hkey Hrest].
    destruct (install_agent_run acc agent s Hkey)
      as (o & d1 & w1 & Hstep & Hrun).
    destruct (IH (push acc o) {| st_world := w1; st_log := st_log s ++ d1 |}
                Hrest)
      as (os & d2 & w2 & Hloop & Hruns).
    exists (o :: os), (d1 ++ d2), w2.
    cbn [for_each]. unfold bind. rewrite Hstep, Hloop. simpl.
    split; [by rewrite push_successes, <- app_assoc |].
    by apply (loop_turn proc data agent rest _ o d1 w1).
Qed.

Lemma install_loop_run (targetAgents : list string) (s : State W) :
  Forall (fun a => a ∉ Object_prototype_keys) targetAgents ->
  exists os delta w',
    install_loop proc data targetAgents s
    = (Ok (successes os, failures os),
       {| st_world := w'; st_log := st_log s ++ delta |})
    /\ loop_run proc data targetAgents (st_world s) os delta w'.
Proof.
  intros Hkeys. exact (for_each_install_run targetAgents ([], []) s Hkeys).
Qed.

(** The answers of the runtime leave a turn no choice. *)
Lemma agent_run_functional (agent : string) (w : W) (o1 o2 : Outcome)
    (d1 d2 : list Event) (w1 w2 : W) :
  agent_run proc data agent w o1 d1 w1 ->
  agent_run proc data agent w o2 d2 w2 ->
  o1 = o2 /\ d1 = d2 /\ w1 = w2.
Proof.
  intros H1 H2.
  destruct H1; destruct H2;
    repeat match goal with
           | Ha : ?x = _, Hb : ?x = _ |- _ => rewrite Ha in Hb; simplify_eq
           end;
    done.
Qed.

Lemma loop_run_functional (agents : list string) (w : W) (os1 os2 : list Outcome)
    (d1 d2 : list Event) (w1 w2 : W) :
  loop_run proc data agents w os1 d1 w1 ->
  loop_run proc data agents w os2 d2 w2 ->
  os1 = os2 /\ d1 = d2 /\ w1 = w2.
Proof.
  intros H1. revert os2 d2 w2.
  induction H1 as [w|agent rest w o d w1 os ds w2 Hturn _ IH];
    intros os2 d2 w2' H2; inversion H2; subst.
  - done.
  - match goal with
    | Hturn2 : agent_run _ _ agent w _ _ _ |- _ =>
        destruct (agent_run_functional _ _ _ _ _ _ _ _ Hturn Hturn2)
          as (-> & -> & ->)
    end.
    match goal with
    | Hrest2 : loop_run _ _ rest _ _ _ _ |- _ =>
        destruct (IH _ _ _ Hrest2) as (-> & -> & ->)
    end.
    done.
Qed.

(** What a turn can leave: a success with the file of its agent, or a
    failure of one of three kinds, always for the agent whose turn it was. *)
Lemma agent_run_outcome (agent : string) (w : W) (o : Outcome)
    (d : list Event) (w' : W) :
  agent_run proc data agent w o d w' ->
  outcome_agent o = agent
  /\ (is_success o = true ->
        exists baseDir, install_dir proc agent = Own baseDir
                        /\ o = Installed agent (skill_file_in data baseDir))
  /\ (~ is_success o = true ->
        o = UnknownAgent agent \/ o = SecurityError agent
        \/ exists msg, o = FsError agent msg).
Proof.
  destruct 1; (split; [reflexivity |]); split; simpl; try done; eauto.
Qed.

Lemma loop_run_agents (agents : list string) (w : W) (os : list Outcome)
    (d : list Event) (w' : W) :
  loop_run proc data agents w os d w' -> outcome_agent <$> os = agents.
Proof.
  induction 1 as [|agent rest w o d w1 os ds w2 Hturn _ IH]; [reflexivity |].
  rewrite fmap_cons, IH. by destruct (agent_run_outcome _ _ _ _ _ Hturn) as [-> _].
Qed.


(** The agents of the two arrays, against the agents of the request. *)
Lemma groups_of_outcomes (os : list Outcome) :
  (outcome_agent <$> successes os) `sublist_of` (outcome_agent <$> os)
  /\ (outcome_agent <$> failures os) `sublist_of` (outcome_agent <$> os)
  /\ (outcome_agent <$> successes os) ++ (outcome_agent <$> failures os)
     ≡ₚ outcome_agent <$> os
  /\ (failures os = [] -> successes os = os)
  /\ (successes os = [] -> failures os = os).
Proof.
  assert (Hperm : successes os ++ failures os ≡ₚ os)
    by apply filter_app_complement.
  split; [apply fmap_sublist, sublist_filter |].
  split; [apply fmap_sublist, sublist_filter |].
  split; [by rewrite <- fmap_app, Hperm |].
  split; intros Hnil.
  - rewrite Hnil, app_nil_r in Hperm.
    assert (Hlen : length (successes os) = length os) by by rewrite Hperm.
    apply sublist_same_length; [apply sublist_filter | exact Hlen].
  - rewrite Hnil in Hperm. simpl in Hperm.
    assert (Hlen : length (failures os) = length os) by by rewrite Hperm.
    apply sublist_same_length; [apply sublist_filter | exact Hlen].
Qed.

End ExecuteRunFacts.

Section InstallTheorems.
Context {W : Type} `{Runtime W} (proc : Process).

(** A directory the prefix test rejects is never created or written: the
    iteration records a security error and leaves the world and the log as
    they were. *)
Lemma install_agent_rejected (data : InstallInfo)
    (acc : list Outcome * list Outcome) (agent baseDir : string)
    (s : State W) :
  install_dir proc agent = Own baseDir ->
  security_check (proc_cwd proc) baseDir
    (Path.join [baseDir; skill_slug (info_skill data)]) = false ->
  install_agent proc data acc agent s
  = (Ok (acc.1, acc.2 ++ [SecurityError agent]), s).
Proof.
  intros Hdir Hsec. unfold install_agent. destruct acc as [installed errors].
  rewrite Hdir, (install_dir_own_nonempty _ _ _ Hdir), Hsec. reflexivity.
Qed.

(** A failing [mkdir] is caught: the agent gets a failure carrying the
    error's message, no write is tried, and the iteration ends normally. *)
Lemma install_agent_mkdir_fails (data : InstallInfo)
    (acc : list Outcome * list Outcome) (agent baseDir : string)
    (s : State W) (e : exn) (w1 : W) :
  let skillDir := Path.join [baseDir; skill_slug (info_skill data)] in
  install_dir proc agent = Own baseDir ->
  security_check (proc_cwd proc) baseDir skillDir = true ->
  rt_mkdir skillDir (st_world s) = (Throw e, w1) ->
  install_agent proc data acc agent s
  = (Ok (acc.1, acc.2 ++ [FsError agent (exn_message e)]),
     {| st_world := w1; st_log := st_log s ++ [EvMkdir skillDir] |}).
Proof.
  intros skillDir Hdir Hsec Hmk. unfold install_agent.
  destruct acc as [installed errors].
  rewrite Hdir, (install_dir_own_nonempty _ _ _ Hdir). fold skillDir.
  rewrite Hsec. simpl.
  unfold try_catch, bind, fs_mkdir, call. rewrite Hmk. reflexivity.
Qed.

(** So is a failing [writeFile]. *)
Lemma install_agent_write_fails (data : InstallInfo)
    (acc : list Outcome * list Outcome) (agent baseDir : string)
    (s : State W) (e : exn) (w1 w2 : W) :
  let skillDir := Path.join [baseDir; skill_slug (info_skill data)] in
  let skillFile := Path.join [skillDir; "SKILL.md"] in
  install_dir proc agent = Own baseDir ->
  security_check (proc_cwd proc) baseDir skillDir = true ->
  rt_mkdir skillDir (st_world s) = (Ok (), w1) ->
  rt_writeFile skillFile (install_content data) w1 = (Throw e, w2) ->
  install_agent proc data acc agent s
  = (Ok (acc.1, acc.2 ++ [FsError agent (exn_message e)]),
     {| st_world := w2;
        st_log := st_log s ++ [EvMkdir skillDir;
                               EvWriteFile skillFile (install_content data)] |}).
Proof.
  intros skillDir skillFile Hdir Hsec Hmk Hwr. unfold install_agent.
  destruct acc as [installed errors].
  rewrite Hdir, (install_dir_own_nonempty _ _ _ Hdir). fold skillDir.
  rewrite Hsec. simpl.
  unfold try_catch, bind, fs_mkdir, fs_writeFile, call. rewrite Hmk. simpl.
  fold skillFile. rewrite Hwr. simpl. by rewrite <- app_assoc.
Qed.

Lemma install_loop_spec (data : InstallInfo) (targetAgents : list string)
    (s : State W) :
  Forall (fun a => a ∉ Object_prototype_keys) targetAgents ->
  exists os s' delta,
    install_loop proc data targetAgents s
    = (Ok (successes os, failures os), s')
    /\ outcome_agent <$> os = targetAgents
    /\ st_log s' = st_log s ++ delta
    /\ Forall (fun e => is_fs_event e = true) delta
    /\ Forall (fun o => forall a, o = UnknownAgent a ->
                                  install_dir proc a = Undefined) os
    /\ Forall (fun o => forall a f, o = Installed a f ->
                 exists d, install_dir proc a = Own d
                           /\ f = Path.join [Path.join [d; skill_slug (info_skill data)];
                                             "SKILL.md"]) os.
Proof.
  intros Hkeys. unfold install_loop.
  exact (for_each_install_spec proc data targetAgents ([], []) s Hkeys).
Qed.

(** The Execute phase of [installSkill]: the catalog call, then the run of
    the requested agents, then the report of its outcomes. *)
Lemma installSkill_execute (args : InstallArgs) (data : InstallInfo)
    (s : State W) (w1 : W) :
  confirm args = true ->
  Forall (fun a => a ∉ Object_prototype_keys) (targetAgents_of proc args) ->
  rt_getInstallInfo (skill_id args) (targetAgents_of proc args) (st_world s)
  = (Ok data, w1) ->
  exists os delta w',
    installSkill proc args s
    = (Ok (render_report (info_skill data) (successes os) (failures os)),
       {| st_world := w';
          st_log := st_log s
                    ++ EvClient (GetInstallInfo (skill_id args)
                                                (targetAgents_of proc args))
                       :: delta |})
    /\ loop_run proc data (targetAgents_of proc args) w1 os delta w'.
Proof.
  intros Hconfirm Hkeys Hget.
  destruct (install_loop_run proc data (targetAgents_of proc args)
              {| st_world := w1;
                 st_log := st_log s ++ [EvClient (GetInstallInfo (skill_id args)
                                                    (targetAgents_of proc args))] |}
              Hkeys)
    as (os & delta & w' & Hloop & Hrun).
  exists os, delta, w'. split; [| exact Hrun].
  unfold installSkill, bind, getInstallInfo, call.
  rewrite Hget, Hconfirm. cbn [negb]. rewrite Hloop. simpl.
  by rewrite <- app_assoc.
Qed.


(** C9, as amended: the report lists the successes first and the failures
    after them.  The outcomes [os] of the run are in the order of the
    request, one per requested agent; the text returned holds the heading
    [Successfully Installed] and the lines of the successes of [os], in
    their order, and after them the heading [Errors] and the lines of the
    failures of [os], in their order, a group without outcomes being left
    out; so inside each of the two groups the agents come in the order of
    the request, the two groups together are exactly the requested agents,
    and when one group is empty the other follows the request position by
    position. *)
Theorem report_order_within_groups (args : InstallArgs) (data : InstallInfo)
    (s : State W) (w1 : W) :
  confirm args = true ->
  Forall (fun a => a ∉ Object_prototype_keys) (targetAgents_of proc args) ->
  rt_getInstallInfo (skill_id args) (targetAgents_of proc args) (st_world s)
  = (Ok data, w1) ->
  exists os delta w' report s',
    installSkill proc args s = (Ok report, s')
    /\ loop_run proc data (targetAgents_of proc args) w1 os delta w'
    /\ outcome_agent <$> os = targetAgents_of proc args
    /\ lines_in_order
         (section_lines "## Successfully Installed" (successes os)
          ++ section_lines "## Errors" (failures os))
         report
    /\ (outcome_agent <$> successes os) `sublist_of` targetAgents_of proc args
    /\ (outcome_agent <$> failures os) `sublist_of` targetAgents_of proc args
    /\ (outcome_agent <$> successes os) ++ (outcome_agent <$> failures os)
       ≡ₚ targetAgents_of proc args
    /\ (failures os = [] ->
        outcome_agent <$> successes os = targetAgents_of proc args)
    /\ (successes os = [] ->
        outcome_agent <$> failures os = targetAgents_of proc args).
Proof.
  intros Hconfirm Hkeys Hget.
  destruct (installSkill_execute args data s w1 Hconfirm Hkeys Hget)
    as (os & delta & w' & Hinstall & Hrun).
  pose proof (loop_run_agents _ _ _ _ _ _ _ Hrun) as Hagents.
  destruct (groups_of_outcomes os) as (Hsub1 & Hsub2 & Hperm & Hnil1 & Hnil2).
  rewrite Hagents in Hsub1, Hsub2, Hperm.
  eexists os, delta, w', _, _.
  split; [exact Hinstall |]. split; [exact Hrun |]. split; [exact Hagents |].
  split; [apply report_sections_in_order |].
  split; [exact Hsub1 |]. split; [exact Hsub2 |]. split; [exact Hperm |].
  split; intros Hnil.
  - by rewrite (Hnil1 Hnil).
  - by rewrite (Hnil2 Hnil).
Qed.

End InstallTheorems.

Section ValidatedInstall.
Context {W : Type} `{Runtime W} `{ZodRender} (proc : Process).

Lemma preview_lines_ok (args : InstallArgs) (skill : Skill)
    (targetAgents : list string) :
  Forall (fun a => a ∈ AgentKinds) targetAgents ->
  exists lines,
    map_result (preview_line proc args skill) targetAgents = Ok lines.
Proof.
  induction 1 as [|a l Ha _ [lines IH]]; [by exists [] |].
  simpl. unfold preview_line at 1. rewrite (install_dir_of_kind _ _ Ha).
  rewrite IH. eauto.
Qed.

(** C3: a call whose [confirm] flag is false, which is what a request
    without the flag parses to, asks the catalog for the install
    information and does nothing else to the outside: no directory is
    created and no file written; when the catalog answers a validated
    request, the preview text holds both its Unix and its Windows one-line
    command. *)
Theorem preview_touches_nothing (args : InstallArgs) (s : State W) :
  (forall fields,
     assoc "confirm" fields = None ->
     InstallSkillSchema (Some (JObj fields)) = Ok args ->
     confirm args = false)
  /\ (confirm args = false ->
      let targetAgents := targetAgents_of proc args in
      let answer := rt_getInstallInfo (skill_id args) targetAgents (st_world s) in
      exists r,
        installSkill proc args s
        = (r, {| st_world := answer.2;
                 st_log := st_log s
                           ++ [EvClient (GetInstallInfo (skill_id args)
                                                        targetAgents)] |})
        /\ (forall raw data,
              InstallSkillSchema raw = Ok args ->
              answer.1 = Ok data ->
              exists text, r = Ok text
                /\ Str.contains text (unix (one_liners data))
                /\ Str.contains text (windows (one_liners data)))
        /\ (forall e, answer.1 = Throw e -> r = Throw e)).
Proof.
  split.
  - intros fields Hc Hparse. by eapply InstallSkillSchema_confirm_default.
  - intros Hconfirm targetAgents answer.
    unfold installSkill, bind, getInstallInfo, call.
    fold targetAgents. fold answer.
    destruct answer as [[data|e] w1]; simpl.
    + rewrite Hconfirm. cbn [negb]. unfold lift, ret.
      destruct (map_result _ targetAgents) as [lines|e] eqn:Hlines.
      * eexists. split; [reflexivity |]. split; [| discriminate].
        intros raw d _ [= <-]. eexists. split; [reflexivity |].
        apply preview_contains_one_liners.
      * eexists. split; [reflexivity |]. split; [| discriminate].
        intros raw d Hparse [= <-].
        destruct (preview_lines_ok args (info_skill data) targetAgents
                    (InstallSkillSchema_targets proc raw args Hparse))
          as [lines Hok].
        fold targetAgents in Hok. congruence.
    + eexists. split; [reflexivity |]. split; [discriminate |].
      by intros e' [= <-].
Qed.

(** C10: after schema validation every target agent is one of the four
    agent kinds and has a non-empty install root, so the loop of the
    Execute phase never takes its unknown-agent branch. *)
Theorem validated_agents_have_roots (raw : option json) (args : InstallArgs) :
  InstallSkillSchema raw = Ok args ->
  Forall (fun a => a ∈ AgentKinds
                   /\ exists dir, install_dir proc a = Own dir
                                  /\ Str.is_empty dir = false)
         (targetAgents_of proc args)
  /\ forall (data : InstallInfo) (s : State W),
       exists installed errors s',
         install_loop proc data (targetAgents_of proc args) s
         = (Ok (installed, errors), s')
         /\ forall a, UnknownAgent a ∉ errors.
Proof.
  intros Hparse.
  pose proof (InstallSkillSchema_targets proc raw args Hparse) as Hkinds.
  split.
  - eapply Forall_impl; [exact Hkinds |].
    intros a Ha. split; [exact Ha |].
    eexists. split; [by apply install_dir_of_kind | apply join_nonempty].
  - intros data s.
    destruct (install_loop_spec proc data (targetAgents_of proc args) s
                (kinds_not_inherited _ Hkinds))
      as (os & s' & delta & Hloop & Hagents & _ & _ & Hunk & _).
    exists (successes os), (failures os), s'. split; [exact Hloop |].
    intros a Hin. apply list_elem_of_filter in Hin as [_ Hin].
    rewrite Forall_forall in Hunk. rewrite Forall_forall in Hkinds.
    pose proof (Hunk _ Hin a eq_refl) as Hundef.
    assert (Ha : a ∈ targetAgents_of proc args).
    { rewrite <- Hagents.
      change a with (outcome_agent (UnknownAgent a)).
      by apply list_elem_of_fmap_2. }
    rewrite (install_dir_of_kind _ _ (Hkinds _ Ha)) in Hundef. discriminate.
Qed.

End ValidatedInstall.

(** C1: a slug that climbs one segment up and names a sibling of the install
    root, here [../skills-evil] for agent [claude] of user [u], passes the
    check of the Execute phase: the directory [/home/u/.claude/skills-evil],
    which lies outside the root [/home/u/.claude/skills], is created, the
    skill file is written into it, and no failure is recorded. *)
Theorem sibling_slug_escapes_root :
  exists s',
    install_loop Sim.bare Sim.evil ["claude"] (Sim.start Sim.world0)
    = (Ok ([Installed "claude" "/home/u/.claude/skills-evil/SKILL.md"], []), s')
    /\ st_log s'
       = [ EvMkdir "/home/u/.claude/skills-evil";
           EvWriteFile "/home/u/.claude/skills-evil/SKILL.md" "payload" ]
    /\ Sim.files (st_world s')
       = [ ("/home/u/.claude/skills-evil/SKILL.md", "payload") ]
    /\ install_dir Sim.bare "claude" = Own "/home/u/.claude/skills"
    /\ Path.within_root "/home/u/.claude/skills"
         (Path.resolve "/work" "/home/u/.claude/skills-evil") = false.
Proof. eexists. repeat split; vm_compute; reflexivity. Qed.

(** A slug that leaves the root for a directory that does not share the
    root's name as a prefix is rejected. *)
Example parent_slug_rejected :
  exists s',
    install_loop Sim.bare
      {| info_skill := {| skill_name := "Up"; skill_slug := "../../up";
                          skill_repo_url := "" |};
         install_content := "x"; one_liners := {| unix := ""; windows := "" |} |}
      ["claude"] (Sim.start Sim.world0)
    = (Ok ([], [SecurityError "claude"]), s')
    /\ st_log s' = [].
Proof. eexists. split; vm_compute; reflexivity. Qed.

(** C2: the containment test is a plain string-prefix test on the two
    resolved paths, so a sibling of the root whose name extends the root's
    name is accepted: [/a/bee] passes against the root [/a/b], although it is
    not below it component-wise. *)
Theorem prefix_check_accepts_sibling :
  (forall cwd baseDir skillDir,
     security_check cwd baseDir skillDir
     = Str.startsWith (Path.resolve cwd skillDir) (Path.resolve cwd baseDir))
  /\ (forall resolvedBase suffix,
        Str.startsWith (resolvedBase +:+ suffix) resolvedBase = true)
  /\ security_check "/" "/a/b" "/a/bee" = true
  /\ Path.within_root (Path.resolve "/" "/a/b") (Path.resolve "/" "/a/bee") = false
  /\ security_check "/work" "/home/u/.claude/skills"
       (Path.join ["/home/u/.claude/skills"; "../skills-evil"]) = true.
Proof.
  split; [reflexivity |].
  split; [apply StrFacts.startsWith_app |].
  repeat split; vm_compute; reflexivity.
Qed.

(** C9 as stated fails: with the root of [claude] not writable, a request for
    [claude] then [codex] reports [codex] first (a success) and [claude]
    second (a failure). *)
Lemma report_order_counterexample :
  ~ (forall (proc : Process) (data : InstallInfo) (targetAgents : list string)
            (s : State Sim.World) installed errors s',
       install_loop proc data targetAgents s = (Ok (installed, errors), s') ->
       outcome_agent <$> (installed ++ errors) = targetAgents).
Proof.
  intros Hclaim.
  pose (run := install_loop Sim.bare Sim.pdf ["claude"; "codex"]
                 (Sim.start Sim.world_ro)).
  specialize (Hclaim Sim.bare Sim.pdf ["claude"; "codex"]
                (Sim.start Sim.world_ro)
                [Installed "codex" "/home/u/.codex/skills/pdf/SKILL.md"]
                [FsError "claude"
                   "EACCES: permission denied, mkdir '/home/u/.claude/skills/pdf'"]
                run.2).
  assert (Hrun : run = (Ok ([Installed "codex" "/home/u/.codex/skills/pdf/SKILL.md"],
                            [FsError "claude"
                               "EACCES: permission denied, mkdir '/home/u/.claude/skills/pdf'"]),
                        run.2))
    by (vm_compute; reflexivity).
  specialize (Hclaim Hrun). discriminate Hclaim.
Qed.

(** ** The dispatcher *)

Lemma tracks_app (l k : list Event) : tracks (l ++ k) = tracks l ++ tracks k.
Proof. apply omap_app. Qed.

Lemma tracks_fs_events (l : list Event) :
  Forall (fun e => is_fs_event e = true) l -> tracks l = [].
Proof.
  induction 1 as [|e l He _ IH]; [reflexivity |].
  destruct e; try discriminate; exact IH.
Qed.

Section DispatcherLemmas.
Context {W : Type} `{Runtime W} `{ZodRender} (proc : Process).

(** [trackMCPCall] fires one event and always ends normally, however the
    [fetch] ends. *)
Lemma trackMCPCall_spec (name : string) (args : option json) (startTime : Z)
    (success : bool) (error : option string)
    (metadata : list (string * option string)) (s : State W) :
  exists t w',
    trackMCPCall proc name args startTime success error metadata s
    = (Ok (), {| st_world := w'; st_log := st_log s ++ [EvTrack t] |})
    /\ track_facts name startTime success error t.
Proof.
  unfold trackMCPCall, try_catch, bind, Date_now, ret. simpl.
  destruct (rt_now (st_world s)) as [t1 w1] eqn:E1. simpl.
  destruct (rt_now w1) as [t2 w2] eqn:E2. simpl.
  match goal with
  | |- context [rt_fetch ?b w2] =>
      exists b; destruct (rt_fetch b w2) as [[|e|e] w3]
  end; exists w3; (split; [reflexivity |]);
    repeat split; exists (st_world s); simpl; by rewrite E1.
Qed.

Lemma client_call_spec {A} (c : ClientCall) (op : W -> result A * W)
    (s : State W) :
  exists r s' delta,
    call (EvClient c) op s = (r, s')
    /\ st_log s' = st_log s ++ delta /\ tracks delta = [].
Proof.
  unfold call. destruct (op (st_world s)) as [r w'].
  by eexists r, _, [EvClient c].
Qed.

(** [installSkill] on validated agents fires no tracking event. *)
Lemma installSkill_no_track (args : InstallArgs) (s : State W) :
  Forall (fun a => a ∈ AgentKinds) (targetAgents_of proc args) ->
  exists r s' delta,
    installSkill proc args s = (r, s')
    /\ st_log s' = st_log s ++ delta /\ tracks delta = [].
Proof.
  intros Hkinds. unfold installSkill, bind, getInstallInfo, call.
  destruct (rt_getInstallInfo _ _ (st_world s)) as [[data|e] w1]; simpl.
  - destruct (confirm args); cbn [negb].
    + match goal with
      | |- context [install_loop proc data ?l ?s0] =>
          destruct (install_loop_spec proc data l s0
                      (kinds_not_inherited _ Hkinds))
            as (os & s' & delta & -> & _ & Hlog & Hfs & _)
      end.
      simpl in Hlog. eexists _, s', (_ :: delta).
      split; [reflexivity |]. split.
      * rewrite Hlog, <- app_assoc. reflexivity.
      * simpl. by apply tracks_fs_events.
    + unfold lift. destruct (map_result _ _) as [lines|e].
      * by eexists _, _, [_].
      * by eexists _, _, [_].
  - by eexists _, _, [_].
Qed.

(** One [case] of the [switch]: parse, run the handler, track, return. *)
Lemma tool_case_spec {A} (name : string) (args : option json) (startTime : Z)
    (parse : result A) (handler : A -> M W string)
    (meta : A -> list (string * option string)) (s : State W) :
  (forall a s0, parse = Ok a ->
     exists r s' delta, handler a s0 = (r, s')
       /\ st_log s' = st_log s0 ++ delta /\ tracks delta = []) ->
  exists r s' delta,
    bind (lift parse) (fun parsedArgs =>
      bind (handler parsedArgs) (fun result =>
        bind (trackMCPCall proc name args startTime true None (meta parsedArgs))
             (fun _ => ret result))) s = (r, s')
    /\ st_log s' = st_log s ++ delta
    /\ match r with
       | Ok _ => exists t, tracks delta = [t]
                           /\ track_facts name startTime true None t
       | Throw _ => tracks delta = []
       end
    /\ (forall e, parse = Throw e -> r = Throw e /\ delta = []).
Proof.
  intros Hhandler. unfold bind at 1. unfold lift.
  destruct parse as [a|e].
  - destruct (Hhandler a s eq_refl) as (r & s1 & d1 & Hrun & Hlog1 & Htr1).
    unfold bind at 1. rewrite Hrun.
    destruct r as [text|e].
    + destruct (trackMCPCall_spec name args startTime true None (meta a) s1)
        as (t & w' & Htrack & Hfacts).
      unfold bind, ret. rewrite Htrack.
      eexists _, _, (d1 ++ [EvTrack t]).
      split; [reflexivity |]. simpl.
      split; [by rewrite Hlog1, <- app_assoc |].
      split; [| discriminate].
      exists t. rewrite tracks_app, Htr1. by split.
    + exists (Throw e), s1, d1.
      split; [reflexivity |]. split; [exact Hlog1 |].
      split; [exact Htr1 | discriminate].
  - exists (Throw e), s, []. rewrite app_nil_r.
    split; [reflexivity |]. split; [reflexivity |].
    split; [reflexivity |]. by intros e' [= <-].
Qed.

End DispatcherLemmas.

Section DispatcherTheorems.
Context {W : Type} `{R : Runtime W} `{ZodRender} (proc : Process).

Local Ltac tool_case E handler_lemma :=
  match goal with
  | |- exists r s' delta,
         bind (lift ?parse) (fun a => bind (?handler a)
           (fun result => bind (trackMCPCall _ ?name ?args ?start true None (@?meta a))
                               (fun _ => ret result))) ?s = _ /\ _ =>
      let Hp := fresh "Hp" in
      destruct (tool_case_spec proc name args start parse handler meta s)
        as (r & s' & delta & Hrun & Hlog & Hmatch & Hparse);
      [ intros ? ? Hp; handler_lemma Hp
      | exists r, s', delta;
        split; [exact Hrun |]; split; [exact Hlog |]; split; [exact Hmatch |];
        split;
        [ intros e He; apply Hparse; destruct parse; [discriminate | congruence]
        | intros Hunknown; exfalso; apply Hunknown;
          apply String.eqb_eq in E; rewrite E; compute_done ] ]
  end.

Local Ltac by_client_call Hp := apply client_call_spec.
Local Ltac by_install Hp :=
  apply installSkill_no_track; eapply InstallSkillSchema_targets; exact Hp.

(** The [switch]: a normal end has fired exactly one tracking event, a
    successful one; a thrown error has fired none; a refusal by the schema
    or an unknown name throws before anything is done. *)
Lemma run_tool_spec (name : string) (args : option json) (startTime : Z)
    (s : State W) :
  exists r s' delta,
    run_tool proc name args (trackMCPCall proc name args startTime) s = (r, s')
    /\ st_log s' = st_log s ++ delta
    /\ match r with
       | Ok _ => exists t, tracks delta = [t]
                           /\ track_facts name startTime true None t
       | Throw _ => tracks delta = []
       end
    /\ (forall e, schema_error name args = Some e -> r = Throw e /\ delta = [])
    /\ (name ∉ registered_tools ->
        r = Throw (JsError ("Unknown tool: " +:+ name)) /\ delta = []).
Proof.
  unfold run_tool, schema_error.
  destruct (String.eqb name "search_skills") eqn:E1;
    [tool_case E1 by_client_call |].
  destruct (String.eqb name "get_skill_detail") eqn:E2;
    [tool_case E2 by_client_call |].
  destruct (String.eqb name "install_skill") eqn:E3;
    [tool_case E3 by_install |].
  destruct (String.eqb name "browse_catalog") eqn:E4;
    [tool_case E4 by_client_call |].
  destruct (String.eqb name "recommend_skills") eqn:E5;
    [tool_case E5 by_client_call |].
  exists (Throw (JsError ("Unknown tool: " +:+ name))), s, [].
  rewrite app_nil_r. repeat split; discriminate.
Qed.

(** The registered handler as a whole. *)
Lemma handle_call_tool_spec (name : string) (args : option json)
    (s : State W) :
  exists res s' delta t,
    handle_call_tool proc name args s = (Ok res, s')
    /\ st_log s' = st_log s ++ delta
    /\ tracks delta = [t]
    /\ track_facts name (rt_now (st_world s)).1 (negb (isError res))
         (event_error t) t
    /\ match event_error t with
       | Some msg => isError res = true
                     /\ content_text res = "Error: " +:+ msg
       | None => isError res = false
       end
    /\ (forall e, schema_error name args = Some e ->
          isError res = true
          /\ content_text res = "Error: " +:+ exn_message e
          /\ delta = [EvTrack t])
    /\ (name ∉ registered_tools ->
          isError res = true
          /\ content_text res = "Error: Unknown tool: " +:+ name
          /\ delta = [EvTrack t]).
Proof.
  unfold handle_call_tool, bind at 1. unfold Date_now at 1.
  destruct (rt_now (st_world s)) as [startTime w0] eqn:Enow. simpl.
  set (s0 := {| st_world := w0; st_log := st_log s |}).
  destruct (run_tool_spec name args startTime s0)
    as (r & s1 & d1 & Hrun & Hlog1 & Hmatch & Hschema & Hunknown).
  unfold try_catch, bind. rewrite Hrun.
  destruct r as [text|e].
  - destruct Hmatch as (t & Htr & Hfacts).
    exists {| content_text := text; isError := false |}, s1, d1, t.
    destruct Hfacts as (Ht1 & Ht2 & Ht3 & Ht4 & Ht5).
    split; [reflexivity |]. split; [exact Hlog1 |]. split; [exact Htr |].
    split; [by repeat split |].
    rewrite Ht4. split; [reflexivity |].
    split.
    + intros e He. by destruct (Hschema e He).
    + intros Hu. by destruct (Hunknown Hu).
  - destruct (trackMCPCall_spec proc name args startTime false
                (Some (exn_message e)) [] s1)
      as (t & w' & Htrack & Hfacts).
    rewrite Htrack. unfold ret.
    exists {| content_text := "Error: " +:+ exn_message e; isError := true |},
      {| st_world := w'; st_log := st_log s1 ++ [EvTrack t] |},
      (d1 ++ [EvTrack t]), t.
    destruct Hfacts as (Ht1 & Ht2 & Ht3 & Ht4 & Ht5).
    split; [reflexivity |].
    split; [simpl; by rewrite Hlog1, <- app_assoc |].
    split; [by rewrite tracks_app, Hmatch |].
    split; [by repeat split |].
    rewrite Ht4. split; [by split |].
    split.
    + intros e' He. destruct (Hschema e' He) as [[= ->] ->]. by repeat split.
    + intros Hu. destruct (Hunknown Hu) as [[= ->] ->]. by repeat split.
Qed.

(** C5: the handler always returns a result and never throws; a name with
    no registered tool gives an error-flagged result, and so do arguments
    the tool's schema refuses, in both cases with nothing done but the one
    tracking call: no catalog call, no directory, no file. *)
Theorem dispatcher_never_throws (name : string) (args : option json)
    (s : State W) :
  exists res s' delta,
    handle_call_tool proc name args s = (Ok res, s')
    /\ st_log s' = st_log s ++ delta
    /\ (name ∉ registered_tools ->
          isError res = true
          /\ content_text res = "Error: Unknown tool: " +:+ name
          /\ exists t, delta = [EvTrack t])
    /\ (forall e, schema_error name args = Some e ->
          isError res = true
          /\ content_text res = "Error: " +:+ exn_message e
          /\ exists t, delta = [EvTrack t] /\ event_success t = false).
Proof.
  destruct (handle_call_tool_spec name args s)
    as (res & s' & delta & t & Hrun & Hlog & _ & Hfacts & _ & Hschema & Hunknown).
  exists res, s', delta.
  split; [exact Hrun |]. split; [exact Hlog |]. split.
  - intros Hu. destruct (Hunknown Hu) as (He & Htext & Hd). eauto.
  - intros e He. destruct (Hschema e He) as (Herr & Htext & Hd).
    split; [exact Herr |]. split; [exact Htext |].
    exists t. split; [exact Hd |].
    destruct Hfacts as (_ & _ & -> & _). by rewrite Herr.
Qed.

End DispatcherTheorems.

Section HandlerUnfolded.
Context {W : Type} `{R : Runtime W} `{ZodRender} (proc : Process).

(** The handler, with its monadic plumbing spelled out. *)
Lemma handle_call_tool_unfold (name : string) (args : option json)
    (s : State W) :
  handle_call_tool proc name args s
  = let startTime := (rt_now (st_world s)).1 in
    let s0 := {| st_world := (rt_now (st_world s)).2; st_log := st_log s |} in
    let track := trackMCPCall proc name args startTime in
    match run_tool proc name args track s0 with
    | (Ok text, s1) => (Ok {| content_text := text; isError := false |}, s1)
    | (Throw e, s1) =>
        match track false (Some (exn_message e)) [] s1 with
        | (Ok _, s2) =>
            (Ok {| content_text := "Error: " +:+ exn_message e;
                   isError := true |}, s2)
        | (Throw e', s2) => (Throw e', s2)
        end
    end.
Proof.
  unfold handle_call_tool, bind, try_catch, Date_now, ret.
  destruct (rt_now (st_world s)) as [startTime w0]. simpl.
  destruct (run_tool _ _ _ _ _) as [[text|e] s1]; reflexivity.
Qed.

End HandlerUnfolded.

Section TrackingIndependence.
Context {W : Type} `{R : Runtime W} `{ZodRender} (proc : Process).

(** Two tracking functions that always end normally cannot be told apart
    by the result of a [case] of the [switch]; and when the [case] throws,
    they were never called. *)
Lemma tool_case_track_irrelevant {A} (parse : result A)
    (handler : A -> M W string) (meta : A -> list (string * option string))
    (T1 T2 : bool -> option string -> list (string * option string) -> M W unit)
    (s : State W) :
  (forall a b c s0, (T1 a b c s0).1 = Ok ()) ->
  (forall a b c s0, (T2 a b c s0).1 = Ok ()) ->
  (bind (lift parse) (fun a => bind (handler a) (fun result =>
     bind (T1 true None (meta a)) (fun _ => ret result))) s).1
  = (bind (lift parse) (fun a => bind (handler a) (fun result =>
       bind (T2 true None (meta a)) (fun _ => ret result))) s).1
  /\ (forall e,
        (bind (lift parse) (fun a => bind (handler a) (fun result =>
           bind (T1 true None (meta a)) (fun _ => ret result))) s).1 = Throw e ->
        bind (lift parse) (fun a => bind (handler a) (fun result =>
          bind (T1 true None (meta a)) (fun _ => ret result))) s
        = bind (lift parse) (fun a => bind (handler a) (fun result =>
            bind (T2 true None (meta a)) (fun _ => ret result))) s).
Proof.
  intros H1 H2. unfold bind, lift, ret.
  destruct parse as [a|e0]; [| by split].
  destruct (handler a s) as [[text|e0] s1]; [| by split].
  specialize (H1 true None (meta a) s1). specialize (H2 true None (meta a) s1).
  destruct (T1 _ _ _ s1) as [[[]|?] ?]; destruct (T2 _ _ _ s1) as [[[]|?] ?];
    simpl in *; try discriminate.
  split; [reflexivity | discriminate].
Qed.

Lemma run_tool_track_irrelevant (name : string) (args : option json)
    (T1 T2 : bool -> option string -> list (string * option string) -> M W unit)
    (s : State W) :
  (forall a b c s0, (T1 a b c s0).1 = Ok ()) ->
  (forall a b c s0, (T2 a b c s0).1 = Ok ()) ->
  (run_tool proc name args T1 s).1 = (run_tool proc name args T2 s).1
  /\ (forall e, (run_tool proc name args T1 s).1 = Throw e ->
                run_tool proc name args T1 s = run_tool proc name args T2 s).
Proof.
  intros H1 H2. unfold run_tool.
  destruct (String.eqb name "search_skills");
    [exact (tool_case_track_irrelevant _ searchSkills
              (fun a => [("query", Some (search_query a))]) T1 T2 s H1 H2) |].
  destruct (String.eqb name "get_skill_detail");
    [exact (tool_case_track_irrelevant _ getSkillDetail
              (fun a => [("skill_id", Some (detail_skill_id a))]) T1 T2 s H1 H2) |].
  destruct (String.eqb name "install_skill");
    [exact (tool_case_track_irrelevant _ (installSkill proc)
              (fun a => [("skill_id", Some (skill_id a))]) T1 T2 s H1 H2) |].
  destruct (String.eqb name "browse_catalog");
    [exact (tool_case_track_irrelevant _ browseCatalog
              (fun a => [("category", browse_category a);
                         ("sort", Some (browse_sort a))]) T1 T2 s H1 H2) |].
  destruct (String.eqb name "recommend_skills");
    [exact (tool_case_track_irrelevant _ recommendSkills
              (fun a => [("context",
                          Some (Str.substring0 100 (recommend_context a)))])
              T1 T2 s H1 H2) |].
  by split.
Qed.

(** [trackMCPCall], call by call: the clock is read twice, for the duration
    and for the timestamp, then the event is posted; the call ends normally
    however the [fetch] ends. *)
Lemma trackMCPCall_exact (name : string) (args : option json) (startTime : Z)
    (success : bool) (error : option string)
    (metadata : list (string * option string)) (s : State W) :
  exists t,
    trackMCPCall proc name args startTime success error metadata s
    = (Ok (), {| st_world := (rt_fetch t (rt_now (rt_now (st_world s)).2).2).2;
                 st_log := st_log s ++ [EvTrack t] |})
    /\ event_tool t = name
    /\ event_success t = success
    /\ event_error t = error
    /\ event_duration_ms t = ((rt_now (st_world s)).1 - startTime)%Z
    /\ event_timestamp t = (rt_now (rt_now (st_world s)).2).1.
Proof.
  unfold trackMCPCall, try_catch, bind, Date_now, ret. simpl.
  destruct (rt_now (st_world s)) as [t1 w1]. simpl.
  destruct (rt_now w1) as [t2 w2]. simpl.
  match goal with
  | |- context [rt_fetch ?b w2] =>
      exists b; destruct (rt_fetch b w2) as [[|e|e] w3]
  end; by repeat split.
Qed.

(** A [case] of the [switch] is its work followed by the tracking call. *)
Lemma tool_case_work {A} (parse : result A) (handler : A -> M W string)
    (meta : A -> list (string * option string))
    (T : bool -> option string -> list (string * option string) -> M W unit)
    (s : State W) :
  exists m,
    bind (lift parse) (fun a => bind (handler a) (fun result =>
      bind (T true None (meta a)) (fun _ => ret result))) s
    = match bind (lift parse) (fun a => bind (handler a) (fun result =>
              bind (no_track true None (meta a)) (fun _ => ret result))) s with
      | (Ok text, s1) => bind (T true None m) (fun _ => ret text) s1
      | (Throw e, s1) => (Throw e, s1)
      end.
Proof.
  unfold bind, lift, no_track, ret.
  destruct parse as [a|e]; [| by exists []].
  exists (meta a). by destruct (handler a s) as [[text|e] s1].
Qed.

Lemma run_tool_work (name : string) (args : option json)
    (T : bool -> option string -> list (string * option string) -> M W unit)
    (s : State W) :
  exists m,
    run_tool proc name args T s
    = match run_tool proc name args no_track s with
      | (Ok text, s1) => bind (T true None m) (fun _ => ret text) s1
      | (Throw e, s1) => (Throw e, s1)
      end.
Proof.
  unfold run_tool.
  destruct (String.eqb name "search_skills");
    [exact (tool_case_work _ searchSkills
              (fun a => [("query", Some (search_query a))]) T s) |].
  destruct (String.eqb name "get_skill_detail");
    [exact (tool_case_work _ getSkillDetail
              (fun a => [("skill_id", Some (detail_skill_id a))]) T s) |].
  destruct (String.eqb name "install_skill");
    [exact (tool_case_work _ (installSkill proc)
              (fun a => [("skill_id", Some (skill_id a))]) T s) |].
  destruct (String.eqb name "browse_catalog");
    [exact (tool_case_work _ browseCatalog
              (fun a => [("category", browse_category a);
                         ("sort", Some (browse_sort a))]) T s) |].
  destruct (String.eqb name "recommend_skills");
    [exact (tool_case_work _ recommendSkills
              (fun a => [("context",
                          Some (Str.substring0 100 (recommend_context a)))])
              T s) |].
  by exists [].
Qed.

(** The handler is the work of the request followed by one tracking call:
    the result is the one the work ends with, and the event is posted with
    the clock read in the world the work left. *)
Lemma handle_call_tool_work (name : string) (args : option json) (s : State W) :
  let work := tool_work proc name args s in
  let clock := rt_now (st_world work.2) in
  let stamp := rt_now clock.2 in
  exists t,
    handle_call_tool proc name args s
    = (Ok (result_of_work work.1),
       {| st_world := (rt_fetch t stamp.2).2;
          st_log := st_log work.2 ++ [EvTrack t] |})
    /\ event_tool t = name
    /\ event_success t = negb (isError (result_of_work work.1))
    /\ event_error t = match work.1 with
                       | Ok _ => None
                       | Throw e => Some (exn_message e)
                       end
    /\ event_duration_ms t = (clock.1 - (rt_now (st_world s)).1)%Z
    /\ event_timestamp t = stamp.1.
Proof.
  cbn zeta. rewrite handle_call_tool_unfold. cbn zeta. unfold tool_work.
  set (startTime := (rt_now (st_world s)).1).
  set (s0 := {| st_world := (rt_now (st_world s)).2; st_log := st_log s |}).
  destruct (run_tool_work name args (trackMCPCall proc name args startTime) s0)
    as [m ->].
  destruct (run_tool proc name args no_track s0) as [[text|e] s1]; simpl.
  - destruct (trackMCPCall_exact name args startTime true None m s1)
      as (t & Htrack & Ht).
    unfold bind, ret. rewrite Htrack. by exists t.
  - destruct (trackMCPCall_exact name args startTime false
                (Some (exn_message e)) [] s1) as (t & Htrack & Ht).
    rewrite Htrack. by exists t.
Qed.

(** C6: every tool call fires exactly one tracking event, for that tool,
    with the success flag of the returned result, the error message of an
    error result and none otherwise, and the time elapsed between the start
    of the handler and the tracking call: the event is the last entry of
    the log, after everything the work of the request did, and its duration
    is the clock read in the world that work left minus the clock read when
    the handler started.  The handler returns the result of the work, and
    it returns normally and with the same result however the [fetch] of the
    tracking call ends. *)
Theorem tracking_once_and_swallowed (name : string) (args : option json)
    (s : State W) :
  (exists res s' delta t,
     handle_call_tool proc name args s = (Ok res, s')
     /\ st_log s' = st_log s ++ delta
     /\ tracks delta = [t]
     /\ event_tool t = name
     /\ event_success t = negb (isError res)
     /\ match event_error t with
        | Some msg => isError res = true
                      /\ content_text res = "Error: " +:+ msg
        | None => isError res = false
        end
     /\ res = result_of_work (tool_work proc name args s).1
     /\ st_log s' = st_log (tool_work proc name args s).2 ++ [EvTrack t]
     /\ event_duration_ms t
        = ((rt_now (st_world (tool_work proc name args s).2)).1
           - (rt_now (st_world s)).1)%Z
     /\ event_timestamp t
        = (rt_now (rt_now (st_world (tool_work proc name args s).2)).2).1
     /\ st_world s'
        = (rt_fetch t
             (rt_now (rt_now (st_world (tool_work proc name args s).2)).2).2).2)
  /\ (forall f : TrackEvent -> W -> FetchOutcome * W,
        (handle_call_tool (H := with_fetch R f) proc name args s).1
        = (handle_call_tool proc name args s).1).
Proof.
  split.
  - destruct (handle_call_tool_spec proc name args s)
      as (res & s' & delta & t & Hrun & Hlog & Htr & Hfacts & Herr & _).
    destruct Hfacts as (Ht1 & _ & Ht3 & _).
    destruct (handle_call_tool_work name args s)
      as (t2 & Hwork & _ & _ & _ & Hduration & Hstamp).
    cbn zeta in Hwork, Hduration, Hstamp.
    rewrite Hrun in Hwork. injection Hwork as Hres Hs'.
    assert (Hlast : st_log s ++ delta
                    = st_log (tool_work proc name args s).2 ++ [EvTrack t2]).
    { by rewrite <- Hlog, Hs'. }
    assert (Ht : t2 = t).
    { apply (f_equal tracks) in Hlast. rewrite !tracks_app, Htr in Hlast.
      simpl in Hlast. by apply app_inj_tail in Hlast as [_ ->]. }
    subst t2. exists res, s', delta, t.
    split; [exact Hrun |]. split; [exact Hlog |]. split; [exact Htr |].
    split; [exact Ht1 |]. split; [exact Ht3 |]. split; [exact Herr |].
    split; [exact Hres |]. rewrite Hs'. by repeat split.
  - intros f.
    rewrite (handle_call_tool_unfold (R := with_fetch R f)),
      (handle_call_tool_unfold (R := R)).
    cbn zeta.
    change (@rt_now W (with_fetch R f)) with (@rt_now W R).
    set (startTime := (rt_now (st_world s)).1).
    set (s0 := {| st_world := (rt_now (st_world s)).2; st_log := st_log s |}).
    set (T1 := trackMCPCall (H := with_fetch R f) proc name args startTime).
    set (T2 := trackMCPCall proc name args startTime).
    change (@run_tool W (with_fetch R f) _ proc name args T1)
      with (@run_tool W R _ proc name args T1).
    assert (H1 : forall a b c s1, (T1 a b c s1).1 = Ok ()).
    { intros a b c s1.
      destruct (trackMCPCall_spec (H := with_fetch R f) proc name args
                  startTime a b c s1) as (t & w' & Heq & _).
      unfold T1. by rewrite Heq. }
    assert (H2 : forall a b c s1, (T2 a b c s1).1 = Ok ()).
    { intros a b c s1.
      destruct (trackMCPCall_spec proc name args startTime a b c s1)
        as (t & w' & Heq & _).
      unfold T2. by rewrite Heq. }
    destruct (run_tool_track_irrelevant name args T1 T2 s0 H1 H2)
      as [Hfst Hthrow].
    destruct (run_tool proc name args T1 s0) as [[text|e] s1] eqn:E1.
    + destruct (run_tool proc name args T2 s0) as [[text'|e'] s1'];
        simpl in Hfst; [| discriminate].
      by injection Hfst as ->.
    + rewrite <- (Hthrow e eq_refl).
      specialize (H1 false (Some (exn_message e)) [] s1).
      specialize (H2 false (Some (exn_message e)) [] s1).
      destruct (T1 _ _ _ s1) as [[[]|?] ?]; destruct (T2 _ _ _ s1) as [[[]|?] ?];
        simpl in *; try discriminate. reflexivity.
Qed.

End TrackingIndependence.

(** ** Concrete runs *)

(** An agent-specific variable decides when there is no override. *)
Example detect_by_variable :
  detectCurrentAgent
    {| proc_env := <["OPENAI_API_KEY" := "sk-test"]> ∅;
       proc_homedir := "/home/u"; proc_cwd := "/work";
       proc_statSync := Sim.no_stat |} = "codex".
Proof. vm_compute. reflexivity. Qed.

(** An override outside the closed set is ignored. *)
Example detect_ignores_foreign_override :
  detectCurrentAgent
    {| proc_env := <["SKILLHUB_DEFAULT_AGENT" := "cursor"]> ∅;
       proc_homedir := "/home/u"; proc_cwd := "/work";
       proc_statSync := Sim.no_stat |} = "claude".
Proof. vm_compute. reflexivity. Qed.

(** The report for [claude] then [codex] when the root of [claude] is not
    writable. *)
Example partial_failure_report :
  (installSkill Sim.bare
     {| skill_id := "pdf"; agents := Some ["claude"; "codex"]; confirm := true |}
     (Sim.start Sim.world_ro)).1
  = Ok (Str.join Str.nl
          [ "# ✅ Installed: PDF";
            "";
            "## Successfully Installed";
            "✅ **codex**: `/home/u/.codex/skills/pdf/SKILL.md`";
            "";
            "> **Note:** Restart your AI agent or start a new conversation to load the skill.";
            "";
            "## Errors";
            "❌ **claude**: EACCES: permission denied, mkdir '/home/u/.claude/skills/pdf'";
            "";
            "## Skill Info";
            "- **Repository:** https://example.org/pdf";
            "- **Slug:** pdf" ]).
Proof. vm_compute. reflexivity. Qed.

(** The run behind that report: [mkdir] throws for [claude], and [codex]
    takes its turn all the same. *)
Example partial_failure_run :
  exists w',
    loop_run Sim.bare Sim.pdf ["claude"; "codex"] Sim.world_ro
      [ FsError "claude"
          "EACCES: permission denied, mkdir '/home/u/.claude/skills/pdf'";
        Installed "codex" "/home/u/.codex/skills/pdf/SKILL.md" ]
      [ EvMkdir "/home/u/.claude/skills/pdf";
        EvMkdir "/home/u/.codex/skills/pdf";
        EvWriteFile "/home/u/.codex/skills/pdf/SKILL.md" "# pdf" ]
      w'.
Proof.
  eexists.
  apply (loop_turn Sim.bare Sim.pdf "claude" ["codex"] Sim.world_ro _
           [EvMkdir "/home/u/.claude/skills/pdf"] Sim.world_ro).
  { apply (run_mkdir_fails Sim.bare Sim.pdf "claude" Sim.world_ro
             "/home/u/.claude/skills"
             (JsError "EACCES: permission denied, mkdir '/home/u/.claude/skills/pdf'"));
      vm_compute; reflexivity. }
  eapply (loop_turn Sim.bare Sim.pdf "codex" [] Sim.world_ro _
            [EvMkdir "/home/u/.codex/skills/pdf";
             EvWriteFile "/home/u/.codex/skills/pdf/SKILL.md" "# pdf"]
            _ [] []).
  { eapply (run_installed Sim.bare Sim.pdf "codex" Sim.world_ro
              "/home/u/.codex/skills"); vm_compute; reflexivity. }
  apply loop_done.
Qed.

(** An agent name that is an inherited property of the roots object makes
    [path.join] throw out of the loop; the schema never lets such a name
    through. *)
Example inherited_agent_throws :
  (install_loop Sim.bare Sim.pdf ["toString"; "claude"] (Sim.start Sim.world0)).1
  = Throw (path_TypeError "function toString").
Proof. vm_compute. reflexivity. Qed.

(** A name that is no property at all is recorded and the loop goes on. *)
Example unknown_agent_recorded :
  (install_loop Sim.bare Sim.pdf ["cursor"; "claude"] (Sim.start Sim.world0)).1
  = Ok ([Installed "claude" "/home/u/.claude/skills/pdf/SKILL.md"],
        [UnknownAgent "cursor"]).
Proof. vm_compute. reflexivity. Qed.

Example unknown_tool_result :
  let run := handle_call_tool (H0 := Sim.zod_render) Sim.bare "nope" None
               (Sim.start Sim.world0) in
  run.1 = Ok {| content_text := "Error: Unknown tool: nope"; isError := true |}
  /\ (event_success <$> tracks (st_log run.2)) = [false]
  /\ (event_error <$> tracks (st_log run.2)) = [Some "Unknown tool: nope"]
  /\ (event_duration_ms <$> tracks (st_log run.2)) = [1%Z].
Proof. vm_compute. repeat split. Qed.

(** The tracking endpoint being unreachable changes nothing for the caller. *)
Example tracking_failure_is_silent :
  let offline_world :=
    {| Sim.dirs := []; Sim.files := []; Sim.readonly := [];
       Sim.catalog := [("pdf", Sim.pdf)]; Sim.clock := 0; Sim.offline := true |} in
  let run := handle_call_tool (H0 := Sim.zod_render) Sim.bare "install_skill"
               (Some (JObj [("skill_id", JStr "pdf"); ("confirm", JBool true)]))
               (Sim.start offline_world) in
  is_Some (match run.1 with Ok res => Some res | Throw _ => None end)
  /\ Sim.files (st_world run.2) = [("/home/u/.claude/skills/pdf/SKILL.md", "# pdf")]
  /\ (event_success <$> tracks (st_log run.2)) = [true].
Proof. vm_compute. repeat split. by eexists. Qed.

(** The clock of the in-memory runtime starts at 1000 and advances by one at
    each reading: a confirmed install reads it at the start (1000), and the
    tracking call reads it after the work for the duration (1001) and again
    for the timestamp (1002). *)
Example tracked_duration_and_timestamp :
  let run := handle_call_tool (H0 := Sim.zod_render) Sim.bare "install_skill"
               (Some (JObj [("skill_id", JStr "pdf"); ("confirm", JBool true)]))
               (Sim.start Sim.world0) in
  (event_duration_ms <$> tracks (st_log run.2)) = [1%Z]
  /\ (event_timestamp <$> tracks (st_log run.2)) = [1002%Z]
  /\ last (st_log run.2)
     = (EvTrack <$> head (tracks (st_log run.2))).
Proof. vm_compute. by repeat split. Qed.

(** With no environment signal the configuration directories decide
    nothing, although [~/.codex] is a directory. *)
Example codex_directory_is_not_seen :
  detectCurrentAgent Sim.codex_home = "claude"
  /\ Sim.codex_home.(proc_statSync) "/home/u/.codex"
     = Ok {| isDirectory := true |}.
Proof. vm_compute. by split. Qed.

(** ** The theorems at concrete inputs *)

(** The override [gemini] against a set [claude] variable and existing
    directories; and the bare process. *)
Lemma detectAgent_override_and_default_witness :
  detectCurrentAgent Sim.gemini_override = "gemini"
  /\ detectCurrentAgent Sim.bare = "claude".
Proof.
  split.
  - apply (proj1 (detectAgent_override_and_default Sim.gemini_override) "gemini").
    + vm_compute. reflexivity.
    + unfold AgentKinds. do 2 apply list_elem_of_further. apply list_elem_of_here.
  - apply (proj2 (detectAgent_override_and_default Sim.bare)).
    + unfold no_env_signals, detection_signals.
      repeat (constructor; [vm_compute; reflexivity |]). constructor.
    + intros agent dir _. left. eexists. reflexivity.
Defined.


(** The same request, for the order of its report. *)
Lemma report_order_within_groups_witness :
  exists os report,
    (installSkill Sim.bare
       {| skill_id := "pdf"; agents := Some ["claude"; "codex"]; confirm := true |}
       (Sim.start Sim.world_ro)).1 = Ok report
    /\ outcome_agent <$> os = ["claude"; "codex"]
    /\ lines_in_order
         (section_lines "## Successfully Installed" (successes os)
          ++ section_lines "## Errors" (failures os))
         report.
Proof.
  destruct (report_order_within_groups Sim.bare
              {| skill_id := "pdf"; agents := Some ["claude"; "codex"];
                 confirm := true |}
              Sim.pdf (Sim.start Sim.world_ro) Sim.world_ro)
    as (os & delta & w' & report & s' & Hrun & _ & Hagents & Hlines & _).
  - reflexivity.
  - repeat (constructor; [compute_done |]). constructor.
  - reflexivity.
  - exists os, report. rewrite Hrun.
    split; [reflexivity |]. split; [exact Hagents | exact Hlines].
Defined.

Section Witnesses.
Import Sim.

(** A request without the [confirm] field. *)
Lemma preview_touches_nothing_witness :
  exists text,
    installSkill bare {| skill_id := "pdf"; agents := None; confirm := false |}
      (start world0)
    = (Ok text,
       {| st_world := world0;
          st_log := [EvClient (GetInstallInfo "pdf" ["claude"])] |})
    /\ Str.contains text "curl -sL x | sh"
    /\ Str.contains text "iwr x | iex".
Proof.
  destruct (preview_touches_nothing bare
              {| skill_id := "pdf"; agents := None; confirm := false |}
              (start world0)) as [_ Hpreview].
  destruct (Hpreview eq_refl) as (r & Hrun & Hok & _).
  destruct (Hok (Some (JObj [("skill_id", JStr "pdf")])) pdf eq_refl eq_refl)
    as (text & -> & Hunix & Hwin).
  exists text. split; [exact Hrun |]. split; [exact Hunix | exact Hwin].
Defined.

(** A request that names two agents. *)
Lemma validated_agents_have_roots_witness :
  Forall (fun a => a ∈ AgentKinds
                   /\ exists dir, install_dir bare a = Own dir
                                  /\ Str.is_empty dir = false)
         ["gemini"; "opencode"].
Proof.
  exact (proj1 (validated_agents_have_roots (W := World) bare
                  (Some (JObj [("skill_id", JStr "pdf");
                               ("agents", JArr [JStr "gemini"; JStr "opencode"])]))
                  {| skill_id := "pdf"; agents := Some ["gemini"; "opencode"];
                     confirm := false |}
                  eq_refl)).
Defined.

(** An unregistered name, and [install_skill] without its [skill_id]. *)
Lemma dispatcher_never_throws_witness :
  (exists res s', handle_call_tool bare "nope" None (start world0) = (Ok res, s')
                  /\ isError res = true
                  /\ content_text res = "Error: Unknown tool: nope")
  /\ (exists res s',
        handle_call_tool bare "install_skill" (Some (JObj [])) (start world0)
        = (Ok res, s')
        /\ isError res = true
        /\ content_text res = "Error: ZodError: invalid_type").
Proof.
  split.
  - destruct (dispatcher_never_throws bare "nope" None (start world0))
      as (res & s' & delta & Hrun & _ & Hunknown & _).
    destruct Hunknown as (Herr & Htext & _).
    { compute_done. }
    exists res, s'. split; [exact Hrun |]. split; [exact Herr | exact Htext].
  - destruct (dispatcher_never_throws bare "install_skill" (Some (JObj []))
                (start world0))
      as (res & s' & delta & Hrun & _ & _ & Hschema).
    destruct (Hschema (JsError "ZodError: invalid_type") eq_refl)
      as (Herr & Htext & _).
    exists res, s'. split; [exact Hrun |]. split; [exact Herr | exact Htext].
Defined.

End Witnesses.


(* ========================================================================= *)
(** * Further properties                                                      *)
(* ========================================================================= *)

(** ** More on agent detection *)

Lemma no_valid_override_fallthrough (p : Process) :
  ~ valid_override p -> detectCurrentAgent p = detect_without_override p.
Proof.
  intros Hno. unfold detectCurrentAgent.
  destruct (proc_env p !! "SKILLHUB_DEFAULT_AGENT") as [v|] eqn:E; [| reflexivity].
  destruct (is_agent_kind v) eqn:Ek; [| by rewrite andb_false_r].
  exfalso. apply Hno. exists v. split; [exact E | by apply is_agent_kind_spec].
Qed.

Lemma detect_without_override_ext (p q : Process) :
  (forall name, name ≠ "SKILLHUB_DEFAULT_AGENT" ->
                env_truthy p name = env_truthy q name) ->
  proc_homedir p = proc_homedir q ->
  detect_without_override p = detect_without_override q.
Proof.
  intros Henv Hhome. unfold detect_without_override.
  rewrite !(Henv _) by discriminate. by rewrite !config_dirs_unseen.
Qed.

Lemma first_config_dir_found stat (checks : list (string * string)) (a : string) :
  first_config_dir stat checks = Some a ->
  exists dir st, (a, dir) ∈ checks /\ stat dir = Ok st /\ isDirectory st = true.
Proof.
  induction checks as [|[agent dir] rest IH]; simpl; [discriminate |].
  destruct (stat dir) as [st|e] eqn:Es.
  - destruct (isDirectory st) eqn:Ed.
    + intros [= <-]. exists dir, st. split; [apply list_elem_of_here | done].
    + intros Hr. destruct (IH Hr) as (d & st' & Hin & Hok).
      exists d, st'. split; [by apply list_elem_of_further | exact Hok].
  - intros Hr. destruct (IH Hr) as (d & st' & Hin & Hok).
    exists d, st'. split; [by apply list_elem_of_further | exact Hok].
Qed.

(** X1: whatever the environment and the filesystem, the detected agent is
    one of the four agent kinds, so the default install target always has its
    install root [<home>/.<agent>/skills]. *)
Theorem default_target_has_root (p : Process) :
  DETECTED_AGENT p ∈ AgentKinds
  /\ install_dir p (DETECTED_AGENT p)
     = Own (Path.join [proc_homedir p; "." +:+ DETECTED_AGENT p; "skills"]).
Proof.
  pose proof (detectCurrentAgent_kind p) as Hk. unfold DETECTED_AGENT.
  split; [exact Hk | by apply install_dir_of_kind].
Qed.

(** X2: without a valid override the agent-specific variables decide in the
    order claude, codex, gemini, and they decide before any configuration
    directory is looked at. *)
Theorem env_signal_precedence (p : Process) :
  ~ valid_override p ->
  (claude_signal p = true -> detectCurrentAgent p = "claude")
  /\ (claude_signal p = false -> codex_signal p = true ->
      detectCurrentAgent p = "codex")
  /\ (claude_signal p = false -> codex_signal p = false ->
      gemini_signal p = true -> detectCurrentAgent p = "gemini").
Proof.
  intros Hno. rewrite (no_valid_override_fallthrough p Hno).
  unfold detect_without_override, claude_signal, codex_signal, gemini_signal.
  repeat split.
  - by intros ->.
  - by intros -> ->.
  - by intros -> -> ->.
Qed.

(** X3: an override that names none of the four agent kinds has no effect:
    detection answers as if the variable were not set. *)
Theorem invalid_override_ignored (p : Process) (v : string) :
  v ∉ AgentKinds ->
  detectCurrentAgent (set_env "SKILLHUB_DEFAULT_AGENT" v p)
  = detectCurrentAgent (unset_env "SKILLHUB_DEFAULT_AGENT" p).
Proof.
  intros Hv.
  rewrite !no_valid_override_fallthrough.
  - apply detect_without_override_ext; try reflexivity.
    intros name Hname. unfold env_truthy, set_env, unset_env. simpl.
    by rewrite lookup_insert_ne, lookup_delete_ne.
  - intros (a & Ha & _). unfold unset_env in Ha. simpl in Ha.
    by rewrite lookup_delete_eq in Ha.
  - intros (a & Ha & Hk). unfold set_env in Ha. simpl in Ha.
    rewrite lookup_insert_eq in Ha. by injection Ha as <-.
Qed.

(** X4: a variable set to the empty string counts as not set, for the
    override as for every signal variable. *)
Theorem empty_variable_is_unset (p : Process) (k : string) :
  detectCurrentAgent (set_env k "" p) = detectCurrentAgent (unset_env k p).
Proof.
  assert (Htruthy : forall name,
            env_truthy (set_env k "" p) name = env_truthy (unset_env k p) name).
  { intros name. unfold env_truthy, set_env, unset_env. simpl.
    destruct (decide (k = name)) as [-> | Hne].
    - by rewrite lookup_insert_eq, lookup_delete_eq.
    - by rewrite lookup_insert_ne, lookup_delete_ne. }
  assert (Hrest : detect_without_override (set_env k "" p)
                  = detect_without_override (unset_env k p)).
  { apply detect_without_override_ext; try reflexivity. intros name _. apply Htruthy. }
  unfold detectCurrentAgent. rewrite Hrest.
  unfold set_env, unset_env. simpl.
  destruct (decide (k = "SKILLHUB_DEFAULT_AGENT")) as [-> | Hne].
  - by rewrite lookup_insert_eq, lookup_delete_eq.
  - by rewrite lookup_insert_ne, lookup_delete_ne.
Qed.

(** X5: no environment variable stands for [opencode]: the detector answers
    [opencode] only when the override says so, or when no agent-specific
    variable is set and [~/.opencode] stats as a directory. *)
Theorem opencode_needs_override_or_directory (p : Process) :
  detectCurrentAgent p = "opencode" ->
  proc_env p !! "SKILLHUB_DEFAULT_AGENT" = Some "opencode"
  \/ (claude_signal p = false /\ codex_signal p = false
      /\ gemini_signal p = false
      /\ is_directory p (Path.join [proc_homedir p; ".opencode"])).
Proof.
  unfold detectCurrentAgent.
  assert (Hrest : detect_without_override p = "opencode" ->
            claude_signal p = false /\ codex_signal p = false
            /\ gemini_signal p = false
            /\ is_directory p (Path.join [proc_homedir p; ".opencode"])).
  { unfold detect_without_override, claude_signal, codex_signal, gemini_signal.
    destruct (env_truthy p "CLAUDE_CODE" || env_truthy p "ANTHROPIC_API_KEY");
      [discriminate |].
    destruct (env_truthy p "CODEX_HOME" || env_truthy p "OPENAI_API_KEY");
      [discriminate |].
    destruct (env_truthy p "GEMINI_API_KEY"); [discriminate |].
    destruct (first_config_dir _ _) as [a|] eqn:E; [| discriminate].
    intros ->. repeat split.
    destruct (first_config_dir_found _ _ _ E) as (dir & st & Hin & Hok & Hd).
    discriminate Hok. }
  destruct (proc_env p !! "SKILLHUB_DEFAULT_AGENT") as [v|]; [| by right; auto].
  destruct (negb (Str.is_empty v) && is_agent_kind v).
  - intros ->. by left.
  - intros Hd. right. by apply Hrest.
Qed.

(** ** More on the install loop *)

Section InstallTrace.
Context {W : Type} `{Runtime W} (proc : Process) (data : InstallInfo).

Lemma install_agent_trace (acc : list Outcome * list Outcome)
    (agent : string) (s : State W) :
  agent ∉ Object_prototype_keys ->
  exists o s' delta,
    install_agent proc data acc agent s = (Ok (push acc o), s')
    /\ st_log s' = st_log s ++ delta
    /\ step_trace proc data agent o delta.
Proof.
  intros Hkey. unfold install_agent, step_trace. destruct acc as [installed errors].
  destruct (install_dir proc agent) as [baseDir| |] eqn:Edir.
  - rewrite (install_dir_own_nonempty _ _ _ Edir). cbn zeta.
    destruct (security_check _ _ _) eqn:Esec; simpl.
    + unfold try_catch, bind, fs_mkdir, fs_writeFile, call, ret. simpl.
      destruct (rt_mkdir _ (st_world s)) as [[[]|e] w1]; simpl.
      * destruct (rt_writeFile _ _ w1) as [[[]|e] w2]; simpl.
        -- eexists (Installed agent _), _, _.
           split; [reflexivity |]. simpl.
           split; [by rewrite <- app_assoc |]. by left.
        -- eexists (FsError agent (exn_message e)), _, _.
           split; [reflexivity |]. simpl.
           split; [by rewrite <- app_assoc |]. right. eauto.
      * eexists (FsError agent (exn_message e)), _, _.
        split; [reflexivity |]. simpl.
        split; [reflexivity |]. right. eauto.
    + exists (SecurityError agent), s, [].
      split; [reflexivity |]. split; [by rewrite app_nil_r | done].
  - by apply install_dir_inherited in Edir.
  - exists (UnknownAgent agent), s, [].
    split; [reflexivity |]. split; [by rewrite app_nil_r | done].
Qed.

Lemma for_each_install_trace (targetAgents : list string)
    (acc : list Outcome * list Outcome) (s : State W) :
  Forall (fun a => a ∉ Object_prototype_keys) targetAgents ->
  exists os deltas s',
    for_each targetAgents (install_agent proc data) acc s
    = (Ok (acc.1 ++ successes os, acc.2 ++ failures os), s')
    /\ st_log s' = st_log s ++ concat deltas
    /\ Forall3 (step_trace proc data) targetAgents os deltas.
Proof.
  revert acc s.
  induction targetAgents as [|agent rest IH]; intros acc s Hkeys.
  - exists [], [], s. simpl. unfold ret, successes, failures.
    rewrite !filter_nil, !app_nil_r. destruct acc.
    repeat split. constructor.
  - apply Forall_cons in Hkeys as [Hkey Hrest].
    destruct (install_agent_trace acc agent s Hkey)
      as (o & s1 & d1 & Hstep & Hlog1 & Htrace).
    destruct (IH (push acc o) s1 Hrest)
      as (os & deltas & s2 & Hloop & Hlog2 & Htraces).
    exists (o :: os), (d1 :: deltas), s2.
    cbn [for_each]. unfold bind. rewrite Hstep, Hloop.
    split; [f_equal; f_equal; apply push_successes |].
    split; [simpl; by rewrite Hlog2, Hlog1, <- app_assoc |].
    by constructor.
Qed.

(** X6: the Execute loop, turn by turn.  The loop is the run of the
    requested agents in the order of the request, each turn decided by what
    the install root, the prefix test, [mkdir] and [writeFile] answer in the
    world the turn before it left: no install root, nothing done,
    unknown-agent failure; prefix test failed, nothing done, security
    failure; [mkdir] of [<root>/<slug>] threw, filesystem failure with the
    message of that error; [mkdir] went through and [writeFile] of
    [<root>/<slug>/SKILL.md] with the catalog's content threw, filesystem
    failure with the message of that error; both went through, success with
    that file.  The two arrays are the successes and the failures of the
    outcomes, the log grows by the calls of the turns, the world is the one
    the last turn left, and there is no other run. *)
Theorem execute_trace (targetAgents : list string) (s : State W) :
  Forall (fun a => a ∉ Object_prototype_keys) targetAgents ->
  exists os delta w',
    install_loop proc data targetAgents s
    = (Ok (successes os, failures os),
       {| st_world := w'; st_log := st_log s ++ delta |})
    /\ loop_run proc data targetAgents (st_world s) os delta w'
    /\ (forall os2 delta2 w2,
          loop_run proc data targetAgents (st_world s) os2 delta2 w2 ->
          os2 = os /\ delta2 = delta /\ w2 = w').
Proof.
  intros Hkeys.
  destruct (install_loop_run proc data targetAgents s Hkeys)
    as (os & delta & w' & Hloop & Hrun).
  exists os, delta, w'. split; [exact Hloop |]. split; [exact Hrun |].
  intros os2 delta2 w2 Hrun2.
  by destruct (loop_run_functional _ _ _ _ _ _ _ _ _ _ Hrun2 Hrun)
    as (-> & -> & ->).
Qed.

Lemma step_trace_events (agent : string) (o : Outcome) (delta : list Event)
    (e : Event) :
  step_trace proc data agent o delta ->
  e ∈ delta ->
  exists baseDir,
    install_dir proc agent = Own baseDir
    /\ security_check (proc_cwd proc) baseDir
         (Path.join [baseDir; skill_slug (info_skill data)]) = true
    /\ (e = EvMkdir (Path.join [baseDir; skill_slug (info_skill data)])
        \/ e = EvWriteFile
                 (Path.join [Path.join [baseDir; skill_slug (info_skill data)];
                             "SKILL.md"])
                 (install_content data)).
Proof.
  unfold step_trace. intros Htrace Hin.
  destruct (install_dir proc agent) as [baseDir| |];
    try (destruct Htrace as [_ ->]; by apply elem_of_nil in Hin).
  cbn zeta in Htrace.
  destruct (security_check _ _ _) eqn:Esec;
    [| destruct Htrace as [_ ->]; by apply elem_of_nil in Hin].
  exists baseDir. split; [reflexivity |]. split; [exact Esec |].
  destruct Htrace as [[_ ->] | (msg & _ & [-> | ->])];
    repeat (apply elem_of_cons in Hin as [-> | Hin]; [by auto |]);
    by apply elem_of_nil in Hin.
Qed.

(** X7: the Execute loop touches the filesystem only below directories that
    passed the prefix test: every call it makes is the [mkdir] of
    [<root>/<slug>] or the [writeFile] of [<root>/<slug>/SKILL.md] with the
    catalog's content, for a requested agent whose root and slug passed the
    test; and it makes at most two calls per requested agent. *)
Theorem execute_touches_checked_paths_only (targetAgents : list string)
    (s : State W) :
  Forall (fun a => a ∉ Object_prototype_keys) targetAgents ->
  exists r s' delta,
    install_loop proc data targetAgents s = (Ok r, s')
    /\ st_log s' = st_log s ++ delta
    /\ length delta <= 2 * length targetAgents
    /\ forall e, e ∈ delta ->
         exists agent baseDir,
           agent ∈ targetAgents
           /\ install_dir proc agent = Own baseDir
           /\ security_check (proc_cwd proc) baseDir
                (Path.join [baseDir; skill_slug (info_skill data)]) = true
           /\ (e = EvMkdir (Path.join [baseDir; skill_slug (info_skill data)])
               \/ e = EvWriteFile
                        (Path.join [Path.join [baseDir;
                                               skill_slug (info_skill data)];
                                    "SKILL.md"])
                        (install_content data)).
Proof.
  intros Hkeys.
  destruct (for_each_install_trace targetAgents ([], []) s Hkeys)
    as (os & deltas & s' & Hloop & Hlog & Htraces).
  eexists _, s', (concat deltas).
  split; [exact Hloop |]. split; [exact Hlog |].
  clear Hloop Hlog Hkeys.
  induction Htraces as [|agent o d rest os' ds Htrace _ [IHlen IHin]].
  - split; [simpl; lia |]. intros e Hin. by apply elem_of_nil in Hin.
  - split.
    + simpl. rewrite length_app.
      assert (length d <= 2); [| lia].
      unfold step_trace in Htrace.
      destruct (install_dir proc agent); try (destruct Htrace as [_ ->]; simpl; lia).
      cbn zeta in Htrace.
      destruct (security_check _ _ _); [| destruct Htrace as [_ ->]; simpl; lia].
      destruct Htrace as [[_ ->] | (msg & _ & [-> | ->])]; simpl; lia.
    + intros e Hin. simpl in Hin. apply elem_of_app in Hin as [Hin | Hin].
      * destruct (step_trace_events agent o d e Htrace Hin) as (b & Hd & Hs & He).
        exists agent, b. split; [apply list_elem_of_here | done].
      * destruct (IHin e Hin) as (a & b & Ha & Hrest).
        exists a, b. split; [by apply list_elem_of_further | exact Hrest].
Qed.

End InstallTrace.

Section EmptyAgentList.
Context {W : Type} `{Runtime W} (proc : Process).

(** X8: an explicitly empty [agents] array is not replaced by the detected
    agent: a confirmed install then touches no file and returns a report
    with neither a success nor an error section. *)
Theorem empty_agent_list_installs_nothing (args : InstallArgs)
    (data : InstallInfo) (s : State W) (w1 : W) :
  agents args = Some [] ->
  confirm args = true ->
  rt_getInstallInfo (skill_id args) [] (st_world s) = (Ok data, w1) ->
  installSkill proc args s
  = (Ok ("# ✅ Installed: " +:+ skill_name (info_skill data) +:+ Str.nl +:+ Str.nl
         +:+ "## Skill Info" +:+ Str.nl
         +:+ "- **Repository:** " +:+ skill_repo_url (info_skill data) +:+ Str.nl
         +:+ "- **Slug:** " +:+ skill_slug (info_skill data)),
     {| st_world := w1;
        st_log := st_log s ++ [EvClient (GetInstallInfo (skill_id args) [])] |}).
Proof.
  intros Hagents Hconfirm Hget.
  unfold installSkill, targetAgents_of, bind, getInstallInfo, call.
  rewrite Hagents, Hget, Hconfirm. simpl.
  unfold render_report. simpl. by rewrite !StrFacts.app_assoc.
Qed.

End EmptyAgentList.

(** ** More on the dispatcher *)

Section DispatcherShape.
Context {W : Type} `{R : Runtime W} `{ZodRender} (proc : Process).

Lemma installSkill_shape (args : InstallArgs) (s : State W) :
  Forall (fun a => a ∈ AgentKinds) (targetAgents_of proc args) ->
  exists r s' fs,
    installSkill proc args s = (r, s')
    /\ st_log s'
       = st_log s ++ EvClient (GetInstallInfo (skill_id args)
                                              (targetAgents_of proc args)) :: fs
    /\ Forall (fun e => is_fs_event e = true) fs
    /\ (fs = [] \/ confirm args = true).
Proof.
  intros Hkinds. unfold installSkill, bind, getInstallInfo, call.
  destruct (rt_getInstallInfo _ _ (st_world s)) as [[data|e] w1]; simpl.
  - destruct (confirm args); cbn [negb].
    + match goal with
      | |- context [install_loop proc data ?l ?s0] =>
          destruct (install_loop_spec proc data l s0
                      (kinds_not_inherited _ Hkinds))
            as (os & s' & delta & -> & _ & Hlog & Hfs & _)
      end.
      simpl in Hlog. eexists _, s', delta.
      split; [reflexivity |].
      split; [by rewrite Hlog, <- app_assoc |]. split; [exact Hfs | by right].
    + unfold lift. destruct (map_result _ _) as [lines|e];
        eexists _, _, []; (split; [reflexivity |]);
        (split; [reflexivity |]); (split; [constructor | by left]).
  - eexists _, _, []. split; [reflexivity |]. split; [reflexivity |].
    split; [constructor | by left].
Qed.

Lemma tool_case_shape {A} (name : string) (args : option json) (startTime : Z)
    (parse : result A) (handler : A -> M W string)
    (meta : A -> list (string * option string)) (P : A -> list Event -> Prop)
    (s : State W) :
  (forall a s0, parse = Ok a ->
     exists r s' d, handler a s0 = (r, s')
       /\ st_log s' = st_log s0 ++ d /\ P a d) ->
  exists r s' pre,
    bind (lift parse) (fun parsedArgs =>
      bind (handler parsedArgs) (fun result =>
        bind (trackMCPCall proc name args startTime true None (meta parsedArgs))
             (fun _ => ret result))) s = (r, s')
    /\ match r with
       | Ok _ => exists t, st_log s' = st_log s ++ pre ++ [EvTrack t]
       | Throw _ => st_log s' = st_log s ++ pre
       end
    /\ (pre = [] \/ exists a, parse = Ok a /\ P a pre).
Proof.
  intros Hhandler. unfold bind at 1. unfold lift.
  destruct parse as [a|e].
  - destruct (Hhandler a s eq_refl) as (r & s1 & d1 & Hrun & Hlog1 & HP).
    unfold bind at 1. rewrite Hrun.
    destruct r as [text|e].
    + destruct (trackMCPCall_spec proc name args startTime true None (meta a) s1)
        as (t & w' & Htrack & _).
      unfold bind, ret. rewrite Htrack.
      eexists _, _, d1. split; [reflexivity |]. simpl.
      split; [exists t; by rewrite Hlog1, <- app_assoc | right; eauto].
    + exists (Throw e), s1, d1.
      split; [reflexivity |]. split; [exact Hlog1 | right; eauto].
  - exists (Throw e), s, []. rewrite app_nil_r.
    split; [reflexivity |]. split; [reflexivity | by left].
Qed.

Local Ltac readonly_shape :=
  match goal with
  | |- exists r s' pre,
         bind (lift ?parse) (fun a => bind (?handler a)
           (fun result => bind (trackMCPCall _ ?name ?args ?start true None (@?meta a))
                               (fun _ => ret result))) ?s = _ /\ _ =>
      destruct (tool_case_shape name args start parse handler meta
                  (fun _ d => exists c, d = [EvClient c]) s)
        as (r & s' & pre & Hrun & Hlog & Hshape);
      [ intros a s0 _; unfold searchSkills, getSkillDetail, browseCatalog,
          recommendSkills, call;
        match goal with
        | |- context [let (_, _) := ?op (st_world s0) in _] =>
            destruct (op (st_world s0)) as [r0 w0]
        end; eexists _, _, _; split; [reflexivity |]; split; [reflexivity |]; eauto
      | exists r, s', pre; split; [exact Hrun |]; split; [exact Hlog |];
        destruct Hshape as [-> | (a & _ & c & ->)];
        [ by left
        | right; exists c, []; split; [reflexivity |];
          split; [constructor | by left] ] ]
  end.

Lemma run_tool_shape (name : string) (args : option json) (startTime : Z)
    (s : State W) :
  exists r s' pre,
    run_tool proc name args (trackMCPCall proc name args startTime) s = (r, s')
    /\ match r with
       | Ok _ => exists t, st_log s' = st_log s ++ pre ++ [EvTrack t]
       | Throw _ => st_log s' = st_log s ++ pre
       end
    /\ request_shape name args pre.
Proof.
  unfold run_tool, request_shape.
  destruct (String.eqb name "search_skills") eqn:E1; [readonly_shape |].
  destruct (String.eqb name "get_skill_detail") eqn:E2; [readonly_shape |].
  destruct (String.eqb name "install_skill") eqn:E3.
  { apply String.eqb_eq in E3 as ->.
    destruct (tool_case_shape "install_skill" args startTime
                (InstallSkillSchema args) (installSkill proc)
                (fun a => [("skill_id", Some (skill_id a))])
                (fun a d => exists c fs,
                   d = EvClient c :: fs
                   /\ Forall (fun e => is_fs_event e = true) fs
                   /\ (fs = [] \/ confirm a = true)) s)
      as (r & s' & pre & Hrun & Hlog & Hshape).
    - intros a s0 Hp.
      destruct (installSkill_shape a s0
                  (InstallSkillSchema_targets proc args a Hp))
        as (r & s' & fs & Hrun & Hlog & Hfs & Hc).
      exists r, s', (EvClient (GetInstallInfo (skill_id a)
                                              (targetAgents_of proc a)) :: fs).
      split; [exact Hrun |]. split; [exact Hlog |]. eauto.
    - exists r, s', pre. split; [exact Hrun |]. split; [exact Hlog |].
      destruct Hshape as [-> | (a & Hp & c & fs & -> & Hfs & Hc)]; [by left |].
      right. exists c, fs. split; [reflexivity |]. split; [exact Hfs |].
      destruct Hc as [-> | Hc]; [by left | right; eauto]. }
  destruct (String.eqb name "browse_catalog") eqn:E4; [readonly_shape |].
  destruct (String.eqb name "recommend_skills") eqn:E5; [readonly_shape |].
  exists (Throw (JsError ("Unknown tool: " +:+ name))), s, [].
  rewrite app_nil_r. split; [reflexivity |]. split; [reflexivity | by left].
Qed.

(** X9: the shape of every request.  The handler makes at most one catalog
    call, and makes it first; filesystem calls follow only for an
    [install_skill] whose arguments parse with [confirm] true; the tracking
    call is the last thing it does, and the only one of its kind. *)
Theorem request_log_shape (name : string) (args : option json) (s : State W) :
  exists res s' pre t,
    handle_call_tool proc name args s = (Ok res, s')
    /\ st_log s' = st_log s ++ pre ++ [EvTrack t]
    /\ request_shape name args pre.
Proof.
  rewrite handle_call_tool_unfold. cbn zeta.
  set (startTime := (rt_now (st_world s)).1).
  set (s0 := {| st_world := (rt_now (st_world s)).2; st_log := st_log s |}).
  destruct (run_tool_shape name args startTime s0)
    as (r & s1 & pre & Hrun & Hlog & Hshape).
  rewrite Hrun. destruct r as [text|e].
  - destruct Hlog as [t Hlog]. by eexists _, s1, pre, t.
  - destruct (trackMCPCall_spec proc name args startTime false
                (Some (exn_message e)) [] s1) as (t & w' & Htrack & _).
    rewrite Htrack. eexists _, _, pre, t.
    split; [reflexivity |]. simpl.
    split; [by rewrite Hlog, <- app_assoc | exact Hshape].
Qed.

Lemma run_tool_readonly (name : string) (args : option json)
    (track : bool -> option string -> list (string * option string) -> M W unit)
    (s : State W) (c : ClientCall) (op : W -> result string * W)
    (meta : list (string * option string)) :
  readonly_call name args = Some (c, op, meta) ->
  run_tool proc name args track s
  = match op (st_world s) with
    | (Ok text, w1) =>
        bind (track true None meta) (fun _ => ret text)
             {| st_world := w1; st_log := st_log s ++ [EvClient c] |}
    | (Throw e, w1) =>
        (Throw e, {| st_world := w1; st_log := st_log s ++ [EvClient c] |})
    end.
Proof.
  unfold readonly_call, run_tool.
  destruct (String.eqb name "search_skills").
  { destruct (SearchSkillsSchema args) as [a|e]; [| discriminate].
    intros [= <- <- <-]. unfold bind at 1 2, lift, searchSkills, call.
    by destruct (rt_search a (st_world s)) as [[text|e] w1]. }
  destruct (String.eqb name "get_skill_detail").
  { destruct (GetSkillDetailSchema args) as [a|e]; [| discriminate].
    intros [= <- <- <-]. unfold bind at 1 2, lift, getSkillDetail, call.
    by destruct (rt_getSkill a (st_world s)) as [[text|e] w1]. }
  destruct (String.eqb name "install_skill"); [discriminate |].
  destruct (String.eqb name "browse_catalog").
  { destruct (BrowseCatalogSchema args) as [a|e]; [| discriminate].
    intros [= <- <- <-]. unfold bind at 1 2, lift, browseCatalog, call.
    by destruct (rt_getCatalog a (st_world s)) as [[text|e] w1]. }
  destruct (String.eqb name "recommend_skills"); [| discriminate].
  destruct (RecommendSkillsSchema args) as [a|e]; [| discriminate].
  intros [= <- <- <-]. unfold bind at 1 2, lift, recommendSkills, call.
  by destruct (rt_publicRecommend a (st_world s)) as [[text|e] w1].
Qed.

(** X10: a read-only tool whose catalog call fails.  The error is not
    retried and not lost: the result is error-flagged with the error's
    message, the one tracking event says [success = false] with the same
    message, and nothing else was done. *)
Theorem upstream_error_surfaces (name : string) (args : option json)
    (s : State W) (c : ClientCall) (op : W -> result string * W)
    (meta : list (string * option string)) (e : exn) (w1 : W) :
  readonly_call name args = Some (c, op, meta) ->
  op (rt_now (st_world s)).2 = (Throw e, w1) ->
  exists t s',
    handle_call_tool proc name args s
    = (Ok {| content_text := "Error: " +:+ exn_message e; isError := true |}, s')
    /\ st_log s' = st_log s ++ [EvClient c; EvTrack t]
    /\ event_tool t = name
    /\ event_success t = false
    /\ event_error t = Some (exn_message e).
Proof.
  intros Hcall Hop. rewrite handle_call_tool_unfold. cbn zeta.
  rewrite (run_tool_readonly name args _ _ c op meta Hcall). simpl.
  rewrite Hop.
  match goal with
  | |- context [trackMCPCall proc name args ?st false ?err [] ?s1] =>
      destruct (trackMCPCall_spec proc name args st false err [] s1)
        as (t & w' & Htrack & Ht1 & _ & Ht3 & Ht4 & _)
  end.
  rewrite Htrack. eexists t, _. split; [reflexivity |]. simpl.
  split; [by rewrite <- app_assoc |]. done.
Qed.

(** X11: a read-only tool whose catalog call answers.  The handler's text is
    returned unchanged and not error-flagged, after one catalog call made
    with the parsed arguments and one tracking event that says
    [success = true] and carries the tool's metadata. *)
Theorem readonly_tool_passes_text_through (name : string) (args : option json)
    (s : State W) (c : ClientCall) (op : W -> result string * W)
    (meta : list (string * option string)) (text : string) (w1 : W) :
  readonly_call name args = Some (c, op, meta) ->
  op (rt_now (st_world s)).2 = (Ok text, w1) ->
  exists t s',
    handle_call_tool proc name args s
    = (Ok {| content_text := text; isError := false |}, s')
    /\ st_log s' = st_log s ++ [EvClient c; EvTrack t]
    /\ event_tool t = name
    /\ event_success t = true
    /\ event_error t = None
    /\ event_metadata t = meta
    /\ event_args t = args_or_empty args.
Proof.
  intros Hcall Hop. rewrite handle_call_tool_unfold. cbn zeta.
  rewrite (run_tool_readonly name args _ _ c op meta Hcall). simpl.
  rewrite Hop. unfold bind, ret.
  unfold trackMCPCall, try_catch, bind, Date_now, ret. simpl.
  destruct (rt_now w1) as [t1 w2]. simpl.
  destruct (rt_now w2) as [t2 w3]. simpl.
  match goal with
  | |- context [rt_fetch ?b w3] =>
      exists b; destruct (rt_fetch b w3) as [[|e'|e'] w4]
  end; eexists; (split; [reflexivity |]); simpl;
    (split; [by rewrite <- app_assoc |]); done.
Qed.

Lemma run_tool_install (args : option json)
    (track : bool -> option string -> list (string * option string) -> M W unit) :
  run_tool proc "install_skill" args track
  = bind (lift (InstallSkillSchema args)) (fun parsedArgs =>
      bind (installSkill proc parsedArgs) (fun result =>
        bind (track true None [("skill_id", Some (skill_id parsedArgs))])
             (fun _ => ret result))).
Proof. reflexivity. Qed.

(** X12: a confirmed install is never reported as an error once the catalog
    has answered: whatever the filesystem does to each agent, the result is
    the report, not error-flagged, and tracking says [success = true]. *)
Theorem confirmed_install_is_never_an_error (args : option json)
    (a : InstallArgs) (data : InstallInfo) (s : State W) (w1 : W) :
  InstallSkillSchema args = Ok a ->
  confirm a = true ->
  rt_getInstallInfo (skill_id a) (targetAgents_of proc a) (rt_now (st_world s)).2
  = (Ok data, w1) ->
  exists os t s',
    handle_call_tool proc "install_skill" args s
    = (Ok {| content_text :=
               render_report (info_skill data) (successes os) (failures os);
             isError := false |}, s')
    /\ outcome_agent <$> os = targetAgents_of proc a
    /\ tracks (st_log s') = tracks (st_log s) ++ [t]
    /\ event_success t = true.
Proof.
  intros Hparse Hconfirm Hget. rewrite handle_call_tool_unfold. cbn zeta.
  set (startTime := (rt_now (st_world s)).1).
  rewrite run_tool_install.
  unfold bind at 1. unfold lift. rewrite Hparse.
  pose proof (InstallSkillSchema_targets proc args a Hparse) as Hkinds.
  destruct (install_loop_spec proc data (targetAgents_of proc a)
              {| st_world := w1;
                 st_log := st_log s ++ [EvClient (GetInstallInfo (skill_id a)
                                                    (targetAgents_of proc a))] |}
              (kinds_not_inherited _ Hkinds))
    as (os & s1 & delta & Hloop & Hagents & Hlog & Hfs & _).
  assert (Hinstall :
            installSkill proc a
              {| st_world := (rt_now (st_world s)).2; st_log := st_log s |}
            = (Ok (render_report (info_skill data) (successes os) (failures os)),
               s1)).
  { unfold installSkill, bind, getInstallInfo, call. simpl.
    rewrite Hget, Hconfirm. cbn [negb]. by rewrite Hloop. }
  unfold bind at 1. rewrite Hinstall.
  destruct (trackMCPCall_spec proc "install_skill" args startTime true None
              [("skill_id", Some (skill_id a))] s1)
    as (t & w' & Htrack & _ & _ & Ht3 & _).
  unfold bind, ret. rewrite Htrack.
  exists os, t. eexists. split; [reflexivity |]. simpl.
  split; [exact Hagents |]. split; [| exact Ht3].
  rewrite tracks_app, Hlog. simpl. rewrite !tracks_app. simpl.
  rewrite (tracks_fs_events _ Hfs). by rewrite !app_nil_r.
Qed.

End DispatcherShape.

(** ** The schemas and the advertised tools *)

Lemma number_bounds (lo hi : option Q) (path : list string) (v : option json)
    (q : Q) :
  Zod.number lo hi path v = inr q ->
  (forall l, lo = Some l -> (l <= q)%Q) /\ (forall h, hi = Some h -> (q <= h)%Q).
Proof.
  unfold Zod.number. destruct v as [[| |x| | |]|]; try discriminate.
  destruct lo as [l|], hi as [h|]; simpl;
    repeat match goal with
           | |- context [Qle_bool ?a ?b] => destruct (Qle_bool a b) eqn:?
           end; simpl; try discriminate; intros [= <-];
    split; intros ? [= <-]; by apply Qle_bool_iff.
Qed.

Lemma default_number_bounds (d l h : Q) (path : list string) (v : option json)
    (q : Q) :
  (l <= d)%Q -> (d <= h)%Q ->
  Zod.default d (Zod.number (Some l) (Some h)) path v = inr q ->
  (l <= q)%Q /\ (q <= h)%Q.
Proof.
  intros Hl Hh. unfold Zod.default. destruct v as [x|].
  - intros Hn. destruct (number_bounds _ _ _ _ _ Hn) as [H1 H2]. eauto.
  - by intros [= <-].
Qed.

Lemma optional_number_bounds (l h : Q) (path : list string) (v : option json)
    (o : option Q) (q : Q) :
  Zod.optional (Zod.number (Some l) (Some h)) path v = inr o ->
  o = Some q -> (l <= q)%Q /\ (q <= h)%Q.
Proof.
  unfold Zod.optional. destruct v as [x|]; [| by intros [= <-]].
  destruct (Zod.number _ _ _ _) as [|q'] eqn:Hn; [discriminate |].
  intros [= <-] [= <-]. destruct (number_bounds _ _ _ _ _ Hn) as [H1 H2]. eauto.
Qed.

Lemma default_enum_member (d : string) (values path : list string)
    (v : option json) (x : string) :
  d ∈ values ->
  Zod.default d (Zod.enum values) path v = inr x -> x ∈ values.
Proof.
  intros Hd. unfold Zod.default, Zod.enum.
  destruct v as [[| | |y| |]|]; try discriminate; [| by intros [= <-]].
  case_bool_decide; [| discriminate]. by intros [= <-].
Qed.

Section SchemaProperties.
Context `{ZodRender}.

Local Ltac split_fields :=
  repeat match goal with
         | |- context [Zod.field ?k ?v ?f] =>
             let E := fresh "E" in
             destruct (Zod.field k v f) eqn:E; simpl; try discriminate
         end.

Lemma RecommendSkillsSchema_limit_bounds (raw : option json)
    (a : RecommendArgs) :
  RecommendSkillsSchema raw = Ok a ->
  (1 <= recommend_limit a)%Q /\ (recommend_limit a <= 10)%Q.
Proof.
  unfold RecommendSkillsSchema, Zod.object.
  destruct raw as [[| | | | |fields]|]; try discriminate.
  split_fields. intros [= <-]. simpl.
  unfold Zod.field in *.
  match goal with
  | Hl : Zod.default _ _ ["limit"] _ = inr _ |- _ =>
      by apply default_number_bounds in Hl
  end.
Qed.

(** X13: what the schemas let through is within bounds.  A parsed search has
    its limit in [1, 20]; a parsed catalog page its limit in [1, 50], a
    non-negative offset and one of the four sort orders; a parsed
    recommendation request its limit in [1, 10]; every parsed minimum score
    lies in [0, 100]; and a parsed agent list holds agent kinds only. *)
Theorem parsed_arguments_within_bounds (raw : option json) :
  (forall a, SearchSkillsSchema raw = Ok a ->
     (1 <= search_limit a)%Q /\ (search_limit a <= 20)%Q
     /\ forall m, search_min_score a = Some m -> (0 <= m)%Q /\ (m <= 100)%Q)
  /\ (forall a, BrowseCatalogSchema raw = Ok a ->
     (1 <= browse_limit a)%Q /\ (browse_limit a <= 50)%Q
     /\ (0 <= browse_offset a)%Q
     /\ browse_sort a ∈ ["score"; "stars"; "recent"; "composite"]
     /\ forall m, browse_min_score a = Some m -> (0 <= m)%Q /\ (m <= 100)%Q)
  /\ (forall a, RecommendSkillsSchema raw = Ok a ->
     (1 <= recommend_limit a)%Q /\ (recommend_limit a <= 10)%Q)
  /\ (forall a l, InstallSkillSchema raw = Ok a -> agents a = Some l ->
     Forall (fun x => x ∈ AgentKinds) l).
Proof.
  split; [| split; [| split]].
  - intros a. unfold SearchSkillsSchema, Zod.object.
    destruct raw as [[| | | | |fields]|]; try discriminate.
    split_fields. intros [= <-]. simpl.
    unfold Zod.field in *.
    match goal with
    | Hl : Zod.default _ _ ["limit"] _ = inr _ |- _ =>
        apply default_number_bounds in Hl as [? ?]; [| done | done]
    end.
    split; [done |]. split; [done |]. intros m Hm.
    eapply optional_number_bounds; eassumption.
  - intros a. unfold BrowseCatalogSchema, Zod.object.
    destruct raw as [[| | | | |fields]|]; try discriminate.
    split_fields. intros [= <-]. simpl.
    unfold Zod.field in *.
    match goal with
    | Hl : Zod.default _ _ ["limit"] _ = inr _ |- _ =>
        apply default_number_bounds in Hl as [? ?]; [| done | done]
    end.
    match goal with
    | Hs : Zod.default _ _ ["sort"] _ = inr _ |- _ =>
        apply default_enum_member in Hs; [| compute_done]
    end.
    match goal with
    | Ho : Zod.default _ _ ["offset"] _ = inr ?q |- _ =>
        assert (0 <= q)%Q
          by (unfold Zod.default in Ho;
              destruct (assoc "offset" fields);
              [ by apply (number_bounds _ _ _ _ _ Ho) | by injection Ho as <- ])
    end.
    repeat split; try done. all: intros; try done.
    all: match goal with
         | Hm : Zod.optional _ ["min_score"] _ = inr _ |- _ =>
             destruct (optional_number_bounds _ _ _ _ _ _ Hm ltac:(eassumption));
             done
         end.
  - intros a. apply RecommendSkillsSchema_limit_bounds.
  - intros a l. apply InstallSkillSchema_agents.
Qed.

(** X14: what a request may leave out.  A field that is absent parses to its
    default: a search limit of 5, no content in a detail, no confirmation of
    an install, the composite order with limit 10 and offset 0 for a catalog
    page, no current skills and a limit of 5 for a recommendation. *)
Theorem absent_fields_get_defaults (fields : list (string * json)) :
  (forall a, SearchSkillsSchema (Some (JObj fields)) = Ok a ->
     (assoc "limit" fields = None -> search_limit a = 5%Q)
     /\ (assoc "category" fields = None -> search_category a = None)
     /\ (assoc "min_score" fields = None -> search_min_score a = None))
  /\ (forall a, GetSkillDetailSchema (Some (JObj fields)) = Ok a ->
     assoc "include_content" fields = None -> detail_include_content a = false)
  /\ (forall a, InstallSkillSchema (Some (JObj fields)) = Ok a ->
     (assoc "confirm" fields = None -> confirm a = false)
     /\ (assoc "agents" fields = None -> agents a = None))
  /\ (forall a, BrowseCatalogSchema (Some (JObj fields)) = Ok a ->
     (assoc "sort" fields = None -> browse_sort a = "composite")
     /\ (assoc "limit" fields = None -> browse_limit a = 10%Q)
     /\ (assoc "offset" fields = None -> browse_offset a = 0%Q)
     /\ (assoc "category" fields = None -> browse_category a = None)
     /\ (assoc "min_score" fields = None -> browse_min_score a = None))
  /\ (forall a, RecommendSkillsSchema (Some (JObj fields)) = Ok a ->
     (assoc "current_skills" fields = None -> recommend_current_skills a = [])
     /\ (assoc "limit" fields = None -> recommend_limit a = 5%Q)).
Proof.
  unfold SearchSkillsSchema, GetSkillDetailSchema, InstallSkillSchema,
    BrowseCatalogSchema, RecommendSkillsSchema, Zod.object.
  split; [| split; [| split; [| split]]]; intros a;
    split_fields; intros [= <-]; simpl; repeat split; intros Hnone;
    unfold Zod.field, Zod.default, Zod.optional in *;
    rewrite Hnone in *; congruence.
Qed.

End SchemaProperties.

Section AdvertisedTools.
Context `{ZodRender} (p : Process).

Local Ltac tool_cases Ht :=
  unfold list_tools in Ht; rewrite !elem_of_cons, elem_of_nil in Ht;
  destruct Ht as [-> | [-> | [-> | [-> | [-> | []]]]]].

Local Ltac unfold_schemas :=
  unfold parse_tool; cbn [tool_name String.eqb Ascii.eqb Bool.eqb];
  unfold SearchSkillsSchema, GetSkillDetailSchema, InstallSkillSchema,
    BrowseCatalogSchema, RecommendSkillsSchema, Zod.object, Zod.field.

(** X15: the defaults the tool list advertises are the defaults the schemas
    apply: leaving a property out parses exactly like passing its advertised
    default. *)
Theorem advertised_defaults_are_applied (t : ToolDecl) (prop : ToolProperty)
    (d : json) (fields : list (string * json)) :
  t ∈ list_tools p ->
  prop ∈ tool_properties t ->
  prop_default prop = Some d ->
  assoc (prop_name prop) fields = None ->
  parse_tool (tool_name t) (Some (JObj ((prop_name prop, d) :: fields)))
  = parse_tool (tool_name t) (Some (JObj fields)).
Proof.
  intros Ht Hprop Hd Hnone.
  tool_cases Ht; cbn [tool_properties] in Hprop;
    rewrite !elem_of_cons, elem_of_nil in Hprop;
    repeat (destruct Hprop as [-> | Hprop]; [simpl in Hd; try discriminate |]);
    try (by destruct Hprop);
    injection Hd as <-; simpl in Hnone;
    unfold_schemas; simpl assoc; rewrite Hnone; reflexivity.
Qed.

(** X16: the schemas read nothing but the advertised properties: two
    argument objects that agree on the properties the tool list names parse
    to the same result, whatever else they hold. *)
Theorem schemas_read_advertised_properties_only (t : ToolDecl)
    (fields1 fields2 : list (string * json)) :
  t ∈ list_tools p ->
  (forall k, k ∈ (prop_name <$> tool_properties t) ->
             assoc k fields1 = assoc k fields2) ->
  parse_tool (tool_name t) (Some (JObj fields1))
  = parse_tool (tool_name t) (Some (JObj fields2)).
Proof.
  intros Ht Hsame.
  tool_cases Ht; cbn [tool_properties fmap list_fmap prop_name] in Hsame;
    unfold_schemas;
    repeat match goal with
           | |- context [assoc ?k fields1] =>
               rewrite (Hsame k) by (rewrite !elem_of_cons; auto 10)
           end; reflexivity.
Qed.

(** X17: the required properties of the tool list are required by the
    schemas, and they are all a call needs.  Arguments that are not an
    object, or that lack a required property, are refused; an object that
    gives each required property as a string and none of the others is
    accepted. *)
Theorem advertised_required_properties (t : ToolDecl) :
  t ∈ list_tools p ->
  (forall raw, is_object raw = false ->
     exists e, parse_tool (tool_name t) raw = Some (Throw e))
  /\ (forall r fields, r ∈ required_of t -> assoc r fields = None ->
     exists e, parse_tool (tool_name t) (Some (JObj fields)) = Some (Throw e))
  /\ (forall fields,
       (forall r, r ∈ required_of t -> exists v, assoc r fields = Some (JStr v)) ->
       (forall k, k ∈ (prop_name <$> tool_properties t) -> k ∉ required_of t ->
                  assoc k fields = None) ->
       exists a, parse_tool (tool_name t) (Some (JObj fields)) = Some (Ok a)).
Proof.
  intros Ht. split; [| split].
  - intros raw Hraw.
    tool_cases Ht; unfold_schemas;
      destruct raw as [[| | | | |fields]|]; try discriminate; simpl; eauto.
  - intros r fields Hr Hnone.
    tool_cases Ht; unfold required_of in Hr; simpl in Hr;
      rewrite ?elem_of_cons, ?elem_of_nil in Hr;
      try (destruct Hr as [-> | []]); try (by destruct Hr);
      unfold_schemas; rewrite Hnone; simpl;
      repeat case_match; simplify_eq; eauto.
  - intros fields Hreq Hopt.
    tool_cases Ht; unfold required_of in Hreq, Hopt; simpl in Hreq, Hopt;
      unfold_schemas;
      repeat match goal with
             | |- context [assoc ?k fields] =>
                 first
                   [ rewrite (Hopt k) by (rewrite ?elem_of_cons, ?elem_of_nil;
                                          first [ by auto 10 | compute_done ])
                   | let v := fresh "v" in
                     let Hv := fresh "Hv" in
                     destruct (Hreq k ltac:(rewrite ?elem_of_cons; auto)) as [v Hv];
                     rewrite Hv ]
             end; simpl; eauto.
Qed.

(** The tool list names exactly the tools the handler dispatches. *)
Lemma advertised_names : tool_name <$> list_tools p = registered_tools.
Proof. reflexivity. Qed.

End AdvertisedTools.

(** ** Resources *)

Section ResourceProperties.
Context {W : Type} `{ResourceClient W} `{NumberText}.

(** X18: reading a resource the list does not name throws
    [Unknown resource: <uri>] without calling the catalog; unlike a tool
    call, nothing turns this error into a result. *)
Theorem unknown_resource_throws (uri : string) (w : W) :
  uri ∉ (res_uri <$> list_resources) ->
  read_resource uri w = (Throw (JsError ("Unknown resource: " +:+ uri)), w).
Proof.
  intros Hno. unfold read_resource.
  destruct (String.eqb uri "skillhub://categories") eqn:E1.
  { apply String.eqb_eq in E1 as ->. exfalso. apply Hno. compute_done. }
  destruct (String.eqb uri "skillhub://popular") eqn:E2.
  { apply String.eqb_eq in E2 as ->. exfalso. apply Hno. compute_done. }
  destruct (String.eqb uri "skillhub://recent") eqn:E3.
  { apply String.eqb_eq in E3 as ->. exfalso. apply Hno. compute_done. }
  reflexivity.
Qed.

(** X19: every listed resource is served, the first by the categories, the
    second by the popular skills, the third by the recent skills: reading it
    makes that one catalog call, and when the catalog answers the result is a
    single content entry with the listed URI and the listed MIME type,
    holding the rendered text; when the catalog throws, so does the read,
    with the same error. *)
Theorem listed_resources_are_served (i : nat) (d : ResourceDecl) (w : W) :
  list_resources !! i = Some d ->
  exists (answer : result string * W),
    [getCategories w; getPopularSkills w; getRecentSkills w] !! i = Some answer
    /\ read_resource (res_uri d) w
       = (match answer.1 with
          | Ok text => Ok [ {| contents_uri := res_uri d;
                               contents_mimeType := res_mimeType d;
                               contents_text := text |} ]
          | Throw e => Throw e
          end, answer.2).
Proof.
  intros Hd. destruct i as [|[|[|i]]]; simpl in Hd; try discriminate;
    injection Hd as <-; unfold read_resource; simpl.
  - exists (getCategories w). split; [reflexivity |].
    by destruct (getCategories w) as [[text|e] w'].
  - exists (getPopularSkills w). split; [reflexivity |].
    by destruct (getPopularSkills w) as [[text|e] w'].
  - exists (getRecentSkills w). split; [reflexivity |].
    by destruct (getRecentSkills w) as [[text|e] w'].
Qed.

End ResourceProperties.

(** ** The selection step of the recommendations *)

Lemma to_integer_bounds (q : Q) (l h : Z) :
  (inject_Z l <= q)%Q -> (q <= inject_Z h)%Q -> (0 <= l)%Z ->
  (l <= to_integer q <= h)%Z.
Proof.
  unfold Qle, to_integer. destruct q as [n d]. simpl. intros Hl Hh H0.
  rewrite Z.mul_1_r in Hl, Hh.
  assert (0 <= n)%Z by nia.
  rewrite Z.quot_div_nonneg by lia.
  split.
  - apply Z.div_le_lower_bound; lia.
  - apply Z.div_le_upper_bound; lia.
Qed.

Lemma slice0_nonneg {A} (q : Q) (l : list A) :
  (0 <= to_integer q)%Z -> slice0 q l = take (Z.to_nat (to_integer q)) l.
Proof.
  intros Hq. unfold slice0.
  destruct (to_integer q <? 0)%Z eqn:E; [| reflexivity].
  apply Z.ltb_lt in E. lia.
Qed.

Section RecommendFilter.
Context `{ZodRender}.

(** X20: the selection of recommendations, for parsed arguments.  What is
    returned keeps the catalog's order, holds no entry whose id or slug is
    among the current skills, and has at most [limit] entries (so at most
    10); it is empty exactly when every recommendation is already among the
    current skills. *)
Theorem recommend_filter_selects (raw : option json) (a : RecommendArgs)
    (recs : list Recommendation) :
  RecommendSkillsSchema raw = Ok a ->
  recommend_filter a recs `sublist_of` recs
  /\ (forall r, r ∈ recommend_filter a recs ->
        (rec_id r ∉ recommend_current_skills a)
        /\ (rec_slug r ∉ recommend_current_skills a))
  /\ (Z.of_nat (length (recommend_filter a recs)) <= to_integer (recommend_limit a)
      <= 10)%Z
  /\ (recommend_filter a recs = [] <->
      forall r, r ∈ recs ->
        rec_id r ∈ recommend_current_skills a
        \/ rec_slug r ∈ recommend_current_skills a).
Proof.
  intros Hparse.
  destruct (RecommendSkillsSchema_limit_bounds raw a Hparse) as [Hlo Hhi].
  destruct (to_integer_bounds (recommend_limit a) 1 10 Hlo Hhi ltac:(lia))
    as [Hl Hh].
  unfold recommend_filter. rewrite slice0_nonneg by lia.
  set (n := Z.to_nat (to_integer (recommend_limit a))).
  set (kept := filter _ recs).
  split; [| split; [| split]].
  - etrans; [apply sublist_take | apply sublist_filter].
  - intros r Hr. apply elem_of_take in Hr as (i & Hi & _).
    apply list_elem_of_lookup_2 in Hi.
    by apply list_elem_of_filter in Hi as [Hi _].
  - rewrite length_take. lia.
  - split.
    + intros Hnil r Hr.
      destruct (decide (rec_id r ∈ recommend_current_skills a)) as [|Hid];
        [by left |].
      destruct (decide (rec_slug r ∈ recommend_current_skills a)) as [|Hslug];
        [by right |].
      exfalso.
      assert (Hk : r ∈ kept) by (apply list_elem_of_filter; by split).
      destruct kept as [|k0 kept']; [by apply elem_of_nil in Hk |].
      assert (n ≠ 0)%nat by lia. destruct n; [done | discriminate Hnil].
    + intros Hall.
      assert (Hk : kept = []).
      { destruct kept as [|k0 kept'] eqn:Ek; [reflexivity |].
        assert (Hin : k0 ∈ kept) by (rewrite Ek; apply list_elem_of_here).
        apply list_elem_of_filter in Hin as [[Hid Hslug] Hin].
        destruct (Hall k0 Hin); contradiction. }
      by rewrite Hk, take_nil.
Qed.

End RecommendFilter.

(** ** Paths *)

Module PathFacts.

Lemma split_nonempty (s : string) : Str.split_slash s ≠ [].
Proof.
  destruct s as [|a s]; simpl; [discriminate |].
  destruct (Ascii.eqb a Str.slash); [discriminate |].
  destruct (Str.split_slash s); discriminate.
Qed.

Lemma split_app_slash (a b : string) :
  Str.split_slash (a +:+ "/" +:+ b) = Str.split_slash a ++ Str.split_slash b.
Proof.
  induction a as [|c a IH].
  - reflexivity.
  - rewrite StrFacts.app_cons. simpl. rewrite IH.
    destruct (Ascii.eqb c Str.slash); [reflexivity |].
    pose proof (split_nonempty a) as Hne.
    destruct (Str.split_slash a) as [|seg rest]; [done | reflexivity].
Qed.

Lemma split_no_slash (s : string) :
  no_slash s = true -> Str.split_slash s = [s].
Proof.
  induction s as [|c s IH]; [reflexivity |]. simpl.
  intros [Hc Hs]%andb_true_iff. apply negb_true_iff in Hc. rewrite Hc.
  by rewrite (IH Hs).
Qed.

Lemma split_pieces_no_slash (s : string) :
  Forall (fun seg => no_slash seg = true) (Str.split_slash s).
Proof.
  induction s as [|c s IH]; simpl; [by repeat constructor |].
  destruct (Ascii.eqb c Str.slash) eqn:E; [by constructor |].
  destruct (Str.split_slash s) as [|seg rest]; [by repeat constructor; simpl; rewrite E |].
  apply Forall_cons in IH as [Hseg Hrest].
  constructor; [| exact Hrest]. simpl. by rewrite E, Hseg.
Qed.

Lemma join_cons (sep x y : string) (l : list string) :
  Str.join sep (x :: y :: l) = x +:+ sep +:+ Str.join sep (y :: l).
Proof. reflexivity. Qed.

Lemma join_snoc (sep x : string) (l : list string) :
  l ≠ [] -> Str.join sep (l ++ [x]) = Str.join sep l +:+ sep +:+ x.
Proof.
  induction l as [|y l IH]; [done |]. intros _.
  destruct l as [|z l]; [reflexivity |].
  change ((y :: z :: l) ++ [x]) with (y :: (z :: l) ++ [x]).
  change ((z :: l) ++ [x]) with (z :: (l ++ [x])) at 1.
  rewrite join_cons. change (z :: l ++ [x]) with ((z :: l) ++ [x]).
  rewrite IH by discriminate. rewrite join_cons.
  by rewrite !StrFacts.app_assoc.
Qed.

Lemma split_join (segs : list string) :
  segs ≠ [] ->
  Forall (fun seg => no_slash seg = true) segs ->
  Str.split_slash (Str.join "/" segs) = segs.
Proof.
  induction segs as [|x l IH]; [done |]. intros _ Hall.
  apply Forall_cons in Hall as [Hx Hl].
  destruct l as [|y l]; [by apply split_no_slash |].
  rewrite join_cons, split_app_slash, (split_no_slash x Hx).
  rewrite IH; [reflexivity | discriminate | exact Hl].
Qed.

Lemma first_is_slash_app (a b : string) :
  Str.is_empty a = false ->
  Str.first_is_slash (a +:+ b) = Str.first_is_slash a.
Proof. by destruct a. Qed.

Lemma no_slash_first (s : string) :
  no_slash s = true -> Str.first_is_slash s = false.
Proof.
  destruct s as [|c s]; [reflexivity |]. simpl.
  intros [Hc _]%andb_true_iff. by apply negb_true_iff in Hc.
Qed.

Lemma is_empty_app (a b : string) :
  Str.is_empty (a +:+ b) = Str.is_empty a && Str.is_empty b.
Proof. by destruct a. Qed.


Lemma push_skipped (a : bool) (acc : list string) (seg : string) :
  kept_segment seg = false -> Path.push_segment a acc seg = acc.
Proof.
  unfold kept_segment, Path.push_segment. intros Hk.
  apply negb_false_iff in Hk. by rewrite Hk.
Qed.

Lemma push_named (a : bool) (acc : list string) (seg : string) :
  named_segment seg = true -> Path.push_segment a acc seg = seg :: acc.
Proof.
  unfold named_segment, kept_segment, Path.push_segment.
  intros [Hk Hd]%andb_true_iff.
  apply negb_true_iff in Hk, Hd. by rewrite Hk, Hd.
Qed.

Lemma push_dotdot (a : bool) (acc : list string) :
  Path.push_segment a acc ".."
  = match acc with
    | top :: below =>
        if Path.is_dotdot top then (if a then ".." :: acc else acc) else below
    | [] => if a then [".."] else []
    end.
Proof. reflexivity. Qed.

Lemma plain_is_named (s : string) :
  plain_segment s = true -> named_segment s = true /\ no_slash s = true.
Proof.
  unfold plain_segment, named_segment, kept_segment, Path.is_dotdot.
  intros [[[Hn He]%andb_true_iff Hd]%andb_true_iff Hdd]%andb_true_iff.
  apply negb_true_iff in He, Hd. by rewrite He, Hd, Hdd, Hn.
Qed.

Lemma push_keeps (a : bool) (acc : list string) (seg : string) :
  Forall (fun x => kept_segment x = true) acc ->
  Forall (fun x => kept_segment x = true) (Path.push_segment a acc seg).
Proof.
  intros Hacc. destruct (kept_segment seg) eqn:Hk;
    [| by rewrite push_skipped].
  destruct (Path.is_dotdot seg) eqn:Hd.
  - apply String.eqb_eq in Hd as ->. rewrite push_dotdot.
    destruct acc as [|top below].
    + destruct a; by repeat constructor.
    + apply Forall_cons in Hacc as [Htop Hbelow].
      destruct (Path.is_dotdot top); [destruct a |]; by repeat constructor.
  - rewrite push_named by (unfold named_segment; by rewrite Hk, Hd).
    by constructor.
Qed.

Lemma push_no_slash (a : bool) (acc : list string) (seg : string) :
  no_slash seg = true ->
  Forall (fun x => no_slash x = true) acc ->
  Forall (fun x => no_slash x = true) (Path.push_segment a acc seg).
Proof.
  intros Hseg Hacc. unfold Path.push_segment.
  destruct (Str.is_empty seg || String.eqb seg "."); [exact Hacc |].
  destruct (Path.is_dotdot seg).
  - destruct acc as [|top below]; [destruct a; by repeat constructor |].
    apply Forall_cons in Hacc as [Htop Hbelow].
    destruct (Path.is_dotdot top); [destruct a |]; by repeat constructor.
  - by constructor.
Qed.

Lemma push_false_named (acc : list string) (seg : string) :
  Forall (fun x => named_segment x = true) acc ->
  Forall (fun x => named_segment x = true) (Path.push_segment false acc seg).
Proof.
  intros Hacc. destruct (kept_segment seg) eqn:Hk;
    [| by rewrite push_skipped].
  destruct (Path.is_dotdot seg) eqn:Hd.
  - apply String.eqb_eq in Hd as ->. rewrite push_dotdot.
    destruct acc as [|top below]; [constructor |].
    apply Forall_cons in Hacc as [Htop Hbelow].
    destruct (Path.is_dotdot top); by repeat constructor.
  - rewrite push_named by (unfold named_segment; by rewrite Hk, Hd).
    constructor; [| exact Hacc]. unfold named_segment. by rewrite Hk, Hd.
Qed.

Lemma fold_push_keeps (a : bool) (l acc : list string) :
  Forall (fun x => kept_segment x = true) acc ->
  Forall (fun x => kept_segment x = true) (fold_left (Path.push_segment a) l acc).
Proof.
  revert acc. induction l as [|x l IH]; intros acc Hacc; [exact Hacc |].
  simpl. by apply IH, push_keeps.
Qed.

Lemma fold_push_no_slash (a : bool) (l acc : list string) :
  Forall (fun x => no_slash x = true) l ->
  Forall (fun x => no_slash x = true) acc ->
  Forall (fun x => no_slash x = true) (fold_left (Path.push_segment a) l acc).
Proof.
  revert acc. induction l as [|x l IH]; intros acc Hl Hacc; [exact Hacc |].
  apply Forall_cons in Hl as [Hx Hl]. simpl. by apply IH, push_no_slash.
Qed.

Lemma fold_push_false_named (l acc : list string) :
  Forall (fun x => named_segment x = true) acc ->
  Forall (fun x => named_segment x = true)
         (fold_left (Path.push_segment false) l acc).
Proof.
  revert acc. induction l as [|x l IH]; intros acc Hacc; [exact Hacc |].
  simpl. by apply IH, push_false_named.
Qed.

(** Named segments are pushed one after the other. *)
Lemma fold_push_named (a : bool) (l acc : list string) :
  Forall (fun x => named_segment x = true) l ->
  fold_left (Path.push_segment a) l acc = rev l ++ acc.
Proof.
  revert acc. induction l as [|x l IH]; intros acc Hl; [reflexivity |].
  apply Forall_cons in Hl as [Hx Hl]. simpl.
  rewrite (push_named _ _ _ Hx), (IH _ Hl). by rewrite <- app_assoc.
Qed.

(** Replaying the normal form of a segment list has the effect of the list
    itself, on any stack and under either flag. *)
Lemma replay_normal_form (a : bool) (l acc : list string) :
  fold_left (Path.push_segment a)
            (rev (fold_left (Path.push_segment true) l [])) acc
  = fold_left (Path.push_segment a) l acc.
Proof.
  induction l as [|x l IH] using rev_ind; [reflexivity |].
  rewrite !fold_left_app. simpl. rewrite <- IH.
  set (nf := fold_left (Path.push_segment true) l []).
  assert (Hnf : Forall (fun y => kept_segment y = true) nf)
    by (apply fold_push_keeps; constructor).
  destruct (kept_segment x) eqn:Hk; [| by rewrite !push_skipped].
  destruct (Path.is_dotdot x) eqn:Hd.
  - apply String.eqb_eq in Hd as ->. rewrite (push_dotdot true).
    destruct nf as [|top below]; [reflexivity |].
    apply Forall_cons in Hnf as [Htop _].
    destruct (Path.is_dotdot top) eqn:Et.
    + change (rev (".." :: top :: below)) with (rev (top :: below) ++ [".."]).
      by rewrite fold_left_app.
    + change (rev (top :: below)) with (rev below ++ [top]).
      rewrite fold_left_app. simpl.
      rewrite (push_named a _ top) by (unfold named_segment; by rewrite Htop, Et).
      rewrite push_dotdot. by rewrite Et.
  - assert (Hx : named_segment x = true) by (unfold named_segment; by rewrite Hk, Hd).
    rewrite (push_named true _ _ Hx).
    change (rev (x :: nf)) with (rev nf ++ [x]).
    by rewrite fold_left_app.
Qed.

Lemma act_app (a : bool) (x y : string) (acc : list string) :
  act a (x +:+ "/" +:+ y) acc = act a y (act a x acc).
Proof. unfold act. by rewrite split_app_slash, fold_left_app. Qed.

Lemma act_empty (a : bool) (acc : list string) : act a "" acc = acc.
Proof. reflexivity. Qed.

Lemma act_trailing_slash (a : bool) (x : string) (acc : list string) :
  act a (x +:+ "/") acc = act a x acc.
Proof.
  change (x +:+ "/") with (x +:+ "/" +:+ ""). by rewrite act_app, act_empty.
Qed.

Lemma act_leading_slash (a : bool) (x : string) (acc : list string) :
  act a ("/" +:+ x) acc = act a x acc.
Proof.
  change ("/" +:+ x) with ("" +:+ "/" +:+ x). by rewrite act_app, act_empty.
Qed.

Lemma act_plain (a : bool) (s : string) (acc : list string) :
  plain_segment s = true -> act a s acc = s :: acc.
Proof.
  intros [Hn Hs]%plain_is_named. unfold act.
  rewrite (split_no_slash s Hs). simpl. by apply push_named.
Qed.

Lemma act_join (a : bool) (segs acc : list string) :
  Forall (fun seg => no_slash seg = true) segs ->
  act a (Str.join "/" segs) acc = fold_left (Path.push_segment a) segs acc.
Proof.
  intros Hall. unfold act.
  destruct segs as [|x l]; [reflexivity |].
  by rewrite split_join.
Qed.

Lemma act_keeps (a : bool) (p : string) (acc : list string) :
  Forall (fun x => kept_segment x = true) acc ->
  Forall (fun x => kept_segment x = true) (act a p acc).
Proof. apply fold_push_keeps. Qed.

Lemma act_no_slash (a : bool) (p : string) (acc : list string) :
  Forall (fun x => no_slash x = true) acc ->
  Forall (fun x => no_slash x = true) (act a p acc).
Proof. apply fold_push_no_slash, split_pieces_no_slash. Qed.

Lemma normalizeString_act (p : string) (a : bool) :
  Path.normalizeString p a = Str.join "/" (rev (act a p [])).
Proof. reflexivity. Qed.

Lemma join_kept_nonempty (l : list string) :
  Forall (fun x => kept_segment x = true) l ->
  l ≠ [] -> Str.is_empty (Str.join "/" l) = false.
Proof.
  intros Hl Hne. destruct l as [|x l]; [done |].
  apply Forall_cons in Hl as [Hx _].
  unfold kept_segment in Hx. apply negb_true_iff, orb_false_iff in Hx as [Hx _].
  destruct l as [|y l]; [exact Hx |].
  rewrite join_cons, is_empty_app. by rewrite Hx.
Qed.

Lemma join_kept_empty (l : list string) :
  Forall (fun x => kept_segment x = true) l ->
  Str.is_empty (Str.join "/" l) = true -> l = [].
Proof.
  intros Hl He. destruct l as [|x l]; [reflexivity |].
  rewrite join_kept_nonempty in He; [discriminate | exact Hl | discriminate].
Qed.

Lemma join_first_is_slash (l : list string) :
  Forall (fun x => kept_segment x = true) l ->
  Forall (fun x => no_slash x = true) l ->
  Str.first_is_slash (Str.join "/" l) = false.
Proof.
  intros Hk Hn. destruct l as [|x l]; [reflexivity |].
  apply Forall_cons in Hk as [Hx _]. apply Forall_cons in Hn as [Hnx _].
  unfold kept_segment in Hx. apply negb_true_iff, orb_false_iff in Hx as [Hx _].
  destruct l as [|y l]; [by apply no_slash_first |].
  rewrite join_cons, first_is_slash_app by exact Hx. by apply no_slash_first.
Qed.

End PathFacts.

Module NormalizeFacts.
Import PathFacts.

Lemma stack_kept (a : bool) (p : string) :
  Forall (fun x => kept_segment x = true) (rev (act a p [])).
Proof. apply Forall_rev, act_keeps. constructor. Qed.

Lemma stack_no_slash (a : bool) (p : string) :
  Forall (fun x => no_slash x = true) (rev (act a p [])).
Proof. apply Forall_rev, act_no_slash. constructor. Qed.

(** On a relative path, normalizing changes nothing to the effect of the
    path on any stack. *)
Lemma act_normalize_relative (a : bool) (p : string) (acc : list string) :
  Str.first_is_slash p = false ->
  act a (Path.normalize p) acc = act a p acc.
Proof.
  intros Hrel. unfold Path.normalize.
  destruct (Str.is_empty p) eqn:Hp; [by destruct p |].
  rewrite Hrel. cbn [negb]. rewrite normalizeString_act.
  assert (Hreplay : act a (Str.join "/" (rev (act true p []))) acc = act a p acc).
  { rewrite act_join by apply stack_no_slash. apply replay_normal_form. }
  destruct (Str.is_empty (Str.join "/" (rev (act true p [])))) eqn:Hq.
  - apply join_kept_empty in Hq; [| apply stack_kept].
    rewrite Hq in Hreplay. simpl in Hreplay. rewrite <- Hreplay.
    by destruct (Str.last_is_slash p).
  - destruct (Str.last_is_slash p); [| exact Hreplay].
    by rewrite act_trailing_slash.
Qed.

(** On an absolute path, normalizing changes nothing to what is left above
    the root. *)
Lemma act_normalize_absolute (p : string) :
  Str.first_is_slash p = true ->
  act false (Path.normalize p) [] = act false p [].
Proof.
  intros Habs. unfold Path.normalize.
  destruct (Str.is_empty p) eqn:Hp; [by destruct p |].
  rewrite Habs. cbn [negb]. rewrite normalizeString_act.
  assert (Hnamed : Forall (fun x => named_segment x = true) (act false p []))
    by (apply fold_push_false_named; constructor).
  assert (Hreplay : act false (Str.join "/" (rev (act false p []))) []
                    = act false p []).
  { rewrite act_join by apply stack_no_slash.
    rewrite fold_push_named by by apply Forall_rev.
    by rewrite rev_involutive, app_nil_r. }
  destruct (Str.is_empty (Str.join "/" (rev (act false p [])))) eqn:Hq.
  - apply join_kept_empty in Hq; [| apply stack_kept].
    rewrite Hq in Hreplay. by rewrite <- Hreplay.
  - rewrite act_leading_slash.
    destruct (Str.last_is_slash p); [| exact Hreplay].
    by rewrite act_trailing_slash.
Qed.

(** Normalizing keeps a path absolute or relative. *)
Lemma normalize_first_is_slash (p : string) :
  Str.is_empty p = false ->
  Str.first_is_slash (Path.normalize p) = Str.first_is_slash p.
Proof.
  intros Hp. unfold Path.normalize. rewrite Hp.
  destruct (Str.first_is_slash p) eqn:Habs; cbn [negb].
  - destruct (Str.is_empty (Path.normalizeString p false)); reflexivity.
  - rewrite normalizeString_act.
    destruct (Str.is_empty (Str.join "/" (rev (act true p [])))) eqn:Hq.
    + by destruct (Str.last_is_slash p).
    + destruct (Str.last_is_slash p).
      * rewrite first_is_slash_app by exact Hq.
        apply join_first_is_slash; [apply stack_kept | apply stack_no_slash].
      * apply join_first_is_slash; [apply stack_kept | apply stack_no_slash].
Qed.

(** [path.join] of two non-empty arguments. *)
Lemma join_two (b s : string) :
  Str.is_empty b = false -> Str.is_empty s = false ->
  Path.join [b; s] = Path.normalize (b +:+ "/" +:+ s).
Proof.
  intros Hb Hs. unfold Path.join.
  rewrite filter_cons_True by exact Hb.
  rewrite filter_cons_True by exact Hs.
  reflexivity.
Qed.


End NormalizeFacts.

Module ResolveFacts.
Import PathFacts NormalizeFacts.

Lemma resolve_spec (cwd p : string) :
  Str.is_empty p = false ->
  Path.resolve cwd p = render_resolved (resolved_stack cwd p).
Proof.
  intros Hp. unfold Path.resolve, resolved_stack, render_resolved. simpl.
  rewrite Hp. simpl.
  destruct (Str.first_is_slash p) eqn:Habs; simpl.
  - by rewrite normalizeString_act, act_trailing_slash.
  - destruct (Str.is_empty cwd) eqn:Hc; simpl.
    + by rewrite normalizeString_act, act_trailing_slash.
    + rewrite normalizeString_act, act_app, act_trailing_slash. reflexivity.
Qed.

(** Resolving a normalized path that ends in a plain segment: the stack of
    the path before that segment, with the segment on top. *)
Lemma resolved_stack_snoc (cwd x s : string) :
  Str.is_empty x = false -> plain_segment s = true ->
  resolved_stack cwd (Path.normalize (x +:+ "/" +:+ s))
  = ((resolved_stack cwd x).1, s :: (resolved_stack cwd x).2).
Proof.
  intros Hx Hs. unfold resolved_stack.
  assert (Hne : Str.is_empty (x +:+ "/" +:+ s) = false)
    by (rewrite is_empty_app; by rewrite Hx).
  rewrite (normalize_first_is_slash _ Hne), (first_is_slash_app _ _ Hx).
  destruct (Str.first_is_slash x) eqn:Habs.
  - rewrite act_normalize_absolute by (by rewrite first_is_slash_app).
    by rewrite act_app, act_plain.
  - destruct (Str.is_empty cwd); simpl;
      rewrite act_normalize_relative by (by rewrite first_is_slash_app);
      by rewrite act_app, act_plain.
Qed.

Lemma render_resolved_snoc (abs : bool) (st : list string) (s : string) :
  st ≠ [] ->
  Forall (fun x => kept_segment x = true) st ->
  kept_segment s = true ->
  render_resolved (abs, s :: st) = render_resolved (abs, st) +:+ "/" +:+ s.
Proof.
  intros Hne Hst Hs. unfold render_resolved. simpl.
  assert (Hrev : rev st ≠ []).
  { intros Heq. apply (f_equal (@rev string)) in Heq.
    rewrite rev_involutive in Heq. by apply Hne. }
  rewrite join_snoc by exact Hrev.
  assert (H1 : Str.is_empty (Str.join "/" (rev st)) = false)
    by (apply join_kept_nonempty; [by apply Forall_rev | exact Hrev]).
  destruct abs; [by rewrite StrFacts.app_assoc |].
  rewrite H1, is_empty_app, H1. reflexivity.
Qed.

Lemma resolved_stack_kept (cwd p : string) :
  Forall (fun x => kept_segment x = true) (resolved_stack cwd p).2.
Proof.
  unfold resolved_stack.
  destruct (Str.first_is_slash p); [apply act_keeps; constructor |].
  destruct (Str.is_empty cwd); simpl; repeat apply act_keeps; constructor.
Qed.

Lemma segments_app_slash (a b : string) :
  Path.segments (a +:+ "/" +:+ b) = Path.segments a ++ Path.segments b.
Proof. unfold Path.segments. by rewrite split_app_slash, filter_app. Qed.

Lemma segments_prefix_app (l k : list string) :
  Path.segments_prefix l (l ++ k) = true.
Proof.
  induction l as [|x l IH]; [reflexivity |]. simpl.
  by rewrite String.eqb_refl, IH.
Qed.

(** The install root of an agent kind is a normalized path that ends in the
    segment [skills]. *)
Lemma root_ends_in_skills (home agent : string) :
  exists x, Str.is_empty x = false
    /\ Path.join [home; "." +:+ agent; "skills"]
       = Path.normalize (x +:+ "/" +:+ "skills").
Proof.
  destruct home as [|c home].
  - exists ("." +:+ agent). split; [reflexivity |].
    unfold Path.join. rewrite filter_cons_False by (by intros ?).
    reflexivity.
  - exists (String c home +:+ "/" +:+ "." +:+ agent). split; [reflexivity |].
    unfold Path.join.
    rewrite !filter_cons_True by reflexivity. rewrite filter_nil.
    cbn [Str.join]. by rewrite !StrFacts.app_assoc.
Qed.

End ResolveFacts.

Section BenignSlug.
Import PathFacts NormalizeFacts ResolveFacts.

Lemma plain_slug_resolves (p : Process) (agent slug : string) :
  plain_segment slug = true ->
  let baseDir := Path.join [proc_homedir p; "." +:+ agent; "skills"] in
  Path.resolve (proc_cwd p) (Path.join [baseDir; slug])
  = Path.resolve (proc_cwd p) baseDir +:+ "/" +:+ slug.
Proof.
  intros Hslug baseDir.
  assert (Hb : Str.is_empty baseDir = false) by apply join_nonempty.
  assert (Hse : Str.is_empty slug = false).
  { unfold plain_segment in Hslug.
    apply andb_true_iff in Hslug as [[[_ He]%andb_true_iff _]%andb_true_iff _].
    by apply negb_true_iff in He. }
  rewrite (join_two _ _ Hb Hse).
  rewrite !resolve_spec by (exact Hb || apply normalize_nonempty).
  rewrite (resolved_stack_snoc _ _ _ Hb Hslug).
  destruct (root_ends_in_skills (proc_homedir p) agent) as (x & Hx & Hroot).
  fold baseDir in Hroot.
  pose proof (resolved_stack_snoc (proc_cwd p) x "skills" Hx eq_refl) as Hst.
  rewrite <- Hroot in Hst.
  pose proof (resolved_stack_kept (proc_cwd p) baseDir) as Hkept.
  destruct (resolved_stack (proc_cwd p) baseDir) as [abs st].
  simpl in *. injection Hst as -> ->.
  apply render_resolved_snoc; [discriminate | exact Hkept |].
  by apply plain_is_named in Hslug as [[Hk _]%andb_true_iff _].
Qed.

Lemma plain_slug_passes_check (p : Process) (agent slug : string) :
  plain_segment slug = true ->
  let baseDir := Path.join [proc_homedir p; "." +:+ agent; "skills"] in
  security_check (proc_cwd p) baseDir (Path.join [baseDir; slug]) = true.
Proof.
  intros Hslug baseDir. subst baseDir. unfold security_check.
  rewrite (plain_slug_resolves p agent slug Hslug).
  apply StrFacts.startsWith_app.
Qed.

(** X21: a slug that is one plain segment is never rejected.  For every
    home directory, working directory and agent kind, the directory computed
    for such a slug resolves to the resolved install root followed by a slash
    and the slug; it lies below the root component by component, and the
    prefix test of the Execute phase accepts it. *)
Theorem plain_slug_is_accepted (p : Process) (agent slug : string) :
  agent ∈ AgentKinds ->
  plain_segment slug = true ->
  exists baseDir,
    install_dir p agent = Own baseDir
    /\ Path.resolve (proc_cwd p) (Path.join [baseDir; slug])
       = Path.resolve (proc_cwd p) baseDir +:+ "/" +:+ slug
    /\ Path.within_root (Path.resolve (proc_cwd p) baseDir)
         (Path.resolve (proc_cwd p) (Path.join [baseDir; slug])) = true
    /\ security_check (proc_cwd p) baseDir (Path.join [baseDir; slug]) = true.
Proof.
  intros Hkind Hslug.
  exists (Path.join [proc_homedir p; "." +:+ agent; "skills"]).
  split; [by apply install_dir_of_kind |].
  pose proof (plain_slug_resolves p agent slug Hslug) as Hresolve.
  cbn zeta in Hresolve.
  split; [exact Hresolve |]. split.
  - rewrite Hresolve. unfold Path.within_root.
    rewrite segments_app_slash. apply segments_prefix_app.
  - by apply plain_slug_passes_check.
Qed.


End BenignSlug.

Section PlainSlugInstall.
Context {W : Type} `{Runtime W} (proc : Process) (data : InstallInfo).

(** X23: with a slug that is one plain segment, only the filesystem can make
    an agent fail: for agent kinds the Execute loop records neither an
    unknown-agent nor a security failure, so every entry of the error section
    carries the message of a failed [mkdir] or [writeFile]. *)
Theorem plain_slug_fails_only_on_filesystem (targetAgents : list string)
    (s : State W) :
  Forall (fun a => a ∈ AgentKinds) targetAgents ->
  plain_segment (skill_slug (info_skill data)) = true ->
  exists installed errors s',
    install_loop proc data targetAgents s = (Ok (installed, errors), s')
    /\ length installed + length errors = length targetAgents
    /\ Forall (fun o => exists msg, o = FsError (outcome_agent o) msg) errors.
Proof.
  intros Hkinds Hslug.
  destruct (for_each_install_trace proc data targetAgents ([], []) s
              (kinds_not_inherited _ Hkinds))
    as (os & deltas & s' & Hloop & _ & Htraces).
  exists (successes os), (failures os), s'. split; [exact Hloop |].
  assert (Hlen : length os = length targetAgents).
  { clear -Htraces. induction Htraces; simpl; congruence. }
  split.
  - rewrite <- Hlen, <- length_app.
    apply Permutation_length, filter_app_complement.
  - apply Forall_forall. intros o Ho.
    apply list_elem_of_filter in Ho as [Hfail Ho].
    clear Hloop Hlen. revert Hkinds.
    induction Htraces as [|agent o' d rest os' ds Htrace _ IH]; intros Hkinds;
      [by apply elem_of_nil in Ho |].
    apply Forall_cons in Hkinds as [Hkind Hrest].
    apply elem_of_cons in Ho as [-> | Ho]; [| by apply IH].
    pose proof (install_dir_of_kind proc agent Hkind) as Hdir.
    pose proof (plain_slug_passes_check proc agent _ Hslug) as Hsec.
    cbn zeta in Hsec.
    unfold step_trace in Htrace. rewrite Hdir in Htrace. cbn zeta in Htrace.
    rewrite Hsec in Htrace.
    destruct Htrace as [[-> _] | (msg & -> & _)]; [by destruct Hfail |].
    by exists msg.
Qed.

End PlainSlugInstall.

(** ** The tracking call *)

Lemma replace_first_here (pat rep s : string) :
  Str.startsWith s pat = true ->
  Str.replace_first pat rep s = rep +:+ Str.drop (String.length pat) s.
Proof. intros Hs. destruct s; simpl; by rewrite Hs. Qed.

Lemma replace_first_absent (pat rep s : string) :
  occurs pat s = false -> Str.replace_first pat rep s = s.
Proof.
  induction s as [|c s IH]; simpl.
  - intros [Hs _]%orb_false_iff. by rewrite Hs.
  - intros [Hs Hrest]%orb_false_iff. rewrite Hs. by rewrite IH.
Qed.

Lemma startsWith_app_long (a b pat : string) :
  String.length pat <= String.length a ->
  Str.startsWith (a +:+ b) pat = Str.startsWith a pat.
Proof.
  revert a. induction pat as [|c pat IH]; intros a Hlen; [reflexivity |].
  destruct a as [|x a]; [simpl in Hlen; lia |].
  rewrite StrFacts.app_cons. simpl.
  destruct (Ascii.eqb x c); [| reflexivity].
  apply IH. simpl in Hlen. lia.
Qed.

Lemma drop_app_length (a b : string) :
  Str.drop (String.length a) (a +:+ b) = b.
Proof. induction a as [|c a IH]; [by destruct b | exact IH]. Qed.

Lemma length_app_string (a b : string) :
  String.length (a +:+ b) = String.length a + String.length b.
Proof.
  induction a as [|c a IH]; [reflexivity |].
  rewrite StrFacts.app_cons. simpl. by rewrite IH.
Qed.

(** The first occurrence of the API suffix is the one that is removed. *)
Lemma replace_first_api_suffix (pre post : string) :
  occurs "/api/v1" (pre +:+ "/api/v") = false ->
  Str.replace_first "/api/v1" "" (pre +:+ "/api/v1" +:+ post) = pre +:+ post.
Proof.
  induction pre as [|c pre IH]; intros Hocc.
  - rewrite replace_first_here by reflexivity. reflexivity.
  - rewrite (StrFacts.app_cons c pre) in *.
    cbn [occurs] in Hocc. apply orb_false_iff in Hocc as [Hhere Hrest].
    cbn [Str.replace_first].
    assert (Hno : Str.startsWith (String c (pre +:+ "/api/v1" +:+ post)) "/api/v1"
                  = false).
    { transitivity (Str.startsWith (String c (pre +:+ "/api/v")) "/api/v1");
        [| exact Hhere].
      assert (Heq : pre +:+ "/api/v1" +:+ post
                    = (pre +:+ "/api/v") +:+ "1" +:+ post)
        by (rewrite StrFacts.app_assoc; reflexivity).
      rewrite Heq, <- StrFacts.app_cons.
      apply startsWith_app_long.
      simpl. rewrite length_app_string. simpl. lia. }
    rewrite Hno. by rewrite (IH Hrest).
Qed.




Section TrackingDetails.
Context {W : Type} `{R : Runtime W} `{ZodRender} (proc : Process).

(** X24: where tracking posts to.  The endpoint is the API base with its
    first [/api/v1] removed, followed by [/api/v1/desktop/track]: for a base
    that holds [/api/v1] this is the text before it, the text after it and
    the endpoint path; for a base without it, the base and the endpoint
    path. *)
Theorem tracking_endpoint (name : string) (args : option json) (startTime : Z)
    (success : bool) (error : option string)
    (metadata : list (string * option string)) (s : State W) :
  exists t w',
    trackMCPCall proc name args startTime success error metadata s
    = (Ok (), {| st_world := w'; st_log := st_log s ++ [EvTrack t] |})
    /\ (forall pre post,
          SKILLHUB_API_BASE proc = pre +:+ "/api/v1" +:+ post ->
          occurs "/api/v1" (pre +:+ "/api/v") = false ->
          track_url t = pre +:+ post +:+ "/api/v1/desktop/track")
    /\ (occurs "/api/v1" (SKILLHUB_API_BASE proc) = false ->
        track_url t = SKILLHUB_API_BASE proc +:+ "/api/v1/desktop/track").
Proof.
  unfold trackMCPCall, try_catch, bind, Date_now, ret. simpl.
  destruct (rt_now (st_world s)) as [t1 w1]. simpl.
  destruct (rt_now w1) as [t2 w2]. simpl.
  match goal with
  | |- context [rt_fetch ?b w2] =>
      exists b; destruct (rt_fetch b w2) as [[|e|e] w3]
  end; exists w3; (split; [reflexivity |]); simpl; split;
    try (intros pre post -> Hocc; rewrite (replace_first_api_suffix _ _ Hocc);
         by rewrite StrFacts.app_assoc);
    intros Hocc; by rewrite (replace_first_absent _ _ _ Hocc).
Qed.


End TrackingDetails.

(** ** The further properties at concrete inputs *)

Section MoreWitnesses.
Import Sim Sim2.

(** The variables of codex and gemini both set: codex wins. *)
Lemma env_signal_precedence_witness :
  detectCurrentAgent codex_and_gemini = "codex".
Proof.
  assert (Hno : ~ valid_override codex_and_gemini).
  { intros (a & Ha & _). vm_compute in Ha. discriminate. }
  apply (proj1 (proj2 (env_signal_precedence codex_and_gemini Hno)));
    vm_compute; reflexivity.
Defined.

(** An override that names an editor this server does not know. *)
Lemma invalid_override_ignored_witness :
  detectCurrentAgent (set_env "SKILLHUB_DEFAULT_AGENT" "cursor" bare)
  = detectCurrentAgent (unset_env "SKILLHUB_DEFAULT_AGENT" bare).
Proof. apply (invalid_override_ignored bare "cursor"). compute_done. Defined.

(** [opencode] chosen by the override. *)
Lemma opencode_needs_override_or_directory_witness :
  let p := set_env "SKILLHUB_DEFAULT_AGENT" "opencode" bare in
  proc_env p !! "SKILLHUB_DEFAULT_AGENT" = Some "opencode"
  \/ (claude_signal p = false /\ codex_signal p = false
      /\ gemini_signal p = false
      /\ is_directory p (Path.join [proc_homedir p; ".opencode"])).
Proof.
  apply (opencode_needs_override_or_directory
           (set_env "SKILLHUB_DEFAULT_AGENT" "opencode" bare)).
  vm_compute. reflexivity.
Defined.

(** Two agents, the first one not writable. *)
Lemma execute_trace_witness :
  exists os delta w',
    install_loop bare pdf ["claude"; "codex"] (start world_ro)
    = (Ok (successes os, failures os), {| st_world := w'; st_log := delta |})
    /\ loop_run bare pdf ["claude"; "codex"] world_ro os delta w'.
Proof.
  destruct (execute_trace bare pdf ["claude"; "codex"] (start world_ro))
    as (os & delta & w' & Hrun & Hturns & _).
  - repeat (constructor; [compute_done |]). constructor.
  - exists os, delta, w'. split; [exact Hrun | exact Hturns].
Defined.

Lemma execute_touches_checked_paths_only_witness :
  exists r s' delta,
    install_loop bare pdf ["claude"; "codex"] (start world_ro) = (Ok r, s')
    /\ st_log s' = delta
    /\ length delta <= 4.
Proof.
  destruct (execute_touches_checked_paths_only bare pdf ["claude"; "codex"]
              (start world_ro))
    as (r & s' & delta & Hrun & Hlog & Hlen & _).
  - repeat (constructor; [compute_done |]). constructor.
  - exists r, s', delta. split; [exact Hrun |]. split; [exact Hlog | exact Hlen].
Defined.

(** A confirmed install for an empty list of agents. *)
Lemma empty_agent_list_installs_nothing_witness :
  (installSkill bare {| skill_id := "pdf"; agents := Some []; confirm := true |}
     (start world0)).2
  = {| st_world := world0; st_log := [EvClient (GetInstallInfo "pdf" [])] |}.
Proof.
  rewrite (empty_agent_list_installs_nothing (H := runtime) bare
             {| skill_id := "pdf"; agents := Some []; confirm := true |}
             pdf (start world0) world0 eq_refl eq_refl eq_refl).
  reflexivity.
Defined.

(** A search while the catalog cannot be reached. *)
Lemma upstream_error_surfaces_witness :
  exists t s',
    handle_call_tool (H := catalog_down) bare "search_skills"
      (Some (JObj [("query", JStr "pdf")])) (start world0)
    = (Ok {| content_text := "Error: catalog unreachable"; isError := true |}, s')
    /\ event_success t = false.
Proof.
  edestruct (upstream_error_surfaces (R := catalog_down) bare "search_skills"
               (Some (JObj [("query", JStr "pdf")])) (start world0))
    as (t & s' & Hrun & _ & _ & Hfalse & _).
  - reflexivity.
  - reflexivity.
  - exists t, s'. split; [exact Hrun | exact Hfalse].
Defined.

(** The same search with the catalog answering. *)
Lemma readonly_tool_passes_text_through_witness :
  exists t s',
    handle_call_tool bare "search_skills"
      (Some (JObj [("query", JStr "pdf")])) (start world0)
    = (Ok {| content_text := "search results"; isError := false |}, s')
    /\ event_metadata t = [("query", Some "pdf")].
Proof.
  edestruct (readonly_tool_passes_text_through bare "search_skills"
               (Some (JObj [("query", JStr "pdf")])) (start world0))
    as (t & s' & Hrun & _ & _ & _ & _ & Hmeta & _).
  - reflexivity.
  - reflexivity.
  - exists t, s'. split; [exact Hrun | exact Hmeta].
Defined.

(** A confirmed install whose first agent cannot be written. *)
Lemma confirmed_install_is_never_an_error_witness :
  exists res s',
    handle_call_tool bare "install_skill"
      (Some (JObj [("skill_id", JStr "pdf");
                   ("agents", JArr [JStr "claude"; JStr "codex"]);
                   ("confirm", JBool true)]))
      (start world_ro)
    = (Ok res, s')
    /\ isError res = false.
Proof.
  edestruct (confirmed_install_is_never_an_error bare
               (Some (JObj [("skill_id", JStr "pdf");
                            ("agents", JArr [JStr "claude"; JStr "codex"]);
                            ("confirm", JBool true)]))
               {| skill_id := "pdf"; agents := Some ["claude"; "codex"];
                  confirm := true |}
               pdf (start world_ro))
    as (os & t & s' & Hrun & _).
  - reflexivity.
  - reflexivity.
  - reflexivity.
  - eexists _, s'. split; [exact Hrun | reflexivity].
Defined.

(** A search for seven results. *)
Lemma parsed_arguments_within_bounds_witness :
  (1 <= 7)%Q /\ (7 <= 20)%Q.
Proof.
  destruct (proj1 (parsed_arguments_within_bounds
                     (Some (JObj [("query", JStr "pdf"); ("limit", JNum 7)])))
              {| search_query := "pdf"; search_limit := 7;
                 search_category := None; search_min_score := None |}
              eq_refl)
    as (Hlo & Hhi & _).
  split; [exact Hlo | exact Hhi].
Defined.

(** A search that gives its query only. *)
Lemma absent_fields_get_defaults_witness :
  search_limit {| search_query := "pdf"; search_limit := 5;
                  search_category := None; search_min_score := None |} = 5%Q.
Proof.
  exact (proj1 (proj1 (absent_fields_get_defaults [("query", JStr "pdf")])
                  {| search_query := "pdf"; search_limit := 5;
                     search_category := None; search_min_score := None |}
                  eq_refl)
               eq_refl).
Defined.

(** The advertised default of the search limit. *)
Lemma advertised_defaults_are_applied_witness :
  parse_tool "search_skills"
    (Some (JObj [("limit", JNum 5); ("query", JStr "pdf")]))
  = parse_tool "search_skills" (Some (JObj [("query", JStr "pdf")])).
Proof.
  apply (advertised_defaults_are_applied bare search_tool limit_property
           (JNum 5) [("query", JStr "pdf")]).
  - apply list_elem_of_here.
  - apply list_elem_of_further, list_elem_of_here.
  - reflexivity.
  - reflexivity.
Defined.

(** A search with a property the tool list does not name. *)
Lemma schemas_read_advertised_properties_only_witness :
  parse_tool "search_skills"
    (Some (JObj [("verbose", JBool true); ("query", JStr "pdf")]))
  = parse_tool "search_skills" (Some (JObj [("query", JStr "pdf")])).
Proof.
  apply (schemas_read_advertised_properties_only bare search_tool
           [("verbose", JBool true); ("query", JStr "pdf")]
           [("query", JStr "pdf")]).
  - apply list_elem_of_here.
  - intros k Hk.
    change (k ∈ ["query"; "limit"; "category"; "min_score"]) in Hk.
    repeat (apply elem_of_cons in Hk as [-> | Hk]; [reflexivity |]).
    by apply elem_of_nil in Hk.
Defined.

(** A search without its query. *)
Lemma advertised_required_properties_witness :
  exists e, parse_tool "search_skills" (Some (JObj [])) = Some (Throw e).
Proof.
  apply (proj1 (proj2 (advertised_required_properties bare search_tool
                         (list_elem_of_here _ _)))
           "query" []).
  - apply list_elem_of_here.
  - reflexivity.
Defined.

(** A resource nobody lists. *)
Lemma unknown_resource_throws_witness :
  read_resource (H0 := number_text) "skillhub://nope" world0
  = (Throw (JsError "Unknown resource: skillhub://nope"), world0).
Proof.
  apply (unknown_resource_throws (H0 := number_text) "skillhub://nope" world0).
  compute_done.
Defined.

(** The popular skills. *)
Lemma listed_resources_are_served_witness :
  read_resource (H0 := number_text) "skillhub://popular" world0
  = (Ok [ {| contents_uri := "skillhub://popular";
             contents_mimeType := "text/markdown";
             contents_text := popular_text two_skills |} ], world0).
Proof.
  destruct (listed_resources_are_served (H0 := number_text) 1 popular_resource
              world0 eq_refl) as (answer & Hanswer & Hread).
  injection Hanswer as <-. exact Hread.
Defined.

(** Two recommendations, one of them installed already. *)
Lemma recommend_filter_selects_witness :
  let a := {| recommend_context := "pdf"; recommend_current_skills := ["git"];
              recommend_limit := 5 |} in
  let recs := [ {| rec_id := "1"; rec_slug := "git" |};
                {| rec_id := "2"; rec_slug := "pdf" |} ] in
  recommend_filter a recs `sublist_of` recs
  /\ (Z.of_nat (length (recommend_filter a recs)) <= to_integer (recommend_limit a)
      <= 10)%Z.
Proof.
  intros a recs.
  destruct (recommend_filter_selects (H := zod_render)
              (Some (JObj [("context", JStr "pdf");
                           ("current_skills", JArr [JStr "git"])]))
              a recs eq_refl) as (Hsub & _ & Hlen & _).
  split; [exact Hsub | exact Hlen].
Defined.

(** The slug [pdf] for [claude]. *)
Lemma plain_slug_is_accepted_witness :
  security_check "/work" "/home/u/.claude/skills"
    (Path.join ["/home/u/.claude/skills"; "pdf"]) = true.
Proof.
  destruct (plain_slug_is_accepted bare "claude" "pdf") as (b & Hb & _ & _ & Hsec).
  - apply list_elem_of_here.
  - reflexivity.
  - assert (Hroot : b = "/home/u/.claude/skills").
    { assert (Hown : Own b = Own "/home/u/.claude/skills")
        by (rewrite <- Hb; vm_compute; reflexivity).
      by injection Hown. }
    rewrite Hroot in Hsec. exact Hsec.
Defined.


(** Two agents, the first one not writable, and a plain slug. *)
Lemma plain_slug_fails_only_on_filesystem_witness :
  exists installed errors s',
    install_loop bare pdf ["claude"; "codex"] (start world_ro)
    = (Ok (installed, errors), s')
    /\ length installed + length errors = 2.
Proof.
  destruct (plain_slug_fails_only_on_filesystem bare pdf ["claude"; "codex"]
              (start world_ro))
    as (installed & errors & s' & Hrun & Hlen & _).
  - repeat (constructor; [compute_done |]). constructor.
  - reflexivity.
  - exists installed, errors, s'. split; [exact Hrun | exact Hlen].
Defined.

(** The default API base. *)
Lemma tracking_endpoint_witness :
  exists t w',
    trackMCPCall (H := runtime) bare "search_skills" None 0 true None []
      (start world0)
    = (Ok (), {| st_world := w'; st_log := [EvTrack t] |})
    /\ track_url t = "https://skillhub.club/api/v1/desktop/track".
Proof.
  destruct (tracking_endpoint (R := runtime) bare "search_skills" None 0 true
              None [] (start world0))
    as (t & w' & Hrun & Hurl & _).
  exists t, w'. split; [exact Hrun |].
  exact (Hurl "https://skillhub.club" "" eq_refl eq_refl).
Defined.


End MoreWitnesses.

(** ** More concrete runs *)

Example popular_resource_text :
  popular_text Sim2.two_skills
  = Str.join Str.nl
      [ "# Popular Skills on SkillHub";
        "";
        "1. **PDF** [A] - Reads PDF files";
        "2. **Git**  - No description";
        "";
        "Use `get_skill_detail` for more info." ].
Proof. vm_compute. reflexivity. Qed.

Example recent_resource_text :
  recent_text Sim2.two_skills
  = Str.join Str.nl
      [ "# Recently Added Skills";
        "";
        "1. **PDF** [docs] - Reads PDF files";
        "2. **Git**  - No description";
        "";
        "Use `search_skills` to find specific skills." ].
Proof. vm_compute. reflexivity. Qed.

(** A limit with a fraction keeps its whole part; a negative end counts from
    the end of the array. *)
Example slice0_fraction : slice0 (5 # 2) ["a"; "b"; "c"] = ["a"; "b"].
Proof. reflexivity. Qed.

Example slice0_negative : slice0 (-1 # 1) ["a"; "b"; "c"] = ["a"; "b"].
Proof. reflexivity. Qed.

Example tracking_url_custom_base :
  Str.replace_first "/api/v1" "" "http://localhost:3000/api/v1"
  +:+ "/api/v1/desktop/track"
  = "http://localhost:3000/api/v1/desktop/track".
Proof. reflexivity. Qed.
